(** * ts-dns: the query dispatch engine (package inbound) and the in-memory
    IP set (package cache), embedded from the Go sources.

    Layout: the pieces of Go's standard library the code calls ([GoStrings],
    [GoNet]), the DNS message ([Dns]), the helpers of core/common ([Common]),
    the RamSet ([Cache]), and the dispatcher ([Inbound]); the theorems about
    each follow the definitions. *)

From Stdlib Require Import ZArith NArith List String Ascii Lia Permutation.
From Stdlib.Strings Require Import Byte.
From Stdlib Require Import DecimalString HexadecimalString.
From stdpp Require Import gmap strings list.

Local Open Scope string_scope.
Local Open Scope list_scope.

(* ===================================================================== *)
(** ** Go's [strings] and [strconv], as far as the code uses them *)
(* ===================================================================== *)

Module GoStrings.

(** The line feed, the separator of [strings.Split(text, "\n")]. *)
Definition LF : ascii := Ascii.ascii_of_nat 10.
Definition TAB : ascii := Ascii.ascii_of_nat 9.
Definition CR : ascii := Ascii.ascii_of_nat 13.
Definition SP : ascii := Ascii.ascii_of_nat 32.

(** [strings.IndexByte(cutset, c) >= 0]. *)
Fixpoint contains_byte (cutset : string) (c : ascii) : bool :=
  match cutset with
  | EmptyString => false
  | String d rest => Ascii.eqb c d || contains_byte rest c
  end.

(** [strings.Split(s, sep)] for a separator of one byte: one more piece
    than there are separators, so [Split "" sep = [""]]. *)
Fixpoint Split (s : string) (sep : ascii) : list string :=
  match s with
  | EmptyString => [EmptyString]
  | String c rest =>
      if Ascii.eqb c sep then EmptyString :: Split rest sep
      else match Split rest sep with
           | [] => [String c EmptyString]
           | w :: ws => String c w :: ws
           end
  end.

Fixpoint TrimLeft (s cutset : string) : string :=
  match s with
  | EmptyString => EmptyString
  | String c rest => if contains_byte cutset c then TrimLeft rest cutset else s
  end.

Fixpoint TrimRight (s cutset : string) : string :=
  match s with
  | EmptyString => EmptyString
  | String c rest =>
      match TrimRight rest cutset with
      | EmptyString => if contains_byte cutset c then EmptyString else String c EmptyString
      | t => String c t
      end
  end.

(** [strings.Trim(s, cutset)]: leading and trailing bytes of the cutset go. *)
Definition Trim (s cutset : string) : string := TrimRight (TrimLeft s cutset) cutset.

(** The cutset of [NewRamSetByText]: space, tab, line feed, carriage return. *)
Definition blanks : string :=
  String SP (String TAB (String LF (String CR EmptyString))).

Definition is_upper (c : ascii) : bool :=
  let n := Ascii.N_of_ascii c in (65 <=? n)%N && (n <=? 90)%N.

Definition lower_byte (c : ascii) : ascii :=
  if is_upper c then Ascii.ascii_of_N (Ascii.N_of_ascii c + 32) else c.

(** [strings.ToLower] on the bytes of an ASCII string: [A-Z] go to [a-z],
    every other byte stays (the Unicode tables that the library consults
    for bytes above 127 are outside this model). *)
Fixpoint ToLower (s : string) : string :=
  match s with
  | EmptyString => EmptyString
  | String c rest => String (lower_byte c) (ToLower rest)
  end.

(** [strconv.FormatInt(int64(n), 10)] and [strconv.Itoa] for a number
    that is not negative. *)
Definition FormatInt (n : N) : string := DecimalString.NilZero.string_of_uint (N.to_uint n).

End GoStrings.

(* ===================================================================== *)
(** ** Go's [net]: addresses, their text form, parsing, networks *)
(* ===================================================================== *)

Module GoNet.
Import GoStrings.

(** [net.IP] is a byte slice; the nil address is the empty slice. *)
Abbreviation IP := (list byte).
Abbreviation IPMask := (list byte).

Definition IPv4len : nat := 4.
Definition IPv6len : nat := 16.

Definition byte_of_N (n : N) : byte :=
  match Byte.of_N (n mod 256) with Some b => b | None => x00 end.

Definition bytes_eqb (p q : list byte) : bool :=
  bool_decide (map Byte.to_N p = map Byte.to_N q).

Definition v4InV6Prefix : list byte :=
  [x00; x00; x00; x00; x00; x00; x00; x00; x00; x00; xff; xff].

(** [net.IPv4(a, b, c, d)]: the 16-byte form of an IPv4 address. *)
Definition IPv4 (a b c d : byte) : list byte := v4InV6Prefix ++ [a; b; c; d].

Definition isZeros (p : list byte) : bool := forallb (Byte.eqb x00) p.

(** [ip.To4()]: the 4-byte form, or nil when [ip] is no IPv4 address. *)
Definition To4 (ip : list byte) : list byte :=
  if (length ip =? IPv4len)%nat then ip
  else if (length ip =? IPv6len)%nat && isZeros (take 10 ip)
          && bytes_eqb (take 2 (drop 10 ip)) [xff; xff]
       then drop 12 ip
       else [].

(** [ip.To16()]: the 16-byte form, or nil when the length is wrong. *)
Definition To16 (ip : list byte) : list byte :=
  match ip with
  | [a; b; c; d] => IPv4 a b c d
  | _ => if (length ip =? IPv6len)%nat then ip else []
  end.

(** *** [ip.String()] *)

Definition hexDigit (n : N) : ascii :=
  match String.get (N.to_nat n) "0123456789abcdef" with
  | Some c => c
  | None => "0"%char
  end.

(** [hexString]: two digits per byte, for a slice of a wrong length. *)
Fixpoint hexString (p : list byte) : string :=
  match p with
  | [] => EmptyString
  | b :: rest =>
      String (hexDigit (N.shiftr (Byte.to_N b) 4))
        (String (hexDigit (N.land (Byte.to_N b) 15)) (hexString rest))
  end.

(** [appendHex]: a 16-bit group in hexadecimal, no leading zeros. *)
Definition appendHex (i : N) : string :=
  if (i =? 0)%N then "0"
  else
    String.concat ""
      (map (fun j : N =>
              let v := N.shiftr i (j * 4) in
              if (0 <? v)%N then String (hexDigit (N.land v 15)) EmptyString else "")
           [7; 6; 5; 4; 3; 2; 1; 0]%N).

Definition ubtoa (b : byte) : string := FormatInt (Byte.to_N b).

Definition dotted (p4 : list byte) : string :=
  match p4 with
  | [a; b; c; d] => ubtoa a +:+ "." +:+ ubtoa b +:+ "." +:+ ubtoa c +:+ "." +:+ ubtoa d
  | _ => ""
  end.

(** The eight 16-bit groups of a 16-byte address. *)
Fixpoint groups (p : list byte) : list N :=
  match p with
  | hi :: lo :: rest => (N.shiftl (Byte.to_N hi) 8 + Byte.to_N lo)%N :: groups rest
  | _ => []
  end.

Fixpoint zero_run (gs : list N) : nat :=
  match gs with
  | 0%N :: rest => S (zero_run rest)
  | _ => 0
  end.

Definition run_len (e : option (nat * nat)) : nat :=
  match e with Some (e0, e1) => e1 - e0 | None => 0 end.

(** The search for the longest run of zero groups: [i] is the group the
    loop stands at, [skip] the groups it jumps over after taking a run
    ([i = j] in the source), [e] the run [e0, e1) found so far. *)
Fixpoint longestZeros (gs : list N) (i skip : nat) (e : option (nat * nat))
  : option (nat * nat) :=
  match gs with
  | [] => e
  | _ :: rest =>
      match skip with
      | S k => longestZeros rest (S i) k e
      | O =>
          let r := zero_run gs in
          if ((0 <? r) && (run_len e <? r))%nat
          then longestZeros rest (S i) r (Some (i, i + r))
          else longestZeros rest (S i) 0 e
      end
  end.

(** The printing loop, with [::] in place of the run [e]. *)
Fixpoint printGroups (fuel i : nat) (gs : list N) (e : option (nat * nat)) : string :=
  match fuel with
  | O => ""
  | S fuel' =>
      if (8 <=? i)%nat then ""
      else
        match e with
        | Some (e0, e1) =>
            if (i =? e0)%nat then
              "::" +:+ (if (8 <=? e1)%nat then ""
                        else appendHex (nth e1 gs 0%N) +:+ printGroups fuel' (S e1) gs e)
            else (if (0 <? i)%nat then ":" else "")
                   +:+ appendHex (nth i gs 0%N) +:+ printGroups fuel' (S i) gs e
        | None =>
            (if (0 <? i)%nat then ":" else "")
              +:+ appendHex (nth i gs 0%N) +:+ printGroups fuel' (S i) gs e
        end
  end.

Definition string6 (p : list byte) : string :=
  let gs := groups p in
  let e := longestZeros gs 0 0 None in
  let e := if (run_len e <=? 1)%nat then None else e in
  printGroups 9 0 gs e.

Definition IP_String (ip : list byte) : string :=
  if (length ip =? 0)%nat then "<nil>"
  else if (length (To4 ip) =? IPv4len)%nat then dotted (To4 ip)
  else if negb (length ip =? IPv6len)%nat then "?" +:+ hexString ip
  else string6 ip.

(** *** [net.ParseIP] *)

Definition big : N := 16777215.

Definition is_digit (c : ascii) : bool :=
  let n := Ascii.N_of_ascii c in (48 <=? n)%N && (n <=? 57)%N.

(** The value of a hexadecimal digit, either case. *)
Definition hex_val (c : ascii) : option N :=
  let n := Ascii.N_of_ascii c in
  if (48 <=? n)%N && (n <=? 57)%N then Some (n - 48)%N
  else if (97 <=? n)%N && (n <=? 102)%N then Some (n - 97 + 10)%N
  else if (65 <=? n)%N && (n <=? 70)%N then Some (n - 65 + 10)%N
  else None.

Definition string_drop (n : nat) (s : string) : string :=
  String.substring n (String.length s - n) s.

(** [dtoi]: decimal to integer; (number, bytes consumed, success). *)
Fixpoint dtoi_from (s : string) (n : N) (i : nat) : N * nat * bool :=
  match s with
  | String c rest =>
      if is_digit c then
        let n' := (n * 10 + (Ascii.N_of_ascii c - 48))%N in
        if (big <=? n')%N then (big, i, false) else dtoi_from rest n' (S i)
      else if (i =? 0)%nat then (0%N, 0, false) else (n, i, true)
  | EmptyString => if (i =? 0)%nat then (0%N, 0, false) else (n, i, true)
  end.

Definition dtoi (s : string) : N * nat * bool := dtoi_from s 0%N 0.

(** [xtoi]: hexadecimal to integer; (number, bytes consumed, success). *)
Fixpoint xtoi_from (s : string) (n : N) (i : nat) : N * nat * bool :=
  match s with
  | String c rest =>
      match hex_val c with
      | Some d =>
          let n' := (n * 16 + d)%N in
          if (big <=? n')%N then (0%N, i, false) else xtoi_from rest n' (S i)
      | None => if (i =? 0)%nat then (0%N, i, false) else (n, i, true)
      end
  | EmptyString => if (i =? 0)%nat then (0%N, i, false) else (n, i, true)
  end.

Definition xtoi (s : string) : N * nat * bool := xtoi_from s 0%N 0.

Definition starts_with (c : ascii) (s : string) : bool :=
  match s with String d _ => Ascii.eqb c d | EmptyString => false end.

(** The loop of [parseIPv4]: [k] octets are still to be read, [first]
    says that no dot is due, [acc] holds the octets read. An octet above
    255 or with a leading zero is refused. *)
Fixpoint parseIPv4_from (k : nat) (first : bool) (s : string) (acc : list byte)
  : option (list byte) :=
  match k with
  | O => if (String.length s =? 0)%nat then Some acc else None
  | S k' =>
      if (String.length s =? 0)%nat then None
      else
        let s1 := if first then Some s
                  else if starts_with "."%char s then Some (string_drop 1 s) else None in
        match s1 with
        | None => None
        | Some s1 =>
            let '(n, c, ok) := dtoi s1 in
            if negb ok || (255 <? n)%N then None
            else if (1 <? c)%nat && starts_with "0"%char s1 then None
            else parseIPv4_from k' false (string_drop c s1) (acc ++ [byte_of_N n])
        end
  end.

Definition parseIPv4 (s : string) : list byte :=
  match parseIPv4_from 4 true s [] with
  | Some [a; b; c; d] => IPv4 a b c d
  | _ => []
  end.

(** Where the loop of [parseIPv6] stops: with the bytes read, the place
    of the ellipsis and the rest of the text, or with a failure. *)
Inductive v6scan :=
| V6Fail
| V6Done (acc : list byte) (ellipsis : option nat) (rest : string).

Fixpoint parseIPv6_loop (fuel : nat) (acc : list byte) (ellipsis : option nat)
    (s : string) : v6scan :=
  match fuel with
  | O => V6Done acc ellipsis s
  | S fuel' =>
      if (IPv6len <=? length acc)%nat then V6Done acc ellipsis s
      else
        let '(n, c, ok) := xtoi s in
        if negb ok || (65535 <? n)%N then V6Fail
        else if (c <? String.length s)%nat && starts_with "."%char (string_drop c s) then
          if (match ellipsis with None => true | Some _ => false end)
               && negb (length acc =? IPv6len - IPv4len)%nat then V6Fail
          else if (IPv6len <? length acc + IPv4len)%nat then V6Fail
          else
            match parseIPv4 s with
            | [] => V6Fail
            | ip4 => V6Done (acc ++ drop 12 ip4) ellipsis ""
            end
        else
          let acc' := acc ++ [byte_of_N (N.shiftr n 8); byte_of_N n] in
          let s' := string_drop c s in
          if (String.length s' =? 0)%nat then V6Done acc' ellipsis ""
          else if negb (starts_with ":"%char s') || (String.length s' =? 1)%nat then V6Fail
          else
            let s'' := string_drop 1 s' in
            if starts_with ":"%char s'' then
              match ellipsis with
              | Some _ => V6Fail
              | None =>
                  let s3 := string_drop 1 s'' in
                  if (String.length s3 =? 0)%nat then V6Done acc' (Some (length acc')) ""
                  else parseIPv6_loop fuel' acc' (Some (length acc')) s3
              end
            else parseIPv6_loop fuel' acc' ellipsis s''
  end.

Definition parseIPv6 (s : string) : list byte :=
  let lead := starts_with ":"%char s && starts_with ":"%char (string_drop 1 s) in
  let s0 := if lead then string_drop 2 s else s in
  let ell0 := if lead then Some 0 else None in
  if lead && (String.length s0 =? 0)%nat then replicate IPv6len x00
  else
    match parseIPv6_loop 9 [] ell0 s0 with
    | V6Fail => []
    | V6Done acc ellipsis rest =>
        if negb (String.length rest =? 0)%nat then []
        else if (length acc <? IPv6len)%nat then
          match ellipsis with
          | None => []
          | Some e => take e acc ++ replicate (IPv6len - length acc) x00 ++ drop e acc
          end
        else match ellipsis with Some _ => [] | None => acc end
    end.

(** The first dot or colon decides which parser reads the text. *)
Fixpoint ParseIP_scan (whole s : string) : list byte :=
  match s with
  | EmptyString => []
  | String c rest =>
      if Ascii.eqb c "."%char then parseIPv4 whole
      else if Ascii.eqb c ":"%char then parseIPv6 whole
      else ParseIP_scan whole rest
  end.

Definition ParseIP (s : string) : list byte := ParseIP_scan s s.

(** *** Networks: [net.IPNet], [net.ParseCIDR], [IPNet.Contains] *)

Record IPNet := { IPNet_IP : list byte; IPNet_Mask : list byte }.

Definition and_bytes (p m : list byte) : list byte :=
  zip_with (fun a b => byte_of_N (N.land (Byte.to_N a) (Byte.to_N b))) p m.

(** [CIDRMask(ones, bits)], [bits] being 32 or 128 at the call. *)
Fixpoint CIDRMask_from (l : nat) (n : N) : list byte :=
  match l with
  | O => []
  | S l' =>
      if (8 <=? n)%N then xff :: CIDRMask_from l' (n - 8)%N
      else byte_of_N (255 - N.shiftr 255 n) :: CIDRMask_from l' 0%N
  end.

Definition CIDRMask (ones : N) (bits : nat) : list byte :=
  if negb (bits =? 8 * IPv4len)%nat && negb (bits =? 8 * IPv6len)%nat then []
  else if (N.of_nat bits <? ones)%N then []
  else CIDRMask_from (bits / 8) ones.

(** [ip.Mask(mask)]. *)
Definition IP_Mask (ip mask : list byte) : list byte :=
  let mask := if (length mask =? IPv6len)%nat && (length ip =? IPv4len)%nat
                 && forallb (Byte.eqb xff) (take 12 mask)
              then drop 12 mask else mask in
  let ip := if (length mask =? IPv4len)%nat && (length ip =? IPv6len)%nat
               && bytes_eqb (take 12 ip) v4InV6Prefix
            then drop 12 ip else ip in
  if negb (length ip =? length mask)%nat then [] else and_bytes ip mask.

Fixpoint index_byte (s : string) (c : ascii) (i : nat) : option nat :=
  match s with
  | EmptyString => None
  | String d rest => if Ascii.eqb c d then Some i else index_byte rest c (S i)
  end.

(** [net.ParseCIDR(s)]: the network of "address/prefix-length"; [None]
    stands for the error result. *)
Definition ParseCIDR (s : string) : option IPNet :=
  match index_byte s "/"%char 0 with
  | None => None
  | Some i =>
      let addr := String.substring 0 i s in
      let mask := string_drop (S i) s in
      let ip4 := parseIPv4 addr in
      let iplen := match ip4 with [] => IPv6len | _ => IPv4len end in
      let ip := match ip4 with [] => parseIPv6 addr | _ => ip4 end in
      let '(n, c, ok) := dtoi mask in
      if (length ip =? 0)%nat || negb ok || negb (c =? String.length mask)%nat
         || (N.of_nat (8 * iplen) <? n)%N
      then None
      else
        let m := CIDRMask n (8 * iplen) in
        Some {| IPNet_IP := IP_Mask ip m; IPNet_Mask := m |}
  end.

Definition networkNumberAndMask (n : IPNet) : list byte * list byte :=
  let ip4 := To4 (IPNet_IP n) in
  let bad := (length ip4 =? 0)%nat && negb (length (IPNet_IP n) =? IPv6len)%nat in
  let ip := if (length ip4 =? 0)%nat then IPNet_IP n else ip4 in
  let m := IPNet_Mask n in
  if bad then ([], [])
  else if (length m =? IPv4len)%nat then
    if negb (length ip =? IPv4len)%nat then ([], []) else (ip, m)
  else if (length m =? IPv6len)%nat then
    if (length ip =? IPv4len)%nat then (ip, drop 12 m) else (ip, m)
  else ([], []).

(** [n.Contains(ip)]. *)
Definition IPNet_Contains (n : IPNet) (ip : list byte) : bool :=
  let '(nn, m) := networkNumberAndMask n in
  let ip := if (length (To4 ip) =? 0)%nat then ip else To4 ip in
  if negb (length ip =? length nn)%nat then false
  else bytes_eqb (and_bytes nn m) (and_bytes ip m).

End GoNet.

(* ===================================================================== *)
(** ** The DNS message (github.com/miekg/dns), as far as the code reads it *)
(* ===================================================================== *)

Module Dns.

Definition TypeA : N := 1.
Definition TypeAAAA : N := 28.
Definition TypeOPT : N := 41.
Definition OpcodeQuery : N := 0.
Definition RcodeSuccess : N := 0.

Record RR_Header := {
  Hdr_Name : string;
  Hdr_Rrtype : N;
  Hdr_Class : N;
  Hdr_Ttl : N;
  Hdr_Rdlength : N
}.

(** The zero value of a header, as [new(dns.AAAA)] carries it. *)
Definition zero_Header : RR_Header :=
  {| Hdr_Name := ""; Hdr_Rrtype := 0; Hdr_Class := 0; Hdr_Ttl := 0; Hdr_Rdlength := 0 |}.

Record A := { A_Hdr : RR_Header; A_A : list byte }.
Record AAAA := { AAAA_Hdr : RR_Header; AAAA_AAAA : list byte }.

Record EDNS0_SUBNET := {
  ECS_Code : N;
  ECS_Family : N;
  ECS_SourceNetmask : N;
  ECS_SourceScope : N;
  ECS_Address : list byte
}.

Inductive EDNS0 :=
| Opt_SUBNET (e : EDNS0_SUBNET)
| Opt_COOKIE (cookie : string)
| Opt_LOCAL (code : N) (data : list byte).

(** A resource record: the variants the dispatcher tells apart by a type
    switch, and one for every other record. *)
Inductive RR :=
| RR_A (a : A)
| RR_AAAA (a : AAAA)
| RR_OPT (hdr : RR_Header) (options : list EDNS0)
| RR_Other (hdr : RR_Header) (rdata : string).

Record Question := { Q_Name : string; Q_Qtype : N; Q_Qclass : N }.

Record Msg := {
  Id : N;
  Response : bool;
  Opcode : N;
  RecursionDesired : bool;
  CheckingDisabled : bool;
  Rcode : N;
  Questions : list Question;
  Answer : list RR;
  Ns : list RR;
  Extra : list RR
}.

(** [&dns.Msg{}] and [new(dns.Msg)]. *)
Definition empty_Msg : Msg :=
  {| Id := 0; Response := false; Opcode := 0; RecursionDesired := false;
     CheckingDisabled := false; Rcode := 0; Questions := []; Answer := [];
     Ns := []; Extra := [] |}.

Definition set_Answer (m : Msg) (ans : list RR) : Msg :=
  {| Id := Id m; Response := Response m; Opcode := Opcode m;
     RecursionDesired := RecursionDesired m; CheckingDisabled := CheckingDisabled m;
     Rcode := Rcode m; Questions := Questions m; Answer := ans;
     Ns := Ns m; Extra := Extra m |}.

(** The zero value of [dns.A], what a Go map gives for a missing key. *)
Definition zero_A : A := {| A_Hdr := zero_Header; A_A := [] |}.

(** [new(dns.AAAA)]: zero header, nil address. *)
Definition new_AAAA : AAAA := {| AAAA_Hdr := zero_Header; AAAA_AAAA := [] |}.

(** [r.SetReply(request)]: the reply envelope of [request] around the
    sections of [r]; the question is copied when the request has one. *)
Definition SetReply (r request : Msg) : Msg :=
  {| Id := Id request; Response := true; Opcode := Opcode request;
     RecursionDesired :=
       if (Opcode request =? OpcodeQuery)%N then RecursionDesired request
       else RecursionDesired r;
     CheckingDisabled :=
       if (Opcode request =? OpcodeQuery)%N then CheckingDisabled request
       else CheckingDisabled r;
     Rcode := RcodeSuccess;
     Questions := match Questions request with
                  | q :: _ => [q]
                  | [] => Questions r
                  end;
     Answer := Answer r; Ns := Ns r; Extra := Extra r |}.

Definition is_A (rr : RR) : bool := match rr with RR_A _ => true | _ => false end.
Definition is_AAAA (rr : RR) : bool := match rr with RR_AAAA _ => true | _ => false end.

End Dns.

(* ===================================================================== *)
(** ** Helpers of core/common *)
(* ===================================================================== *)

Module Common.
Import GoStrings GoNet Dns.

(** Modelled from the spec: [common.ExtractA] (core/common is not among
    the sources): the A records among the answers of a response, in
    answer order; a nil response has none. *)
Definition ExtractA (r : option Msg) : list A :=
  match r with
  | None => []
  | Some m => omap (fun rr => match rr with RR_A a => Some a | _ => None end) (Answer m)
  end.

(** Modelled from the spec: [common.ExtractAAAA], the same for AAAA. *)
Definition ExtractAAAA (r : option Msg) : list AAAA :=
  match r with
  | None => []
  | Some m => omap (fun rr => match rr with RR_AAAA a => Some a | _ => None end) (Answer m)
  end.

(** Modelled from the spec: [common.RemoveA], "remove every A record":
    the other answers stay, in their order. *)
Definition RemoveA (m : Msg) : Msg :=
  set_Answer m (filter (fun rr => is_A rr = false) (Answer m)).

Fixpoint first_subnet_of (opts : list EDNS0) : option EDNS0_SUBNET :=
  match opts with
  | [] => None
  | Opt_SUBNET e :: _ => Some e
  | _ :: rest => first_subnet_of rest
  end.

Fixpoint first_subnet (extra : list RR) : option EDNS0_SUBNET :=
  match extra with
  | [] => None
  | RR_OPT _ opts :: rest =>
      match first_subnet_of opts with
      | Some e => Some e
      | None => first_subnet rest
      end
  | _ :: rest => first_subnet rest
  end.

(** Modelled from the spec: [common.FormatECS], the "ECS-subnet" part of
    the fingerprint: the first client-subnet option of the request as
    address/prefix-length, and the empty string when there is none. *)
Definition FormatECS (r : Msg) : string :=
  match first_subnet (Extra r) with
  | Some e => IP_String (ECS_Address e) +:+ "/" +:+ FormatInt (ECS_SourceNetmask e)
  | None => ""
  end.

End Common.

(* ===================================================================== *)
(** ** Package cache: the RamSet *)
(* ===================================================================== *)

Module Cache.
Import GoStrings GoNet.

(** [RamSet]: the CIDR blocks in the order they were read, and the
    exact addresses keyed by their text. *)
Record RamSet := {
  subnet : list IPNet;
  ipMap : gmap string bool
}.

(** [Contain]: the exact-address index first, then the blocks in order. *)
Definition Contain (s : RamSet) (target : list byte) : bool :=
  match ipMap s !! IP_String target with
  | Some _ => true
  | None => existsb (fun n => IPNet_Contains n target) (subnet s)
  end.

(** The body of the loop of [NewRamSetByText] for one line. *)
Definition add_line (s : RamSet) (line : string) : RamSet :=
  let line := Trim line blanks in
  let m := <[IP_String (ParseIP line) := true]> (ipMap s) in
  match ParseCIDR line with
  | Some n => {| subnet := subnet s ++ [n]; ipMap := m |}
  | None => {| subnet := subnet s; ipMap := m |}
  end.

Definition NewRamSetByText (text : string) : RamSet :=
  fold_left add_line (Split text LF) {| subnet := []; ipMap := ∅ |}.

End Cache.

(* ===================================================================== *)
(** ** Package inbound: groups, the fastest-address selector, the handler *)
(* ===================================================================== *)

Module Inbound.
Import GoStrings GoNet Dns Common Cache.

(** What a Go call comes to: a value, a panic, or a goroutine that never
    gets past a blocking operation. *)
Inductive Result (T : Type) :=
| Done (v : T)
| Panics
| Blocks.
Arguments Done {T} v.
Arguments Panics {T}.
Arguments Blocks {T}.

#[global] Instance Result_bind : MBind Result := fun T U k m =>
  match m with
  | Done v => k v
  | Panics => Panics
  | Blocks => Blocks
  end.

(** [outbound.Caller]: [Call] answers a request or fails; the error is
    only logged, so a caller is its response, nil on failure. *)
Definition Caller : Type := Msg -> option Msg.

(** [hosts.Reader]: [Record(hostname, ipv6)], the empty string on a miss. *)
Definition Reader : Type := string -> bool -> string.

(** [*matcher.ABPlus]: [Match(domain)] gives (match, ok). *)
Definition ABPlus : Type := string -> bool * bool.

(** The collaborators the package calls and the sources do not hold. *)
Class Env := {
  (** [pingRtt(ip, tcpPort)], the probe: milliseconds, [maxRtt + 1] when
      the address does not answer. *)
  pingRtt : string -> Z -> Z;
  (** [dns.NewRR(record)], [None] for its error. *)
  NewRR : string -> option RR;
  (** The table [dns.TypeToString]; the empty string for a missing type. *)
  TypeToString : N -> string;
  (** [Match] called on a nil [*matcher.ABPlus]: its result, or [None]
      when that call panics. *)
  Match_nil : string -> option (bool * bool);
  (** [common.SetDefaultECS] and [common.RemoveEDNSCookie] on the copy of
      the request. *)
  SetDefaultECS : Msg -> option EDNS0_SUBNET -> Msg;
  RemoveEDNSCookie : Msg -> Msg;
  (** [*cache.DNSCache]: the state of the response cache, [Get], [Set]. *)
  DNSCache : Type;
  Cache_Get : DNSCache -> Msg -> option Msg;
  Cache_Set : DNSCache -> Msg -> option Msg -> DNSCache
}.

Definition maxRtt : Z := 500.
Definition MaxInt64 : Z := 9223372036854775807.

(** [Group]: the configuration of one group of upstream servers. *)
Record Group := {
  Callers : list Caller;
  Matcher : option ABPlus;
  IPSet : option string;
  Concurrent : bool;
  FastestV4 : bool;
  TCPPingPort : Z;
  ECS : option EDNS0_SUBNET;
  NoCookie : bool;
  TestIPv6 : list string;
  DisableIPv6 : bool;
  Name : string
}.

(** The choices Go leaves to the scheduler and to the map iterator: the
    order in which the answers of concurrent callers reach the channel,
    the order in which the probe goroutines take [aLock], and the orders
    of [range] over [rttMap] and over [handler.Groups]. *)
Record Sched := {
  arrive : list (option Msg) -> list (option Msg);
  probes : list (string * A) -> list (string * A);
  rttOrder : list (string * Z) -> list (string * Z);
  groupOrder : list (string * Group) -> list (string * Group)
}.

(** Every such order is a rearrangement of what it orders. *)
Definition fair (sc : Sched) : Prop :=
  (forall l, arrive sc l ≡ₚ l) /\ (forall l, probes sc l ≡ₚ l)
  /\ (forall l, rttOrder sc l ≡ₚ l) /\ (forall l, groupOrder sc l ≡ₚ l).

(** The scheduler that keeps every order as it finds it. *)
Definition in_order : Sched :=
  {| arrive := id; probes := id; rttOrder := id; groupOrder := id |}.

(** [Contain] through a [*cache.RamSet] that may be nil. *)
Definition Contain_ptr (s : option RamSet) (ip : list byte) : Result bool :=
  match s with
  | Some s => Done (Contain s ip)
  | None => Panics
  end.

Definition isNil (ip : list byte) : bool := (length ip =? 0)%nat.

(** The two loops of [allInRange]: an address that does not parse back
    is skipped, the first one outside the set ends the loop with false. *)
Fixpoint allInRange_A (l : list A) (ipRange : option RamSet) : Result bool :=
  match l with
  | [] => Done true
  | a :: rest =>
      let ipv4 := To4 (ParseIP (IP_String (A_A a))) in
      if isNil ipv4 then allInRange_A rest ipRange
      else
        c ← Contain_ptr ipRange ipv4 ;
        if negb c then Done false else allInRange_A rest ipRange
  end.

Fixpoint allInRange_AAAA (l : list AAAA) (ipRange : option RamSet) : Result bool :=
  match l with
  | [] => Done true
  | a :: rest =>
      let ipv6 := To16 (ParseIP (IP_String (AAAA_AAAA a))) in
      if isNil ipv6 then allInRange_AAAA rest ipRange
      else
        c ← Contain_ptr ipRange ipv6 ;
        if negb c then Done false else allInRange_AAAA rest ipRange
  end.

(** [allInRange(r, ipRange)] as the sources define it, one set for both
    families. *)
Definition allInRange (r : option Msg) (ipRange : option RamSet) : Result bool :=
  v4 ← allInRange_A (ExtractA r) ipRange ;
  if negb v4 then Done false else allInRange_AAAA (ExtractAAAA r) ipRange.

(** Modelled from the spec: the three-argument [allInRange] that
    [ServeDNS] calls with [handler.CNIP] and [handler.CNIPv6] (the
    sources define the two-argument form above only): "an IP is in range
    iff it is v4 and in CNIP, or v6 and in CNIPv6"; the loops are those of
    the two-argument form, the AAAA loop reading the second set. *)
Definition allInRange2 (r : option Msg) (ipRange ipRangeV6 : option RamSet)
  : Result bool :=
  v4 ← allInRange_A (ExtractA r) ipRange ;
  if negb v4 then Done false else allInRange_AAAA (ExtractAAAA r) ipRangeV6.

Section WithEnv.
Context `{Env}.

(** *** [fastestA] *)

(** The loop that drains the channel keeps the last message that is not
    nil. *)
Definition lastNonNil (msgs : list (option Msg)) : option Msg :=
  fold_left (fun res msg => match msg with Some m => Some m | None => res end) msgs None.

(** One probe goroutine per A record of every drained message, in the
    order the loop starts them. *)
Definition spawned (msgs : list (option Msg)) : list (string * A) :=
  flat_map (fun msg => map (fun a => (IP_String (A_A a), a)) (ExtractA msg)) msgs.

(** A probe goroutine: it leaves when its address is in [aMap] already,
    and otherwise records its A record and the round-trip time. *)
Definition probe (tcpPort : Z) (st : gmap string A * gmap string Z)
    (task : string * A) : gmap string A * gmap string Z :=
  match st.1 !! task.1 with
  | Some _ => st
  | None => (<[task.1 := task.2]> st.1, <[task.1 := pingRtt task.1 tcpPort]> st.2)
  end.

(** The body of the loop over [rttMap]. *)
Definition pickLowest (acc : Z * string) (kv : string * Z) : Z * string :=
  if bool_decide (kv.2 < maxRtt)%Z && bool_decide (kv.2 < acc.1)%Z
  then (kv.2, kv.1) else acc.

(** [fastestA(ch, chLen, tcpPort)]: [ch] lists the messages in the order
    the channel hands them out; with fewer than [chLen] of them the
    receive blocks for good. *)
Definition fastestA (sc : Sched) (ch : list (option Msg)) (chLen : nat) (tcpPort : Z)
  : Result (option Msg) :=
  if (length ch <? chLen)%nat then Blocks
  else
    let msgs := take chLen ch in
    let res := lastNonNil msgs in
    let '(aMap, rttMap) := fold_left (probe tcpPort) (probes sc (spawned msgs)) (∅, ∅) in
    let '(lowestRtt, fastestIP) :=
      fold_left pickLowest (rttOrder sc (map_to_list rttMap)) (MaxInt64, "") in
    let aObj := default zero_A (aMap !! fastestIP) in
    match res with
    | Some m =>
        if negb (String.eqb fastestIP "")
        then Done (Some (set_Answer (RemoveA m) (Answer (RemoveA m) ++ [RR_A aObj])))
        else Done res
    | None => Done res
    end.

(** *** [Group.callDNS] and [Group.CallDNS] *)

(** The sequential loop: callers in order, the first answer wins. *)
Fixpoint callInTurn (callers : list Caller) (request : Msg) : option Msg :=
  match callers with
  | [] => None
  | caller :: rest =>
      match caller request with
      | Some r => Some r
      | None => callInTurn rest request
      end
  end.

(** The receive loop of the concurrent mode: up to [n] messages are
    taken from the channel, the first that is not nil is returned. *)
Fixpoint recvFirst (n : nat) (ch : list (option Msg)) : Result (option Msg) :=
  match n with
  | O => Done None
  | S n' =>
      match ch with
      | [] => Blocks
      | Some r :: _ => Done (Some r)
      | None :: rest => recvFirst n' rest
      end
  end.

Definition callDNS (sc : Sched) (group : Group) (request : option Msg)
  : Result (option Msg) :=
  match request with
  | None => Done None
  | Some request =>
      if (length (Callers group) =? 0)%nat then Done None
      else
        let request := SetDefaultECS request (ECS group) in
        let request := if NoCookie group then RemoveEDNSCookie request else request in
        if Concurrent group || FastestV4 group then
          let ch := arrive sc (map (fun caller => caller request) (Callers group)) in
          if Concurrent group && negb (FastestV4 group)
          then recvFirst (length (Callers group)) ch
          else fastestA sc ch (length (Callers group)) (TCPPingPort group)
        else Done (callInTurn (Callers group) request)
  end.

(** The loop over [records.Answer] that puts [new(dns.AAAA)] in the
    place of every AAAA record. *)
Fixpoint clearAAAA (answers : list RR) : list RR :=
  match answers with
  | [] => []
  | record :: rest =>
      match record with
      | RR_AAAA _ => RR_AAAA new_AAAA :: clearAAAA rest
      | _ => record :: clearAAAA rest
      end
  end.

Definition CallDNS (sc : Sched) (group : Group) (request : option Msg)
  : Result (option Msg) :=
  records ← callDNS sc group request;
  match records with
  | Some m =>
      if DisableIPv6 group then Done (Some (set_Answer m (clearAAAA (Answer m))))
      else Done records
  | None => Done records
  end.

(** A method called through a [*Group] that may be nil. *)
Definition CallDNS_ptr (sc : Sched) (group : option Group) (request : option Msg)
  : Result (option Msg) :=
  match group with
  | Some g => CallDNS sc g request
  | None => Panics
  end.

(** *** The single-flight records *)

(** [reqCond]: the mutex of its condition variable and the flag. *)
Record reqCond := { locked : bool; ready : bool }.

Definition newReqCond : reqCond := {| locked := false; ready := true |}.

(** [condMap] maps a fingerprint to a [*reqCond]; [conds] is the heap
    the pointers point into, a pointer being an index. *)
Record CondStore := { condMap : gmap string nat; conds : list reqCond }.

Definition emptyStore : CondStore := {| condMap := ∅; conds := [] |}.

Definition getCacheKey (request : Msg) : Result string :=
  match Questions request with
  | [] => Panics
  | question :: _ =>
      let key := Q_Name question +:+ FormatInt (Q_Qtype question) in
      let subnet := FormatECS request in
      let key := if negb (String.eqb subnet "") then key +:+ "." +:+ subnet else key in
      Done (ToLower key)
  end.

(** [CondMap.get] run without interruption: the record of the key, a
    new one when the key has none. *)
Definition get (c : CondStore) (request : Msg) : Result (nat * CondStore) :=
  key ← getCacheKey request;
  match condMap c !! key with
  | Some cond => Done (cond, c)
  | None =>
      let cond := length (conds c) in
      Done (cond, {| condMap := <[key := cond]> (condMap c);
                     conds := conds c ++ [newReqCond] |})
  end.

(** *** The handler *)

Record Handler := {
  Mux : nat;
  Listen : string;
  Network : string;
  H_DisableIPv6 : bool;
  H_Cache : option DNSCache;
  GFWMatcher : option ABPlus;
  CNIP : option RamSet;
  CNIPv6 : option RamSet;
  HostsReaders : option (list Reader);
  Groups : option (gmap string Group);
  QueryLogger : option string;
  DisableQTypes : option (gmap string bool)
}.

(** What a dispatch does to the world outside, in order. *)
Inductive Event :=
| LogQueryEv (msg group : string)
| CallDNSEv (group : string)
| CacheSetEv (request : Msg) (r : option Msg)
| WriteMsgEv (r : Msg)
| IPSetAddEv (set ip : string)
| CloseEv.

(** The variables the deferred functions of [ServeDNS] read ([r],
    [group]) and the state the call works on. *)
Record Frame := {
  fr_r : option Msg;
  fr_group : option Group;
  fr_cache : option DNSCache;
  fr_store : CondStore;
  fr_trace : list Event
}.

(** How a piece of the body ends: it goes on with a value, returns,
    panics, or blocks for good. *)
Inductive Flow (T : Type) :=
| Next (v : T)
| Return
| Panic
| Block.
#[global] Arguments Next {T} v.
#[global] Arguments Return {T}.
#[global] Arguments Panic {T}.
#[global] Arguments Block {T}.

Definition M (T : Type) : Type := Frame -> Frame * Flow T.

#[global] Instance M_ret : MRet M := fun T v fr => (fr, Next v).

#[global] Instance M_bind : MBind M := fun T U k m fr =>
  match m fr with
  | (fr', Next v) => k v fr'
  | (fr', Return) => (fr', Return)
  | (fr', Panic) => (fr', Panic)
  | (fr', Block) => (fr', Block)
  end.

Definition return_ {T : Type} : M T := fun fr => (fr, Return).
Definition panic_ {T : Type} : M T := fun fr => (fr, Panic).
Definition block_ {T : Type} : M T := fun fr => (fr, Block).

Definition lift {T : Type} (m : Result T) : M T := fun fr =>
  match m with
  | Done v => (fr, Next v)
  | Panics => (fr, Panic)
  | Blocks => (fr, Block)
  end.

Definition emit (e : Event) : M unit := fun fr =>
  ({| fr_r := fr_r fr; fr_group := fr_group fr; fr_cache := fr_cache fr;
      fr_store := fr_store fr; fr_trace := fr_trace fr ++ [e] |}, Next tt).

Definition set_r (r : option Msg) : M unit := fun fr =>
  ({| fr_r := r; fr_group := fr_group fr; fr_cache := fr_cache fr;
      fr_store := fr_store fr; fr_trace := fr_trace fr |}, Next tt).

Definition set_group (g : option Group) : M unit := fun fr =>
  ({| fr_r := fr_r fr; fr_group := g; fr_cache := fr_cache fr;
      fr_store := fr_store fr; fr_trace := fr_trace fr |}, Next tt).

Definition set_store (c : CondStore) : M unit := fun fr =>
  ({| fr_r := fr_r fr; fr_group := fr_group fr; fr_cache := fr_cache fr;
      fr_store := c; fr_trace := fr_trace fr |}, Next tt).

Definition set_cache (c : option DNSCache) : M unit := fun fr =>
  ({| fr_r := fr_r fr; fr_group := fr_group fr; fr_cache := c;
      fr_store := fr_store fr; fr_trace := fr_trace fr |}, Next tt).

Definition get_frame : M Frame := fun fr => (fr, Next fr).

(** [defer d] around [body]: [d] runs when [body] returns or panics, and
    the way [body] ended stays. A goroutine that blocks for good never
    reaches its deferred calls. *)
Definition with_defer {T : Type} (d : Frame -> Frame) (body : M T) : M T := fun fr =>
  match body fr with
  | (fr', Block) => (fr', Block)
  | (fr', flow) => (d fr', flow)
  end.

(** *** [HitHosts] *)

(** [hostname[:len(hostname)-1]]: a slice bound of -1 panics. *)
Definition dropLast (hostname : string) : Result string :=
  if (String.length hostname =? 0)%nat then Panics
  else Done (String.substring 0 (String.length hostname - 1) hostname).

Fixpoint HitHosts_loop (readers : list Reader) (hostname : string) (ipv6 : bool)
  : Result (option Msg) :=
  match readers with
  | [] => Done None
  | reader :: rest =>
      record ← (if String.eqb (reader hostname ipv6) ""
                then short ← dropLast hostname; Done (reader short ipv6)
                else Done (reader hostname ipv6));
      if negb (String.eqb record "") then
        match NewRR record with
        | None => HitHosts_loop rest hostname ipv6
        | Some ret => Done (Some (set_Answer empty_Msg [ret]))
        end
      else HitHosts_loop rest hostname ipv6
  end.

Definition HitHosts (handler : Handler) (request : Msg) : Result (option Msg) :=
  match Questions request with
  | [] => Panics
  | question :: _ =>
      if (Q_Qtype question =? TypeA)%N || (Q_Qtype question =? TypeAAAA)%N then
        HitHosts_loop (default [] (HostsReaders handler)) (Q_Name question)
          (Q_Qtype question =? TypeAAAA)%N
      else Done None
  end.

(** [LogQuery] goes through [handler.QueryLogger], a pointer. *)
Definition LogQuery (handler : Handler) (msg group : string) : M unit :=
  match QueryLogger handler with
  | None => panic_
  | Some _ => emit (LogQueryEv msg group)
  end.

(** *** The steps of [ServeDNS] on the single-flight record *)

Definition update_cond (cond : nat) (f : reqCond -> reqCond) (c : CondStore) : CondStore :=
  {| condMap := condMap c; conds := alter f cond (conds c) |}.

(** [reqCond.cond.L.Lock()]: in a dispatch that runs alone nobody will
    ever release a mutex it finds taken. *)
Definition Lock (cond : nat) : M unit := fun fr =>
  match conds (fr_store fr) !! cond with
  | None => (fr, Panic)
  | Some rc =>
      if locked rc then (fr, Block)
      else set_store (update_cond cond (fun rc => {| locked := true; ready := ready rc |})
                        (fr_store fr)) fr
  end.

(** [for !reqCond.ready { reqCond.cond.Wait() }]: alone, a wait is never
    signalled. *)
Definition WaitReady (cond : nat) : M unit := fun fr =>
  match conds (fr_store fr) !! cond with
  | None => (fr, Panic)
  | Some rc => if ready rc then (fr, Next tt) else (fr, Block)
  end.

Definition Unlock (cond : nat) : M unit := fun fr =>
  set_store (update_cond cond (fun rc => {| locked := false; ready := ready rc |})
               (fr_store fr)) fr.

Definition set_ready (cond : nat) (b : bool) : M unit := fun fr =>
  set_store (update_cond cond (fun rc => {| locked := locked rc; ready := b |})
               (fr_store fr)) fr.

(** The deferred function of line 434: ready again, signal, unlock. *)
Definition release (cond : nat) (fr : Frame) : Frame :=
  {| fr_r := fr_r fr; fr_group := fr_group fr; fr_cache := fr_cache fr;
     fr_store := update_cond cond (fun _ => {| locked := false; ready := true |})
                   (fr_store fr);
     fr_trace := fr_trace fr |}.

(** [r = handler.Cache.Get(request)] and [handler.Cache.Set(request, r)],
    through a pointer that may be nil. *)
Definition cacheGet (request : Msg) : M (option Msg) := fun fr =>
  match fr_cache fr with
  | None => (fr, Panic)
  | Some c => (set_r (Cache_Get c request);; mret (Cache_Get c request)) fr
  end.

Definition cacheSet (request : Msg) (r : option Msg) : M unit := fun fr =>
  match fr_cache fr with
  | None => (fr, Panic)
  | Some c => (set_cache (Some (Cache_Set c request r));; emit (CacheSetEv request r)) fr
  end.

(** *** The rule stage and the default path *)

Definition lookupGroup (handler : Handler) (key : string) : option Group :=
  Groups handler ≫= fun m => m !! key.

Definition Match_ptr (matcher : option ABPlus) (name : string) : Result (bool * bool) :=
  match matcher with
  | Some m => Done (m name)
  | None => match Match_nil name with Some v => Done v | None => Panics end
  end.

(** [ok && match]. *)
Definition matched (v : bool * bool) : bool := v.2 && v.1.

(** [group.CallDNS(ctx, request)] on the group found under [key]. *)
Definition callGroup (sc : Sched) (key : string) (group : option Group) (request : Msg)
  : M (option Msg) :=
  match group with
  | None => panic_
  | Some g => emit (CallDNSEv key);; lift (CallDNS sc g (Some request))
  end.

(** Lines 447-449: the drop rule. *)
Definition dropRule (handler : Handler) (question : Question) : M unit :=
  match lookupGroup handler "drop" with
  | None => panic_
  | Some g =>
      v ← lift (Match_ptr (Matcher g) (Q_Name question));
      if matched v then return_ else mret tt
  end.

(** Lines 450-463: the loop over [handler.Groups]; [group] is the
    variable the deferred reply writer reads. *)
Fixpoint ruleLoop (sc : Sched) (handler : Handler) (request : Msg) (question : Question)
    (groups : list (string * Group)) : M unit :=
  match groups with
  | [] => mret tt
  | (name, group) :: rest =>
      set_group (Some group);;
      v ← lift (Match_ptr (Matcher group) (Q_Name question));
      if matched v then
        LogQuery handler "match by rules" name;;
        r ← callGroup sc name (Some group) request;
        set_r r;;
        (if String.eqb name "dirty" && bool_decide (r = None) then
           r' ← callGroup sc "clean" (lookupGroup handler "clean") request;
           set_r r'
         else cacheSet request r);;
        return_
      else ruleLoop sc handler request question rest
  end.

(** Lines 464-490: no rule matched. *)
Definition defaultPath (sc : Sched) (handler : Handler) (request : Msg) : M unit :=
  set_group (lookupGroup handler "clean");;
  r ← callGroup sc "clean" (lookupGroup handler "clean") request;
  set_r r;;
  inRange ← lift (allInRange2 r (CNIP handler) (CNIPv6 handler));
  usingCache ←
    (if inRange : bool then
       (if (length (ExtractA r) + length (ExtractAAAA r) =? 0)%nat
        then LogQuery handler "no ip found" "none"
        else LogQuery handler "match cnip" "clean");;
       mret true
     else
       set_group (lookupGroup handler "dirty");;
       rr ← callGroup sc "dirty" (lookupGroup handler "dirty") request;
       match rr with
       | Some _ => LogQuery handler "not match cnip" "dirty";; set_r rr;; mret true
       | None => LogQuery handler "using clean" "dirty";; mret false
       end);
  if usingCache : bool then fr ← get_frame; cacheSet request (fr_r fr) else mret tt.

(** Lines 440-490, the part that runs with the single-flight slot taken. *)
Definition resolve (sc : Sched) (handler : Handler) (request : Msg) (question : Question)
  : M unit :=
  hit ← cacheGet request;
  if bool_decide (hit ≠ None) then LogQuery handler "hit cache" "";; return_
  else
    dropRule handler question;;
    ruleLoop sc handler request question
      (groupOrder sc (map_to_list (default ∅ (Groups handler))));;
    defaultPath sc handler request.

Definition lookupFlag (m : option (gmap string bool)) (key : string) : bool :=
  default false (m ≫= fun m => m !! key).

(** Lines 400-491: the body of [ServeDNS] below its first [defer]. *)
Definition ServeDNS_body (sc : Sched) (handler : Handler) (request : Msg) : M unit :=
  question ← lift (match Questions request with
                   | [] => Panics
                   | q :: _ => Done q
                   end);
  if H_DisableIPv6 handler && (Q_Qtype question =? TypeAAAA)%N
  then set_r (Some empty_Msg);; return_
  else if lookupFlag (DisableQTypes handler) (TypeToString (Q_Qtype question))
  then set_r (Some empty_Msg);; return_
  else
    hosts ← lift (HitHosts handler request);
    set_r hosts;;
    if bool_decide (hosts ≠ None) then LogQuery handler "hit hosts" "";; return_
    else
      fr ← get_frame;
      got ← lift (get (fr_store fr) request);
      set_store got.2;;
      Lock got.1;; WaitReady got.1;; Unlock got.1;;
      hit ← cacheGet request;
      if bool_decide (hit ≠ None) then LogQuery handler "hit cache" "";; return_
      else
        Lock got.1;; WaitReady got.1;; set_ready got.1 false;;
        with_defer (release got.1) (resolve sc handler request question).

(** [group.AddIPSet(ctx, r)]: every A address of the reply goes to the
    set of the group, when it has one. *)
Definition AddIPSet (group : Group) (r : option Msg) : list Event :=
  match IPSet group, r with
  | Some set, Some _ => map (fun a => IPSetAddEv set (IP_String (A_A a))) (ExtractA r)
  | _, _ => []
  end.

(** The deferred function of line 386: the reply is written, the
    addresses go to the IP set, the connection is closed. *)
Definition writeReply (request : Msg) (fr : Frame) : Frame :=
  let r := SetReply (default empty_Msg (fr_r fr)) request in
  {| fr_r := Some r; fr_group := fr_group fr; fr_cache := fr_cache fr;
     fr_store := fr_store fr;
     fr_trace := fr_trace fr ++ [WriteMsgEv r]
                   ++ match fr_group fr with
                      | Some g => AddIPSet g (Some r)
                      | None => []
                      end
                   ++ [CloseEv] |}.

Inductive Exit := Returned | Panicked | Blocked.

Record Outcome := { exit : Exit; final : Frame }.

(** [ServeDNS(resp, request)] for a dispatch that runs alone, from the
    single-flight records [store]: how the call ends and what it did.
    The deferred functions run on a return and on a panic alike. *)
Definition ServeDNS (sc : Sched) (handler : Handler) (request : Msg) (store : CondStore)
  : Outcome :=
  let fr0 := {| fr_r := None; fr_group := None; fr_cache := H_Cache handler;
                fr_store := store; fr_trace := [] |} in
  match ServeDNS_body sc handler request fr0 with
  | (fr, Block) => {| exit := Blocked; final := fr |}
  | (fr, Panic) => {| exit := Panicked; final := writeReply request fr |}
  | (fr, _) => {| exit := Returned; final := writeReply request fr |}
  end.

(** The replies the dispatch wrote, the upstream groups it called and
    the cache writes it made, read off its trace. *)
Definition replies (trace : list Event) : list Msg :=
  omap (fun e => match e with WriteMsgEv r => Some r | _ => None end) trace.

Definition called (trace : list Event) : list string :=
  omap (fun e => match e with CallDNSEv g => Some g | _ => None end) trace.

Definition cacheWrites (trace : list Event) : list (Msg * option Msg) :=
  omap (fun e => match e with CacheSetEv q r => Some (q, r) | _ => None end) trace.

(** *** [Refresh] and [IsValid] *)

(** [orElse new old]: the field of the target when it is not nil. *)
Definition orElse {T : Type} (new old : option T) : option T :=
  match new with Some _ => new | None => old end.

Definition Refresh (handler target : Handler) : Handler :=
  {| Mux := Mux handler;
     Listen := Listen handler;
     Network := Network handler;
     H_DisableIPv6 := H_DisableIPv6 target;
     H_Cache := orElse (H_Cache target) (H_Cache handler);
     GFWMatcher := orElse (GFWMatcher target) (GFWMatcher handler);
     CNIP := orElse (CNIP target) (CNIP handler);
     CNIPv6 := CNIPv6 handler;
     HostsReaders := orElse (HostsReaders target) (HostsReaders handler);
     Groups := orElse (Groups target) (Groups handler);
     QueryLogger := orElse (QueryLogger target) (QueryLogger handler);
     DisableQTypes := DisableQTypes handler |}.

Definition IsValid (handler : Handler) : bool :=
  match Groups handler with
  | None => false
  | Some groups =>
      match groups !! "clean", groups !! "dirty" with
      | Some clean, Some dirty =>
          negb ((length (Callers clean) <=? 0)%nat || (length (Callers dirty) <=? 0)%nat)
      | _, _ => false
      end
  end.

End WithEnv.
End Inbound.

(* ===================================================================== *)
(** ** Concurrent dispatches of one fingerprint: lines 313-326 and 417-443 *)
(* ===================================================================== *)

Module SingleFlight.
Import Inbound.

(** Where a dispatch stands between [condMap.get] and the end of its
    deferred release; one point per operation on the shared state.
    [cond] is the [*reqCond] the dispatch got from [get]. *)
Inductive pc :=
| GetRead                (* 315-317: RLock, cond, ok := c[key], RUnlock *)
| GetWrite               (* 321-324: newReqCond, Lock, c[key] = cond, Unlock *)
| Lock1 (cond : nat)     (* 418 *)
| Wait1 (cond : nat)     (* 419-421, the test of the loop *)
| Asleep1 (cond : nat)   (* inside Wait, the mutex released *)
| Woken1 (cond : nat)    (* signalled, Wait takes the mutex again *)
| Unlock1 (cond : nat)   (* 422 *)
| Cache1 (cond : nat)    (* 424 *)
| Lock2 (cond : nat)     (* 429 *)
| Wait2 (cond : nat)     (* 430-432 *)
| Asleep2 (cond : nat)
| Woken2 (cond : nat)
| Take (cond : nat)      (* 433: ready = false *)
| Cache2 (cond : nat)    (* 440 *)
| Resolving (cond : nat) (* 445-490: the upstream call is in flight *)
| Release (cond : nat)   (* 435-437: ready = true, Signal, Unlock *)
| Finished.

(** The shared state: the single-flight records, whether the cache
    holds an answer for the fingerprint, the number of upstream
    resolutions started, and the dispatches. *)
Record State := {
  store : CondStore;
  cached : bool;
  upstream : nat;
  threads : list pc
}.

Definition init (n : nat) : State :=
  {| store := emptyStore; cached := false; upstream := 0; threads := replicate n GetRead |}.

Definition goto (t : nat) (p : pc) (s : State) : State :=
  {| store := store s; cached := cached s; upstream := upstream s;
     threads := <[t := p]> (threads s) |}.

Definition with_store (c : CondStore) (s : State) : State :=
  {| store := c; cached := cached s; upstream := upstream s; threads := threads s |}.

Definition cond_at (s : State) (cond : nat) : reqCond :=
  default newReqCond (conds (store s) !! cond).

Definition set_locked (cond : nat) (b : bool) (s : State) : State :=
  with_store (update_cond cond (fun rc => {| locked := b; ready := ready rc |}) (store s)) s.

Definition set_flag (cond : nat) (b : bool) (s : State) : State :=
  with_store (update_cond cond (fun rc => {| locked := locked rc; ready := b |}) (store s)) s.

(** [Signal]: the dispatch that has waited longest on the condition, if
    there is one, leaves its wait. *)
Fixpoint signal (cond : nat) (ts : list pc) : list pc :=
  match ts with
  | [] => []
  | Asleep1 c :: rest =>
      if (c =? cond)%nat then Woken1 c :: rest else Asleep1 c :: signal cond rest
  | Asleep2 c :: rest =>
      if (c =? cond)%nat then Woken2 c :: rest else Asleep2 c :: signal cond rest
  | p :: rest => p :: signal cond rest
  end.

(** Taking the mutex of [cond] and going on at [p]; no step while the
    mutex is taken. *)
Definition acquire (t cond : nat) (p : pc) (s : State) : option State :=
  if locked (cond_at s cond) then None
  else Some (goto t p (set_locked cond true s)).

(** One step of dispatch [t] for the fingerprint [key]; [None] when the
    dispatch cannot move. *)
Definition step (key : string) (t : nat) (s : State) : option State :=
  p ← threads s !! t;
  match p with
  | GetRead =>
      match condMap (store s) !! key with
      | Some cond => Some (goto t (Lock1 cond) s)
      | None => Some (goto t GetWrite s)
      end
  | GetWrite =>
      let cond := length (conds (store s)) in
      Some (goto t (Lock1 cond)
              (with_store {| condMap := <[key := cond]> (condMap (store s));
                             conds := conds (store s) ++ [newReqCond] |} s))
  | Lock1 cond => acquire t cond (Wait1 cond) s
  | Wait1 cond =>
      if ready (cond_at s cond) then Some (goto t (Unlock1 cond) s)
      else Some (goto t (Asleep1 cond) (set_locked cond false s))
  | Asleep1 _ => None
  | Woken1 cond => acquire t cond (Wait1 cond) s
  | Unlock1 cond => Some (goto t (Cache1 cond) (set_locked cond false s))
  | Cache1 cond =>
      if cached s then Some (goto t Finished s) else Some (goto t (Lock2 cond) s)
  | Lock2 cond => acquire t cond (Wait2 cond) s
  | Wait2 cond =>
      if ready (cond_at s cond) then Some (goto t (Take cond) s)
      else Some (goto t (Asleep2 cond) (set_locked cond false s))
  | Asleep2 _ => None
  | Woken2 cond => acquire t cond (Wait2 cond) s
  | Take cond => Some (goto t (Cache2 cond) (set_flag cond false s))
  | Cache2 cond =>
      if cached s then Some (goto t (Release cond) s)
      else Some (goto t (Resolving cond)
                   {| store := store s; cached := cached s;
                      upstream := S (upstream s); threads := threads s |})
  | Resolving cond =>
      Some (goto t (Release cond)
              {| store := store s; cached := true;
                 upstream := upstream s; threads := threads s |})
  | Release cond =>
      let s1 := set_flag cond true s in
      let s2 := {| store := store s1; cached := cached s1; upstream := upstream s1;
                   threads := signal cond (threads s1) |} in
      Some (goto t Finished (set_locked cond false s2))
  | Finished => None
  end.

(** A schedule names the dispatch that moves next. *)
Fixpoint run (key : string) (schedule : list nat) (s : State) : option State :=
  match schedule with
  | [] => Some s
  | t :: rest => s' ← step key t s; run key rest s'
  end.

Definition resolving (p : pc) : bool :=
  match p with Resolving _ => true | _ => false end.

(** The upstream resolutions in flight. *)
Definition inFlight (s : State) : nat := length (filter (fun p => resolving p = true) (threads s)).

(** The record a dispatch works on, once it has one. *)
Definition cond_of (p : pc) : option nat :=
  match p with
  | GetRead | GetWrite | Finished => None
  | Lock1 c | Wait1 c | Asleep1 c | Woken1 c | Unlock1 c | Cache1 c | Lock2 c
  | Wait2 c | Asleep2 c | Woken2 c | Take c | Cache2 c | Resolving c | Release c => Some c
  end.

(** The points at which a dispatch holds the mutex of its record. *)
Definition holds (p : pc) : bool :=
  match p with
  | Wait1 _ | Unlock1 _ | Wait2 _ | Take _ | Cache2 _ | Resolving _ | Release _ => true
  | _ => false
  end.

(** The points at which a dispatch has set [ready] to false. *)
Definition busy (p : pc) : bool :=
  match p with
  | Cache2 _ | Resolving _ | Release _ => true
  | _ => false
  end.

(** The points inside [Wait]. *)
Definition waiting (p : pc) : bool :=
  match p with
  | Asleep1 _ | Woken1 _ | Asleep2 _ | Woken2 _ => true
  | _ => false
  end.

Definition count (f : pc -> bool) (ts : list pc) : nat :=
  length (filter (fun p => f p = true) ts).

(** [n] dispatches about to start, the fingerprint having a free record
    already and no cached answer. *)
Definition warm (key : string) (n : nat) : State :=
  {| store := {| condMap := <[key := 0]> ∅; conds := [newReqCond] |};
     cached := false; upstream := 0; threads := replicate n GetRead |}.

(** What holds of every state when all dispatches use the one record
    [c0] of the fingerprint: nobody is in the write half of [get] or
    inside [Wait], the mutex is taken exactly when one dispatch holds
    it, [ready] is false exactly when that dispatch has taken the slot,
    and the resolutions started are the one in flight or the one that
    filled the cache. *)
Definition Inv (key : string) (c0 : nat) (s : State) : Prop :=
  condMap (store s) !! key = Some c0
  /\ c0 < length (conds (store s))
  /\ Forall (fun p => p <> GetWrite /\ waiting p = false
                      /\ forall c, cond_of p = Some c -> c = c0) (threads s)
  /\ count holds (threads s) = (if locked (cond_at s c0) then 1 else 0)
  /\ ready (cond_at s c0) = (count busy (threads s) =? 0)%nat
  /\ upstream s = count resolving (threads s) + (if cached s then 1 else 0)
  /\ (cached s = true -> count resolving (threads s) = 0).

End SingleFlight.

(* ===================================================================== *)
(** ** A concrete setting: collaborators, groups and requests to run on *)
(* ===================================================================== *)

Module Sample.
Import GoStrings GoNet Dns Common Cache Inbound.

(** Round-trip times of the literal scenario of the design notes:
    1.1.1.1 in 80 ms, 8.8.8.8 in 20 ms, 2.2.2.2 in 150 ms, nothing else
    answers. *)
Definition rtt (ip : string) (tcpPort : Z) : Z :=
  if String.eqb ip "1.1.1.1" then 80
  else if String.eqb ip "8.8.8.8" then 20
  else if String.eqb ip "2.2.2.2" then 150
  else (maxRtt + 1)%Z.

Definition typeName (t : N) : string :=
  if (t =? TypeA)%N then "A" else if (t =? TypeAAAA)%N then "AAAA" else "".

Definition has_subnet (m : Msg) : bool :=
  match first_subnet (Extra m) with Some _ => true | None => false end.

Definition addECS (m : Msg) (ecs : option EDNS0_SUBNET) : Msg :=
  match ecs with
  | Some e =>
      if has_subnet m then m
      else {| Id := Id m; Response := Response m; Opcode := Opcode m;
              RecursionDesired := RecursionDesired m;
              CheckingDisabled := CheckingDisabled m; Rcode := Rcode m;
              Questions := Questions m; Answer := Answer m; Ns := Ns m;
              Extra := Extra m ++ [RR_OPT zero_Header [Opt_SUBNET e]] |}
  | None => m
  end.

(** A response cache keyed by the fingerprint; nil and empty responses
    are not kept. *)
Definition cacheLookup (c : list (string * Msg)) (request : Msg) : option Msg :=
  match getCacheKey request with
  | Done key => snd <$> List.find (fun kv => String.eqb kv.1 key) c
  | _ => None
  end.

Definition cacheStore (c : list (string * Msg)) (request : Msg) (r : option Msg)
  : list (string * Msg) :=
  match getCacheKey request, r with
  | Done key, Some m => (key, m) :: c
  | _, _ => c
  end.

#[local] Instance env : Env := {|
  pingRtt := rtt;
  NewRR := fun record => Some (RR_Other zero_Header record);
  TypeToString := typeName;
  Match_nil := fun _ => None;
  SetDefaultECS := addECS;
  RemoveEDNSCookie := fun m => m;
  DNSCache := list (string * Msg);
  Cache_Get := cacheLookup;
  Cache_Set := cacheStore
|}.

Definition hdr (name : string) (t : N) : RR_Header :=
  {| Hdr_Name := name; Hdr_Rrtype := t; Hdr_Class := 1; Hdr_Ttl := 60; Hdr_Rdlength := 0 |}.

Definition rrA (name : string) (a b c d : byte) : RR :=
  RR_A {| A_Hdr := hdr name TypeA; A_A := [a; b; c; d] |}.

(** 2001:db8::1 *)
Definition v6doc : list byte :=
  [x20; x01; x0d; xb8; x00; x00; x00; x00; x00; x00; x00; x00; x00; x00; x00; x01].

Definition rrAAAA (name : string) (ip : list byte) : RR :=
  RR_AAAA {| AAAA_Hdr := hdr name TypeAAAA; AAAA_AAAA := ip |}.

Definition query (name : string) (t : N) : Msg :=
  {| Id := 7; Response := false; Opcode := OpcodeQuery; RecursionDesired := true;
     CheckingDisabled := false; Rcode := 0;
     Questions := [{| Q_Name := name; Q_Qtype := t; Q_Qclass := 1 |}];
     Answer := []; Ns := []; Extra := [] |}.

Definition withECS (m : Msg) (ip : list byte) (bits : N) : Msg :=
  addECS m (Some {| ECS_Code := 8; ECS_Family := 1; ECS_SourceNetmask := bits;
                    ECS_SourceScope := 0; ECS_Address := ip |}).

Definition answer (rrs : list RR) : Msg := set_Answer empty_Msg rrs.

(** A caller that answers every request with [rrs], and one that fails. *)
Definition answers (rrs : list RR) : Caller := fun _ => Some (answer rrs).
Definition silent : Caller := fun _ => None.

Definition suffixMatcher (suffix : string) : ABPlus := fun name =>
  (bool_decide (string_drop (String.length name - String.length suffix) name = suffix), true).

Definition group (name : string) (callers : list Caller) (m : option ABPlus) : Group :=
  {| Callers := callers; Matcher := m; IPSet := None; Concurrent := false;
     FastestV4 := false; TCPPingPort := 0; ECS := None; NoCookie := false;
     TestIPv6 := []; DisableIPv6 := false; Name := name |}.

Definition no6 (g : Group) : Group :=
  {| Callers := Callers g; Matcher := Matcher g; IPSet := IPSet g;
     Concurrent := Concurrent g; FastestV4 := FastestV4 g;
     TCPPingPort := TCPPingPort g; ECS := ECS g; NoCookie := NoCookie g;
     TestIPv6 := TestIPv6 g; DisableIPv6 := true; Name := Name g |}.

Definition fastest (g : Group) : Group :=
  {| Callers := Callers g; Matcher := Matcher g; IPSet := IPSet g;
     Concurrent := Concurrent g; FastestV4 := true;
     TCPPingPort := TCPPingPort g; ECS := ECS g; NoCookie := NoCookie g;
     TestIPv6 := TestIPv6 g; DisableIPv6 := DisableIPv6 g; Name := Name g |}.

Definition never : ABPlus := fun _ => (false, true).

(** The reference ranges: 101.0.0.0/8 for IPv4, 2400::/12 for IPv6. *)
Definition cnip : RamSet := NewRamSetByText "101.0.0.0/8".
Definition cnip6 : RamSet := NewRamSetByText "2400::/12".

Definition handlerOf (groups : gmap string Group) : Handler :=
  {| Mux := 0; Listen := ":53"; Network := "udp"; H_DisableIPv6 := false;
     H_Cache := Some ([] : list (string * Msg)); GFWMatcher := None;
     CNIP := Some cnip; CNIPv6 := Some cnip6; HostsReaders := Some [];
     Groups := Some groups; QueryLogger := Some "query"; DisableQTypes := None |}.

(** clean answers with an address inside the range, dirty with one
    outside; work is matched by rule; drop matches nothing. *)
Definition cleanG : Group := group "clean" [answers [rrA "cn.bing.com." x65 x20 x01 x01]] (Some never).
Definition dirtyG : Group := group "dirty" [answers [rrA "x." x08 x08 x08 x08]] (Some never).
Definition dropG : Group := group "drop" [] (Some (suffixMatcher "drop.me.")).
Definition workG : Group := group "work" [answers [rrA "w." x5d xb8 xd8 x22]] (Some (suffixMatcher "example.com.")).

Definition groups4 : gmap string Group :=
  <["clean" := cleanG]> (<["dirty" := dirtyG]> (<["drop" := dropG]> (<["work" := workG]> ∅))).

Definition handler4 : Handler := handlerOf groups4.

(** A group with IPv6 suppressed whose one caller answers with the
    AAAA record 2001:db8::1 after an A record. *)
Definition v6G : Group :=
  no6 (group "v6" [answers [rrA "m." x01 x01 x01 x01; rrAAAA "m." v6doc]] None).

(** The handler in service and a target of [Refresh] that carries other
    range sets. *)
Definition target4 : Handler :=
  {| Mux := 1; Listen := ":5353"; Network := "tcp"; H_DisableIPv6 := true;
     H_Cache := None; GFWMatcher := None;
     CNIP := Some cnip6; CNIPv6 := Some cnip; HostsReaders := None;
     Groups := None; QueryLogger := None; DisableQTypes := None |}.

(** A request with an empty question section. *)
Definition noQuestion : Msg :=
  {| Id := 9; Response := false; Opcode := OpcodeQuery; RecursionDesired := true;
     CheckingDisabled := false; Rcode := 0; Questions := []; Answer := [];
     Ns := []; Extra := [] |}.

(** A hosts reader that knows one name. *)
Definition hostsOf (name record : string) : Reader := fun hostname ipv6 =>
  if String.eqb hostname name && negb ipv6 then record else "".

(** A handler that [IsValid] accepts and that has no drop group. *)
Definition groups2 : gmap string Group := <["clean" := cleanG]> (<["dirty" := dirtyG]> ∅).
Definition handler2 : Handler := handlerOf groups2.

(** clean answers an AAAA query with 2001:db8::1, outside 2400::/12, and
    dirty with 2606:4700::6810:85e5. *)
Definition v6cf : list byte :=
  [x26; x06; x47; x00; x00; x00; x00; x00; x00; x00; x00; x00; x68; x10; x85; xe5].

Definition groups6 : gmap string Group :=
  <["clean" := group "clean" [answers [rrAAAA "foo.google.com." v6doc]] (Some never)]>
    (<["dirty" := group "dirty" [answers [rrAAAA "foo.google.com." v6cf]] (Some never)]>
       (<["drop" := dropG]> ∅)).

Definition handler6 : Handler := handlerOf groups6.

(** The addresses of the answers of a message, as text. *)
Definition addresses (m : Msg) : list string :=
  omap (fun rr => match rr with
                  | RR_A a => Some (IP_String (A_A a))
                  | RR_AAAA a => Some (IP_String (AAAA_AAAA a))
                  | _ => None
                  end) (Answer m).

(** The single-flight records after the first request of a key. *)
Definition storeOf (key : string) : CondStore :=
  {| condMap := <[key := 0]> ∅; conds := [newReqCond] |}.

(** The frame a dispatch of [handler4] starts from. *)
Definition frame0 : Frame :=
  {| fr_r := None; fr_group := None; fr_cache := H_Cache handler4;
     fr_store := emptyStore; fr_trace := [] |}.

(** The three answers of the latency scenario, one of them nil-free of
    A records, and a failed caller in between. *)
Definition channel3 : list (option Msg) :=
  [Some (answer [rrA "mixed.test." x01 x01 x01 x01; rrAAAA "mixed.test." v6doc]);
   None;
   Some (answer [rrA "mixed.test." x08 x08 x08 x08; rrA "mixed.test." x02 x02 x02 x02;
                 RR_Other (hdr "mixed.test." 16) "txt"])].

(** A dirty group that matches a suffix and whose callers all fail. *)
Definition deafDirtyG : Group :=
  group "dirty" [silent; silent] (Some (suffixMatcher "twimg.com.")).

Definition groupsDeaf : gmap string Group :=
  <["clean" := cleanG]> (<["dirty" := deafDirtyG]> (<["drop" := dropG]> ∅)).

Definition handlerDeaf : Handler := handlerOf groupsDeaf.

End Sample.

(* ===================================================================== *)
(** ** The properties in the words of the design notes *)
(* ===================================================================== *)

Module Props.
Import GoStrings GoNet Dns Common Cache Inbound.

(** A string that [ToLower] leaves as it is. *)
Definition lowered (s : string) : Prop := ToLower s = s.

(** The text of a client subnet: address/prefix-length. *)
Definition subnetText (e : EDNS0_SUBNET) : string :=
  IP_String (ECS_Address e) +:+ "/" +:+ FormatInt (ECS_SourceNetmask e).

(** The fingerprint as the data model states it: the lower case of
    Name || QType || "." || ECS-subnet, the ECS part left out when the
    request has no client subnet. *)
Definition fingerprint (q : Question) (ecs : option EDNS0_SUBNET) : string :=
  ToLower (Q_Name q +:+ FormatInt (Q_Qtype q)
           +:+ match ecs with Some e => "." +:+ subnetText e | None => "" end).

(** What may follow an octet in dotted text: the end, or a dot. *)
Definition octetEnd (r : string) : Prop := r = "" \/ exists r', r = String "."%char r'.

(** The address of a record as the dispatcher reads it: the text of the
    record, parsed back, in the 4-byte form for an A record and in the
    16-byte form for an AAAA record; nil when the record holds no such
    address. *)
Definition v4_of (a : A) : list byte := To4 (ParseIP (IP_String (A_A a))).
Definition v6_of (a : AAAA) : list byte := To16 (ParseIP (IP_String (AAAA_AAAA a))).

(** "An IP is in range iff it is v4 and in CNIP, or v6 and in CNIPv6":
    some address of the response [r] is out of range. *)
Definition someOutOfRange (r : option Msg) (cnip cnip6 : RamSet) : Prop :=
  (exists a, a ∈ ExtractA r /\ v4_of a <> [] /\ Contain cnip (v4_of a) = false)
  \/ (exists a, a ∈ ExtractAAAA r /\ v6_of a <> [] /\ Contain cnip6 (v6_of a) = false).

(** What the deferred reply writer leaves when the body panicked before
    it set [r] or [group]. *)
Definition emptyReplyTrace (request : Msg) : list Event :=
  [WriteMsgEv (SetReply empty_Msg request); CloseEv].

(** The first question and the client subnet of a request. *)
Definition ecsOf (r : Msg) : option EDNS0_SUBNET := first_subnet (Extra r).

Section WithEnv.
Context `{Env}.

(** The copy of the request a group hands to its callers: the default
    client subnet set, the cookie removed when the group says so. *)
Definition forwarded (g : Group) (request : Msg) : Msg :=
  let request := SetDefaultECS request (ECS g) in
  if NoCookie g then RemoveEDNSCookie request else request.

(** All callers of the group return nil for the request. *)
Definition allCallersNil (g : Group) (request : Msg) : Prop :=
  Forall (fun caller : Caller => caller (forwarded g request) = None) (Callers g).

(** The rule of the group under [ng] does not match the name: [Match]
    ends without a panic, and not with (true, true). *)
Definition unmatched (question : Question) (ng : string * Group) : Prop :=
  exists v, Match_ptr (Matcher ng.2) (Q_Name question) = Done v /\ matched v = false.

(** The rule pass over [groups] selects the group [g] under the key
    [name]: it is the first one in the order of iteration whose rule
    matches. *)
Definition selects (groups : list (string * Group)) (question : Question)
    (name : string) (g : Group) : Prop :=
  exists pre post v,
    groups = pre ++ (name, g) :: post
    /\ Forall (unmatched question) pre
    /\ Match_ptr (Matcher g) (Q_Name question) = Done v /\ matched v = true.

(** The record [cond] after a dispatch that found it free locked it,
    unlocked it, locked it again and took the slot. *)
Definition slotTaken (cond : nat) (store : CondStore) : CondStore :=
  update_cond cond (fun rc => {| locked := locked rc; ready := false |})
    (update_cond cond (fun rc => {| locked := true; ready := ready rc |})
       (update_cond cond (fun rc => {| locked := false; ready := ready rc |})
          (update_cond cond (fun rc => {| locked := true; ready := ready rc |}) store))).

(** The request gets as far as the rules: it has the question [q], no
    type filter answers it, the hosts miss, its single-flight record
    [cond] is free, and the cache [c] of the handler has no answer. *)
Definition reachesRules (handler : Handler) (request : Msg) (store : CondStore)
    (q : Question) (cond : nat) (store1 : CondStore) (c : DNSCache) : Prop :=
  (exists rest, Questions request = q :: rest)
  /\ H_DisableIPv6 handler && (Q_Qtype q =? TypeAAAA)%N = false
  /\ lookupFlag (DisableQTypes handler) (TypeToString (Q_Qtype q)) = false
  /\ HitHosts handler request = Done None
  /\ get store request = Done (cond, store1)
  /\ conds store1 !! cond = Some newReqCond
  /\ H_Cache handler = Some c
  /\ Cache_Get c request = None.

(** The frame of the dispatch at the rules. *)
Definition atRules (c : DNSCache) (cond : nat) (store1 : CondStore) : Frame :=
  {| fr_r := None; fr_group := None; fr_cache := Some c;
     fr_store := slotTaken cond store1; fr_trace := [] |}.

(** Lines 445-490: the drop rule, the rule pass, the default path. *)
Definition rules (sc : Sched) (handler : Handler) (request : Msg) (q : Question) : M unit :=
  dropRule handler q;;
  ruleLoop sc handler request q (groupOrder sc (map_to_list (default ∅ (Groups handler))));;
  defaultPath sc handler request.

(** How the dispatch ends once the part under the slot has ended: the
    slot is released, then the reply is written, unless the part
    blocked. *)
Definition finish (request : Msg) (cond : nat) (res : Frame * Flow unit) : Outcome :=
  match res with
  | (fr, Block) => {| exit := Blocked; final := fr |}
  | (fr, Panic) => {| exit := Panicked; final := writeReply request (release cond fr) |}
  | (fr, _) => {| exit := Returned; final := writeReply request (release cond fr) |}
  end.

(** The drop rule lets the name pass. *)
Definition notDropped (handler : Handler) (q : Question) : Prop :=
  exists g, lookupGroup handler "drop" = Some g /\ unmatched q ("drop", g).

(** Two frames that differ in the variable [group] at most. *)
Definition sameButGroup (fr1 fr2 : Frame) : Prop :=
  fr_r fr1 = fr_r fr2 /\ fr_cache fr1 = fr_cache fr2
  /\ fr_store fr1 = fr_store fr2 /\ fr_trace fr1 = fr_trace fr2.

End WithEnv.

End Props.

(* ===================================================================== *)
(** ** Texts of addresses and blocks *)
(* ===================================================================== *)

Module Lines.
Import GoStrings GoNet.

(** A string of bytes of the cutset of [NewRamSetByText] only. *)
Fixpoint blank (s : string) : bool :=
  match s with
  | EmptyString => true
  | String c rest => contains_byte blanks c && blank rest
  end.

(** A list as a Windows editor leaves it: an address and a carriage
    return on the first line, a block after a blank on the second. *)
Definition crlfList : string :=
  "1.2.3.4" +:+ String CR (String LF " 10.0.0.0/8").

End Lines.

(* ===================================================================== *)
(** ** The single-flight map and the hosts lookup, seen from outside *)
(* ===================================================================== *)

Module Records.
Import GoStrings GoNet Dns Common Cache Inbound.

(** Every key of the map points into the heap of records, and no two
    keys point to one record. *)
Definition sound (c : CondStore) : Prop :=
  (forall k i, condMap c !! k = Some i -> i < length (conds c))
  /\ (forall k1 k2 i, condMap c !! k1 = Some i -> condMap c !! k2 = Some i -> k1 = k2).

(** What one hosts reader gives for a name: the record of the name as
    it is, and when there is none the record of the name without its
    last byte. *)
Definition recordOf (reader : Reader) (hostname : string) (ipv6 : bool) : string :=
  if String.eqb (reader hostname ipv6) ""
  then reader (String.substring 0 (String.length hostname - 1) hostname) ipv6
  else reader hostname ipv6.

(** The records after the A and the AAAA query of twimg.com. *)
Definition twoRecords : CondStore :=
  {| condMap := <["twimg.com.28" := 1]> (<["twimg.com.1" := 0]> ∅);
     conds := [newReqCond; newReqCond] |}.

Section WithEnv.
Context `{Env}.

(** A reader misses: no record, or a record that [dns.NewRR] refuses. *)
Definition misses (hostname : string) (ipv6 : bool) (reader : Reader) : Prop :=
  recordOf reader hostname ipv6 = "" \/ NewRR (recordOf reader hostname ipv6) = None.

End WithEnv.

(** A handler with two hosts readers: one that knows another name, one
    that knows nas.lan, written without the root dot. *)
Definition hostsHandler : @Handler Sample.env :=
  {| Mux := 0; Listen := ":53"; Network := "udp"; H_DisableIPv6 := false;
     H_Cache := None; GFWMatcher := None; CNIP := None; CNIPv6 := None;
     HostsReaders := Some [Sample.hostsOf "other." "x";
                           Sample.hostsOf "nas.lan" "nas.lan 60 IN A 10.0.0.2"];
     Groups := None; QueryLogger := Some "query"; DisableQTypes := None |}.

End Records.

(* ===================================================================== *)
(** ** Dispatches of one fingerprint on the record it has: how far each is *)
(* ===================================================================== *)

Module Progress.
Import Inbound SingleFlight.

(** The operations on the shared state a dispatch has behind it. *)
Definition rank (p : pc) : nat :=
  match p with
  | GetRead | GetWrite => 0
  | Lock1 _ => 1
  | Wait1 _ | Asleep1 _ | Woken1 _ => 2
  | Unlock1 _ => 3
  | Cache1 _ => 4
  | Lock2 _ => 5
  | Wait2 _ | Asleep2 _ | Woken2 _ => 6
  | Take _ => 7
  | Cache2 _ => 8
  | Resolving _ => 9
  | Release _ => 10
  | Finished => 11
  end.

Definition total (ts : list pc) : nat := foldr (fun p n => rank p + n) 0 ts.

(** The points a dispatch reaches only with the answer in the cache. *)
Definition answered (p : pc) : bool :=
  match p with
  | Release _ | Finished => true
  | _ => false
  end.

(** Two dispatches on the record of twimg.com.1: the first resolves,
    the second waits for the mutex. *)
Definition oneResolving : State :=
  {| store := {| condMap := <["twimg.com.1" := 0]> ∅;
                 conds := [{| locked := true; ready := false |}] |};
     cached := false; upstream := 1; threads := [Resolving 0; Lock1 0] |}.

(** Both dispatches at their end. *)
Definition bothFinished : State :=
  {| store := {| condMap := <["twimg.com.1" := 0]> ∅;
                 conds := [{| locked := false; ready := true |}] |};
     cached := true; upstream := 1; threads := [Finished; Finished] |}.

End Progress.

(* ===================================================================== *)
(** ** What a piece of [ServeDNS] leaves alone *)
(* ===================================================================== *)

Module Quiet.
Import GoStrings GoNet Dns Common Cache Inbound.

Section WithEnv.
Context `{Env}.

(** From frame [a] to frame [b] no reply was written and the
    single-flight records were not touched. *)
Definition quiet (a b : Frame) : Prop :=
  fr_store b = fr_store a /\ replies (fr_trace b) = replies (fr_trace a).

(** A piece of the body that writes no reply and does not touch the
    single-flight records, however it ends. *)
Definition still {T : Type} (m : M T) : Prop := forall fr, quiet fr (m fr).1.

(** Lines 417-490 of [ServeDNS], from the first lock of the record
    [cond] to the end of the part under the slot. *)
Definition underRecord (sc : Sched) (handler : Handler) (request : Msg) (question : Question)
    (cond : nat) : M unit :=
  Lock cond;; WaitReady cond;; Unlock cond;;
  hit ← cacheGet request;
  if bool_decide (hit ≠ None) then LogQuery handler "hit cache" "";; return_
  else
    Lock cond;; WaitReady cond;; set_ready cond false;;
    with_defer (release cond) (resolve sc handler request question).

End WithEnv.

(** A handler in service whose cache holds the answer for the A query
    of cn.bing.com. *)
Definition cachedHandler : @Handler Sample.env :=
  @Build_Handler Sample.env 0 ":53" "udp" false
    (Some [("cn.bing.com.1", Sample.answer [Sample.rrA "cn.bing.com." x65 x20 x01 x01])])
    None (Some Sample.cnip) (Some Sample.cnip6) (Some []) (Some Sample.groups4)
    (Some "query") None.

(** The group [g] with the IP set [set]. *)
Definition withSet (set : string) (g : Group) : Group :=
  {| Callers := Callers g; Matcher := Matcher g; IPSet := Some set;
     Concurrent := Concurrent g; FastestV4 := FastestV4 g;
     TCPPingPort := TCPPingPort g; ECS := ECS g; NoCookie := NoCookie g;
     TestIPv6 := TestIPv6 g; DisableIPv6 := DisableIPv6 g; Name := Name g |}.

(** dirty has the IP set gfw, its rule matches twimg.com and its
    callers fail. *)
Definition groupsSet : gmap string Group :=
  <["clean" := Sample.cleanG]>
    (<["dirty" := withSet "gfw" Sample.deafDirtyG]> (<["drop" := Sample.dropG]> ∅)).

Definition handlerSet : @Handler Sample.env := Sample.handlerOf groupsSet.

End Quiet.

(* ===================================================================== *)
(** ** What a handler needs for a dispatch free of panics *)
(* ===================================================================== *)

Module Safety.
Import GoStrings GoNet Dns Common Cache Inbound.

Section WithEnv.
Context `{Env}.

(** A piece of the body that does not panic from a frame that has a
    cache, and leaves a cache in the frame. *)
Definition safe {T : Type} (m : M T) : Prop :=
  forall fr, fr_cache fr <> None -> (m fr).2 <> Panic /\ fr_cache (m fr).1 <> None.

(** A handler that [IsValid] accepts and that has, besides, all that
    [ServeDNS] reads through a pointer: a drop group, a matcher in every
    group, a cache, a query logger and both range sets. *)
Definition wellSet (handler : Handler) : Prop :=
  IsValid handler = true
  /\ lookupGroup handler "drop" <> None
  /\ (forall name g, lookupGroup handler name = Some g -> Matcher g <> None)
  /\ H_Cache handler <> None /\ QueryLogger handler <> None
  /\ CNIP handler <> None /\ CNIPv6 handler <> None.

End WithEnv.
End Safety.

(* ===================================================================== *)
(** ** [Group.PollIPv6]: the probe of IPv6 reachability, lines 232-285 *)
(* ===================================================================== *)

Module Poll.
Import GoStrings GoNet Dns Common Cache Inbound.

(** What a round of the loop does to the world outside, in order: a
    query sent to the callers of the group, an HTTP probe of an
    address, the log line of a change of policy, the sleep that ends
    the round (in seconds). *)
Inductive PollEvent :=
| QueryEv (domain : string)
| ProbeEv (ip domain : string)
| PolicyEv (name : string) (disable : bool)
| SleepEv (seconds : Z).

(** The variables of the loop: [count], [cache] and [sleepTime], the
    last in seconds. *)
Record PollState := {
  count : nat;
  cache : gmap string Msg;
  sleepTime : Z
}.

Definition start : PollState := {| count := 0; cache := ∅; sleepTime := 0 |}.

(** What a round finds outside: the scheduler, whether [testHttpConn]
    returns without an error for an address and a host (the same answer
    for the same address and host throughout the round), and the id
    [dns.Id()] gives the query. *)
Record World := {
  sched : Sched;
  testHttpConn : string -> string -> bool;
  msgId : N
}.

(** [msg.SetQuestion(name, t)] on a new message. *)
Definition SetQuestion (id : N) (name : string) (t : N) : Msg :=
  {| Id := id; Response := false; Opcode := 0; RecursionDesired := true;
     CheckingDisabled := false; Rcode := 0;
     Questions := [{| Q_Name := name; Q_Qtype := t; Q_Qclass := 1 |}];
     Answer := []; Ns := []; Extra := [] |}.

Definition setDisableIPv6 (g : Group) (b : bool) : Group :=
  {| Callers := Callers g; Matcher := Matcher g; IPSet := IPSet g;
     Concurrent := Concurrent g; FastestV4 := FastestV4 g;
     TCPPingPort := TCPPingPort g; ECS := ECS g; NoCookie := NoCookie g;
     TestIPv6 := TestIPv6 g; DisableIPv6 := b; Name := Name g |}.

Section WithEnv.
Context `{Env}.

(** Lines 253-264, the loop over [records.Answer]: every AAAA record
    puts [records] into the cache under the domain and has its address
    probed; the first probe that succeeds ends the loop with
    [disableIPv6] false. The result is the cache, [disableIPv6] and the
    events. *)
Fixpoint probeAnswers (w : World) (domain : string) (records : Msg) (answers : list RR)
    (cache : gmap string Msg) : gmap string Msg * bool * list PollEvent :=
  match answers with
  | [] => (cache, true, [])
  | RR_AAAA ans :: rest =>
      let cache := <[domain := records]> cache in
      let ip := IP_String (AAAA_AAAA ans) in
      if testHttpConn w ip domain then (cache, false, [ProbeEv ip domain])
      else
        let '(cache', disableIPv6, ev) := probeAnswers w domain records rest cache in
        (cache', disableIPv6, ProbeEv ip domain :: ev)
  | _ :: rest => probeAnswers w domain records rest cache
  end.

(** Lines 241-267, the loop over [group.TestIPv6]: the response is the
    cached one when there is one and [count] is not 0, and the result
    of [callDNS] otherwise; a nil response is passed over; the loop
    ends at the first domain with a probe that succeeds. *)
Fixpoint pollDomains (w : World) (group : Group) (count : nat) (domains : list string)
    (cache : gmap string Msg) : Result (gmap string Msg * bool * list PollEvent) :=
  match domains with
  | [] => Done (cache, true, [])
  | domain :: rest =>
      let msg := SetQuestion (msgId w) (domain +:+ ".") TypeAAAA in
      got ← match cache !! domain with
            | Some r =>
                if negb (count =? 0)%nat then Done (Some r, [])
                else records ← callDNS (sched w) group (Some msg);
                     Done (records, [QueryEv domain])
            | None =>
                records ← callDNS (sched w) group (Some msg);
                Done (records, [QueryEv domain])
            end;
      match got.1 with
      | None =>
          res ← pollDomains w group count rest cache;
          Done (res.1.1, res.1.2, got.2 ++ res.2)
      | Some records =>
          let '(cache', disableIPv6, ev) :=
            probeAnswers w domain records (Answer records) cache in
          if negb disableIPv6 then Done (cache', false, got.2 ++ ev)
          else
            res ← pollDomains w group count rest cache';
            Done (res.1.1, res.1.2, got.2 ++ ev ++ res.2)
      end
  end.

(** One round of the loop of line 238: the domains are probed, the
    policy of the group is set when it changes, [count] goes round
    modulo 10, and the sleep grows by five seconds as long as it is not
    above thirty. *)
Definition pollRound (w : World) (group : Group) (st : PollState)
  : Result (Group * PollState * list PollEvent) :=
  res ← pollDomains w group (count st) (TestIPv6 group) (cache st);
  let disableIPv6 := res.1.2 in
  let changed := negb (Bool.eqb disableIPv6 (DisableIPv6 group)) in
  let group' := if changed then setDisableIPv6 group disableIPv6 else group in
  let sleepTime' := if (sleepTime st <=? 30)%Z then (sleepTime st + 5)%Z else sleepTime st in
  Done (group',
        {| count := (count st + 1) mod 10; cache := res.1.1; sleepTime := sleepTime' |},
        res.2 ++ (if changed then [PolicyEv (Name group) disableIPv6] else [])
              ++ [SleepEv sleepTime']).

(** [rounds] rounds, the [k]-th in the world [world k]. *)
Fixpoint pollRounds (rounds : nat) (world : nat -> World) (k : nat) (group : Group)
    (st : PollState) : Result (Group * PollState * list PollEvent) :=
  match rounds with
  | O => Done (group, st, [])
  | S rounds' =>
      now ← pollRound (world k) group st;
      later ← pollRounds rounds' world (S k) now.1.1 now.1.2;
      Done (later.1.1, later.1.2, now.2 ++ later.2)
  end.

(** [group.PollIPv6()]: with no test domain it returns at once; with
    test domains its loop has no exit, and [PollIPv6 rounds] is where it
    stands after [rounds] rounds. *)
Definition PollIPv6 (rounds : nat) (world : nat -> World) (group : Group)
  : Result (Group * PollState * list PollEvent) :=
  if (length (TestIPv6 group) =? 0)%nat then Done (group, start, [])
  else pollRounds rounds world 0 group start.

(** The response a round reads for a domain, from the cache [cache] the
    round began with. *)
Definition readFor (w : World) (group : Group) (count : nat) (cache : gmap string Msg)
    (domain : string) : Result (option Msg) :=
  match cache !! domain with
  | Some r =>
      if negb (count =? 0)%nat then Done (Some r)
      else callDNS (sched w) group (Some (SetQuestion (msgId w) (domain +:+ ".") TypeAAAA))
  | None => callDNS (sched w) group (Some (SetQuestion (msgId w) (domain +:+ ".") TypeAAAA))
  end.

(** Some AAAA record of the response has an address the probe reaches. *)
Definition reachable (w : World) (domain : string) (records : Msg) : Prop :=
  exists ans, RR_AAAA ans ∈ Answer records
              /\ testHttpConn w (IP_String (AAAA_AAAA ans)) domain = true.

(** What holds of the cache [c] more during a round that began with the
    cache [c0]: it is read as [c0] is, it has what [c0] had, the same
    when [count] is not 0, and what it has more has an AAAA record. *)
Definition follows (w : World) (group : Group) (count : nat) (c0 c : gmap string Msg) : Prop :=
  (forall d, readFor w group count c d = readFor w group count c0 d)
  /\ (forall d r, c0 !! d = Some r -> count <> 0 -> c !! d = Some r)
  /\ (forall d, is_Some (c0 !! d) -> is_Some (c !! d))
  /\ (forall d r, c !! d = Some r ->
        c0 !! d = Some r \/ exists ans, RR_AAAA ans ∈ Answer r).

Definition sleeps (ev : list PollEvent) : list Z :=
  omap (fun e => match e with SleepEv s => Some s | _ => None end) ev.

Definition queries (ev : list PollEvent) : list string :=
  omap (fun e => match e with QueryEv d => Some d | _ => None end) ev.

End WithEnv.

(** A group that polls ipv6.test, whose caller answers with the AAAA
    record 2001:db8::1, and a world in which that address answers. *)
Definition pollG : Group :=
  {| Callers := [Sample.answers [Sample.rrAAAA "ipv6.test." Sample.v6doc]];
     Matcher := None; IPSet := None; Concurrent := false; FastestV4 := false;
     TCPPingPort := 0; ECS := None; NoCookie := false;
     TestIPv6 := ["ipv6.test"]; DisableIPv6 := true; Name := "clean" |}.

Definition online : World :=
  {| sched := in_order; testHttpConn := fun ip _ => String.eqb ip "2001:db8::1";
     msgId := 1 |}.

Definition offline : World :=
  {| sched := in_order; testHttpConn := fun _ _ => false; msgId := 1 |}.

End Poll.

(* ===================================================================== *)
(** * Theorems *)
(* ===================================================================== *)

Import GoStrings GoNet Dns Common Cache Inbound Props.

(** ** Strings: lower case and appending *)

Section StringFacts.

Lemma append_cons (c : ascii) (a b : string) : String c a +:+ b = String c (a +:+ b).
Proof. reflexivity. Qed.

Lemma ToLower_app (a b : string) : ToLower (a +:+ b) = ToLower a +:+ ToLower b.
Proof.
  induction a as [|c a IH]; [reflexivity|].
  rewrite append_cons. simpl ToLower. now rewrite IH, append_cons.
Qed.

Lemma append_nil_r (a : string) : a +:+ "" = a.
Proof. induction a as [|c a IH]; [reflexivity | now rewrite append_cons, IH]. Qed.

Lemma append_assoc (a b c : string) : (a +:+ b) +:+ c = a +:+ b +:+ c.
Proof. induction a as [|x a IH]; [reflexivity | now rewrite !append_cons, IH]. Qed.

Lemma append_inv_head (a b c : string) : a +:+ b = a +:+ c -> b = c.
Proof.
  induction a as [|x a IH]; [auto|].
  rewrite !append_cons. intros E. injection E. exact IH.
Qed.

Lemma lowered_app (a b : string) : lowered a -> lowered b -> lowered (a +:+ b).
Proof. unfold lowered; intros Ha Hb; now rewrite ToLower_app, Ha, Hb. Qed.

Lemma lowered_cons (c : ascii) (s : string) :
  lower_byte c = c -> lowered s -> lowered (String c s).
Proof. unfold lowered; simpl; intros -> ->; reflexivity. Qed.

Lemma lowered_concat_nil (l : list string) :
  Forall lowered l -> lowered (String.concat "" l).
Proof.
  induction 1 as [|s l Hs Hl IH]; [reflexivity|].
  destruct l as [|s' l']; [exact Hs|].
  change (String.concat "" (s :: s' :: l')) with (s +:+ "" +:+ String.concat "" (s' :: l')).
  apply lowered_app; [exact Hs|]. exact IH.
Qed.

Lemma lowered_uint (u : Decimal.uint) : lowered (DecimalString.NilEmpty.string_of_uint u).
Proof. induction u; simpl; try reflexivity; apply lowered_cons; auto. Qed.

Lemma lowered_FormatInt (n : N) : lowered (FormatInt n).
Proof.
  unfold FormatInt, DecimalString.NilZero.string_of_uint.
  destruct (N.to_uint n); try reflexivity; apply (lowered_uint (_ _)).
Qed.

Lemma hexDigit_lower (n : N) : lower_byte (hexDigit n) = hexDigit n.
Proof.
  unfold hexDigit. generalize (N.to_nat n) as k.
  do 17 (destruct k as [|k]; [reflexivity|]). reflexivity.
Qed.

Lemma lowered_hexString (p : list byte) : lowered (hexString p).
Proof.
  induction p as [|b p IH]; [reflexivity|].
  simpl. apply lowered_cons; [apply hexDigit_lower|].
  apply lowered_cons; [apply hexDigit_lower | exact IH].
Qed.

Lemma lowered_appendHex (i : N) : lowered (appendHex i).
Proof.
  unfold appendHex. destruct (i =? 0)%N; [reflexivity|].
  apply lowered_concat_nil. apply Forall_forall. intros s Hs.
  apply list_elem_of_In, in_map_iff in Hs. destruct Hs as (j & <- & _).
  cbv zeta. destruct (0 <? _)%N; [|reflexivity].
  apply lowered_cons; [apply hexDigit_lower | reflexivity].
Qed.

Lemma lowered_printGroups (fuel i : nat) (gs : list N) (e : option (nat * nat)) :
  lowered (printGroups fuel i gs e).
Proof.
  revert i. induction fuel as [|fuel IH]; intros i; [reflexivity|].
  cbn [printGroups]. destruct (8 <=? i)%nat; [reflexivity|].
  assert (Hstep : forall k, lowered ((if (0 <? i)%nat then ":" else "")
                   +:+ appendHex (nth k gs 0%N) +:+ printGroups fuel (S k) gs e)).
  { intros k. apply lowered_app; [destruct (0 <? i)%nat; reflexivity|].
    apply lowered_app; [apply lowered_appendHex | apply IH]. }
  destruct e as [[e0 e1]|]; [|apply Hstep].
  destruct (i =? e0)%nat; [|apply Hstep].
  apply (lowered_app "::"); [reflexivity|].
  destruct (8 <=? e1)%nat; [reflexivity|].
  apply lowered_app; [apply lowered_appendHex | apply IH].
Qed.

Lemma lowered_dotted (p : list byte) : lowered (dotted p).
Proof.
  unfold dotted.
  destruct p as [|a [|b [|c [|d [|? ?]]]]]; try reflexivity.
  repeat (apply lowered_app; [first [apply lowered_FormatInt | reflexivity]|]).
  apply lowered_FormatInt.
Qed.

(** The text of an address has no capital letter. *)
Lemma lowered_IP_String (ip : list byte) : lowered (IP_String ip).
Proof.
  unfold IP_String.
  destruct (length ip =? 0)%nat; [reflexivity|].
  destruct (length (To4 ip) =? IPv4len)%nat; [apply lowered_dotted|].
  destruct (negb _).
  - apply (lowered_app "?"); [reflexivity | apply lowered_hexString].
  - apply lowered_printGroups.
Qed.

Lemma lowered_FormatECS (r : Msg) : lowered (FormatECS r).
Proof.
  unfold FormatECS. destruct (first_subnet (Extra r)); [|reflexivity].
  apply lowered_app; [apply lowered_IP_String|].
  apply (lowered_app "/"); [reflexivity | apply lowered_FormatInt].
Qed.

Lemma append_slash_nonempty (a b : string) : String.eqb (a +:+ "/" +:+ b) "" = false.
Proof. destruct a; reflexivity. Qed.

End StringFacts.

(** ** The fingerprint *)

Section Fingerprint.

Lemma FormatECS_ecsOf (r : Msg) :
  FormatECS r = match ecsOf r with Some e => subnetText e | None => "" end.
Proof. reflexivity. Qed.

Lemma getCacheKey_fingerprint (r : Msg) (q : Question) (rest : list Question) :
  Questions r = q :: rest -> getCacheKey r = Done (fingerprint q (ecsOf r)).
Proof.
  intros Hq. unfold getCacheKey, fingerprint. rewrite Hq, FormatECS_ecsOf.
  destruct (ecsOf r) as [e|].
  - unfold subnetText. rewrite append_slash_nonempty. simpl negb. cbv iota.
    now rewrite append_assoc.
  - simpl. now rewrite append_nil_r.
Qed.

Lemma lowered_subnetText (e : EDNS0_SUBNET) : lowered (subnetText e).
Proof.
  unfold subnetText. apply lowered_app; [apply lowered_IP_String|].
  apply (lowered_app "/"); [reflexivity | apply lowered_FormatInt].
Qed.

(** With name and type fixed, the fingerprint tells the subnet. *)
Lemma fingerprint_inj_ecs (q : Question) (e1 e2 : option EDNS0_SUBNET) :
  fingerprint q e1 = fingerprint q e2 ->
  subnetText <$> e1 = subnetText <$> e2.
Proof.
  unfold fingerprint. rewrite !ToLower_app. intros E.
  do 2 apply append_inv_head in E.
  destruct e1 as [a|], e2 as [b|]; [| | |reflexivity].
  - rewrite !ToLower_app, !lowered_subnetText in E.
    apply append_inv_head in E. simpl. now rewrite E.
  - rewrite ToLower_app in E. discriminate E.
  - rewrite ToLower_app in E. discriminate E.
Qed.

Lemma fingerprint_case (q1 q2 : Question) (e : option EDNS0_SUBNET) :
  ToLower (Q_Name q1) = ToLower (Q_Name q2) -> Q_Qtype q1 = Q_Qtype q2 ->
  fingerprint q1 e = fingerprint q2 e.
Proof. unfold fingerprint. intros Hn Ht. now rewrite !ToLower_app, Hn, Ht. Qed.

(** C4. For a request with a question, the key of the cache and of the
    single-flight map is the lower case of Name followed by the decimal
    QType, followed by "." and the client subnet when the request
    carries one and by nothing otherwise; two requests with the same
    name and type and different subnets have different keys, and two
    requests whose names differ in case only have the same key. *)
Theorem getCacheKey_fingerprint_separation (r1 r2 : Msg) (q1 q2 : Question)
    (rest1 rest2 : list Question) :
  Questions r1 = q1 :: rest1 -> Questions r2 = q2 :: rest2 ->
  getCacheKey r1 = Done (fingerprint q1 (ecsOf r1))
  /\ fingerprint q1 (ecsOf r1)
     = ToLower (Q_Name q1 +:+ FormatInt (Q_Qtype q1)
                +:+ match ecsOf r1 with
                    | Some e => "." +:+ IP_String (ECS_Address e) +:+ "/"
                                    +:+ FormatInt (ECS_SourceNetmask e)
                    | None => ""
                    end)
  /\ (Q_Name q1 = Q_Name q2 -> Q_Qtype q1 = Q_Qtype q2 ->
      subnetText <$> ecsOf r1 <> subnetText <$> ecsOf r2 ->
      getCacheKey r1 <> getCacheKey r2)
  /\ (ToLower (Q_Name q1) = ToLower (Q_Name q2) -> Q_Qtype q1 = Q_Qtype q2 ->
      ecsOf r1 = ecsOf r2 ->
      getCacheKey r1 = getCacheKey r2).
Proof.
  intros H1 H2.
  rewrite (getCacheKey_fingerprint _ _ _ H1), (getCacheKey_fingerprint _ _ _ H2).
  split; [reflexivity|]. split; [reflexivity|]. split.
  - intros Hn Ht Hne E. apply Hne. injection E as E.
    apply (fingerprint_inj_ecs q1).
    rewrite E. unfold fingerprint. now rewrite Hn, Ht.
  - intros Hn Ht He. rewrite He. f_equal. now apply fingerprint_case.
Qed.

End Fingerprint.

(** ** IPv6 suppression in [CallDNS] *)

Section Suppression.
Context `{Env}.

Lemma clearAAAA_length (answers : list RR) : length (clearAAAA answers) = length answers.
Proof. induction answers as [|rr l IH]; [reflexivity|]. destruct rr; simpl; now rewrite IH. Qed.

Lemma clearAAAA_lookup (answers : list RR) (i : nat) (rr : RR) :
  answers !! i = Some rr ->
  clearAAAA answers !! i = Some (if is_AAAA rr then RR_AAAA new_AAAA else rr).
Proof.
  revert i. induction answers as [|x l IH]; intros i Hi; [discriminate|].
  destruct i as [|i].
  - injection Hi as ->. destruct rr; reflexivity.
  - simpl in Hi. destruct x; simpl; now apply IH.
Qed.

Lemma nil_address_text : IP_String (AAAA_AAAA new_AAAA) = "<nil>".
Proof. reflexivity. Qed.

(** C6, as the code has it. For every result of [callDNS] that is not
    nil, a group with [DisableIPv6] returns the same message with
    [new(dns.AAAA)] in the place of every AAAA answer: as many answers,
    in the same order, every other answer (an A record in particular)
    as it was. The record put in has a zero header and a nil address,
    whose text is "<nil>". *)
Theorem CallDNS_DisableIPv6_clears_AAAA (sc : Sched) (g : Group)
    (request : option Msg) (m : Msg) :
  DisableIPv6 g = true ->
  callDNS sc g request = Done (Some m) ->
  exists m' : Msg,
    CallDNS sc g request = Done (Some m')
    /\ m' = set_Answer m (Answer m')
    /\ length (Answer m') = length (Answer m)
    /\ (forall i rr, Answer m !! i = Some rr ->
          Answer m' !! i = Some (if is_AAAA rr then RR_AAAA new_AAAA else rr))
    /\ AAAA_Hdr new_AAAA = zero_Header
    /\ AAAA_AAAA new_AAAA = []
    /\ IP_String (AAAA_AAAA new_AAAA) = "<nil>".
Proof.
  intros Hd Hc. exists (set_Answer m (clearAAAA (Answer m))).
  unfold CallDNS. rewrite Hc. simpl. rewrite Hd.
  repeat split; auto using clearAAAA_length, clearAAAA_lookup.
Qed.

End Suppression.

(** C6 at a concrete group: the caller of [Sample.v6G] answers with
    1.1.1.1 and 2001:db8::1; with [DisableIPv6] the AAAA address of the
    reply reads "<nil>", which is not "::". *)
Lemma CallDNS_DisableIPv6_address_not_unspecified :
  exists m' : Msg,
    @CallDNS Sample.env in_order Sample.v6G (Some (Sample.query "m." TypeAAAA)) = Done (Some m')
    /\ map (fun rr => match rr with
                      | RR_A a => IP_String (A_A a)
                      | RR_AAAA a => IP_String (AAAA_AAAA a)
                      | _ => ""
                      end) (Answer m') = ["1.1.1.1"; "<nil>"]
    /\ String.eqb "<nil>" "::" = false
    /\ IP_String (replicate 16 x00) = "::".
Proof. eexists. repeat split. Qed.

(** The witness of C6: the theorem at [Sample.v6G]. *)
Lemma CallDNS_DisableIPv6_clears_AAAA_witness :
  exists m' : Msg,
    @CallDNS Sample.env in_order Sample.v6G (Some (Sample.query "m." TypeAAAA)) = Done (Some m')
    /\ length (Answer m') = 2.
Proof.
  destruct (@CallDNS_DisableIPv6_clears_AAAA Sample.env in_order Sample.v6G
              (Some (Sample.query "m." TypeAAAA))
              (Sample.answer [Sample.rrA "m." x01 x01 x01 x01;
                              Sample.rrAAAA "m." Sample.v6doc])
              eq_refl eq_refl) as (m' & Hc & _ & Hl & _).
  exists m'. split; [exact Hc | exact Hl].
Defined.

(** ** [Refresh] *)

Section RefreshFacts.
Context `{Env}.

(** What [Refresh] does to each field. *)
Lemma Refresh_fields (handler target : Handler) :
  Mux (Refresh handler target) = Mux handler
  /\ Listen (Refresh handler target) = Listen handler
  /\ Network (Refresh handler target) = Network handler
  /\ H_DisableIPv6 (Refresh handler target) = H_DisableIPv6 target
  /\ H_Cache (Refresh handler target) = orElse (H_Cache target) (H_Cache handler)
  /\ GFWMatcher (Refresh handler target) = orElse (GFWMatcher target) (GFWMatcher handler)
  /\ CNIP (Refresh handler target) = orElse (CNIP target) (CNIP handler)
  /\ HostsReaders (Refresh handler target) = orElse (HostsReaders target) (HostsReaders handler)
  /\ Groups (Refresh handler target) = orElse (Groups target) (Groups handler)
  /\ QueryLogger (Refresh handler target) = orElse (QueryLogger target) (QueryLogger handler)
  /\ DisableQTypes (Refresh handler target) = DisableQTypes handler.
Proof. repeat split. Qed.

Lemma orElse_replaces {T : Type} (new old : option T) :
  (new <> None -> orElse new old = new) /\ (new = None -> orElse new old = old).
Proof. destruct new; split; intros E; try reflexivity; congruence. Qed.

(** C7, where the code departs from it: the IPv6 range set of the
    handler stays whatever the target holds. *)
Theorem Refresh_never_replaces_CNIPv6 (handler target : Handler) :
  CNIPv6 (Refresh handler target) = CNIPv6 handler.
Proof. reflexivity. Qed.

End RefreshFacts.

(** C7 at a concrete input: the target has an IPv6 range set of its own,
    and after [Refresh] the handler still has its old one, while the
    IPv4 set was replaced. *)
Lemma Refresh_sample_keeps_old_CNIPv6 :
  CNIPv6 Sample.target4 = Some Sample.cnip
  /\ CNIPv6 (@Refresh Sample.env Sample.handler4 Sample.target4) = Some Sample.cnip6
  /\ CNIP (@Refresh Sample.env Sample.handler4 Sample.target4) = Some Sample.cnip6
  /\ subnet Sample.cnip6 <> subnet Sample.cnip.
Proof. repeat split. vm_compute. discriminate. Qed.

(** ** The RamSet *)

Section RamSetFacts.

(** [Contain] answers true exactly for an address whose text is a key
    of the index or that lies in one of the blocks. *)
Lemma Contain_spec (s : RamSet) (ip : list byte) :
  Contain s ip = true
  <-> is_Some (ipMap s !! IP_String ip)
      \/ exists n, n ∈ subnet s /\ IPNet_Contains n ip = true.
Proof.
  unfold Contain. destruct (ipMap s !! IP_String ip) as [b|] eqn:E.
  - split; [intros _; left; eauto | reflexivity].
  - rewrite existsb_exists. split.
    + intros (n & Hin & Hn). right. exists n. split; [now apply list_elem_of_In | exact Hn].
    + intros [[b Hb]|(n & Hin & Hn)]; [discriminate|].
      exists n. split; [now apply list_elem_of_In | exact Hn].
Qed.

Lemma add_line_ipMap (s : RamSet) (line : string) :
  ipMap (add_line s line) = <[IP_String (ParseIP (Trim line blanks)) := true]> (ipMap s).
Proof. unfold add_line. destruct (ParseCIDR _); reflexivity. Qed.

Lemma fold_add_line_keeps (lines : list string) (s : RamSet) (key : string) :
  ipMap s !! key = Some true -> ipMap (fold_left add_line lines s) !! key = Some true.
Proof.
  revert s. induction lines as [|l lines IH]; intros s Hs; [exact Hs|].
  simpl. apply IH. rewrite add_line_ipMap.
  destruct (decide (IP_String (ParseIP (Trim l blanks)) = key)) as [<-|Hne].
  - apply lookup_insert_eq.
  - now rewrite lookup_insert_ne.
Qed.

Lemma fold_add_line_bad_line (lines : list string) (s : RamSet) (line : string) :
  line ∈ lines -> ParseIP (Trim line blanks) = [] ->
  ipMap (fold_left add_line lines s) !! "<nil>" = Some true.
Proof.
  revert s. induction lines as [|l lines IH]; intros s Hin Hbad.
  - inversion Hin.
  - simpl. apply elem_of_cons in Hin as [->|Hin].
    + apply fold_add_line_keeps. rewrite add_line_ipMap, Hbad. apply lookup_insert_eq.
    + now apply IH.
Qed.

(** C8, where the code departs from it: a line that is no address
    (empty, blank, malformed, or a CIDR block) is not dropped from the
    exact-address index: it puts the key "<nil>" there, the text of the
    nil address, and [Contain] then answers true for the nil address. *)
Theorem NewRamSetByText_keeps_key_of_bad_line (text line : string) :
  line ∈ Split text LF -> ParseIP (Trim line blanks) = [] ->
  ipMap (NewRamSetByText text) !! "<nil>" = Some true
  /\ Contain (NewRamSetByText text) [] = true.
Proof.
  intros Hin Hbad.
  assert (Hk : ipMap (NewRamSetByText text) !! "<nil>" = Some true)
    by (eapply fold_add_line_bad_line; eauto).
  split; [exact Hk|]. unfold Contain.
  change (IP_String []) with "<nil>". now rewrite Hk.
Qed.

End RamSetFacts.

(** C8 at concrete inputs: the empty text, and a text of one address,
    one blank line and one block. *)
Lemma NewRamSetByText_empty_text :
  Split "" LF = [""]
  /\ map_to_list (ipMap (NewRamSetByText "")) = [("<nil>", true)]
  /\ subnet (NewRamSetByText "") = []
  /\ Contain (NewRamSetByText "") [] = true.
Proof. repeat split. Qed.

(** ** Panics of the dispatcher *)

Section Panics.
Context `{Env}.

Lemma bind_lift_Done {T U : Type} (v : T) (k : T -> M U) (fr : Frame) :
  (lift (Done v) ≫= k) fr = k v fr.
Proof. reflexivity. Qed.

Lemma bind_lift_Panics {T U : Type} (k : T -> M U) (fr : Frame) :
  (lift Panics ≫= k) fr = (fr, Panic).
Proof. reflexivity. Qed.

Lemma bind_Next {T U : Type} (m : M T) (k : T -> M U) (fr fr' : Frame) (v : T) :
  m fr = (fr', Next v) -> (m ≫= k) fr = k v fr'.
Proof. unfold mbind, M_bind. now intros ->. Qed.

Lemma bind_Panic {T U : Type} (m : M T) (k : T -> M U) (fr fr' : Frame) :
  m fr = (fr', Panic) -> (m ≫= k) fr = (fr', Panic).
Proof. unfold mbind, M_bind. now intros ->. Qed.

Lemma bind_Return {T U : Type} (m : M T) (k : T -> M U) (fr fr' : Frame) :
  m fr = (fr', Return) -> (m ≫= k) fr = (fr', Return).
Proof. unfold mbind, M_bind. now intros ->. Qed.

Lemma bind_Block {T U : Type} (m : M T) (k : T -> M U) (fr fr' : Frame) :
  m fr = (fr', Block) -> (m ≫= k) fr = (fr', Block).
Proof. unfold mbind, M_bind. now intros ->. Qed.

Lemma getCacheKey_no_question (request : Msg) :
  Questions request = [] -> getCacheKey request = Panics.
Proof. unfold getCacheKey. now intros ->. Qed.

Lemma HitHosts_no_question (handler : Handler) (request : Msg) :
  Questions request = [] -> HitHosts handler request = Panics.
Proof. unfold HitHosts. now intros ->. Qed.

Lemma HitHosts_empty_name (handler : Handler) (request : Msg) (q : Question)
    (rest : list Question) (reader : Reader) (readers : list Reader) :
  Questions request = q :: rest -> Q_Name q = "" ->
  (Q_Qtype q = TypeA \/ Q_Qtype q = TypeAAAA) ->
  HostsReaders handler = Some (reader :: readers) ->
  reader "" (Q_Qtype q =? TypeAAAA)%N = "" ->
  HitHosts handler request = Panics.
Proof.
  intros Hq Hn Ht Hr Hmiss. unfold HitHosts. rewrite Hq, Hr, Hn.
  assert ((Q_Qtype q =? TypeA)%N || (Q_Qtype q =? TypeAAAA)%N = true) as ->.
  { destruct Ht as [-> | ->]; reflexivity. }
  simpl. now rewrite Hmiss.
Qed.


End Panics.


(** ** The drop rule *)

Section DropRule.
Context `{Env}.

Lemma dropRule_without_group (handler : Handler) (question : Question) (fr : Frame) :
  lookupGroup handler "drop" = None -> dropRule handler question fr = (fr, Panic).
Proof. unfold dropRule. now intros ->. Qed.

(** The step of the drop rule ends in a panic exactly when there is no
    drop group, or when its matcher is nil and [Match] does not bear a
    nil receiver. *)
Lemma dropRule_panics_iff (handler : Handler) (question : Question) (fr : Frame) :
  (dropRule handler question fr).2 = Panic
  <-> lookupGroup handler "drop" = None
      \/ exists g, lookupGroup handler "drop" = Some g /\ Matcher g = None
                   /\ Match_nil (Q_Name question) = None.
Proof.
  unfold dropRule. destruct (lookupGroup handler "drop") as [g|]; simpl.
  - unfold Match_ptr. destruct (Matcher g) as [m|] eqn:Em; simpl.
    + unfold mbind, M_bind, lift. simpl. destruct (matched _); simpl.
      all: split; [discriminate | intros [?|(g' & [= <-] & ? & _)]; congruence].
    + destruct (Match_nil (Q_Name question)) as [v|] eqn:En.
      * unfold mbind, M_bind, lift. simpl. destruct (matched _); simpl.
        all: split; [discriminate | intros [?|(g' & _ & _ & ?)]; congruence].
      * split; [intros _; right; eauto | reflexivity].
  - split; [auto | reflexivity].
Qed.

Lemma cacheGet_miss (request : Msg) (fr : Frame) (c : DNSCache) :
  fr_cache fr = Some c -> Cache_Get c request = None ->
  cacheGet request fr = ((set_r None fr).1, Next None).
Proof. unfold cacheGet. intros -> E. rewrite E. reflexivity. Qed.

(** After the second cache miss the drop rule is the next step, and
    with no "drop" group it panics: nothing is called, logged or cached. *)
Lemma resolve_without_drop_group (sc : Sched) (handler : Handler)
    (request : Msg) (question : Question) (fr : Frame) (c : DNSCache) :
  fr_cache fr = Some c -> Cache_Get c request = None ->
  lookupGroup handler "drop" = None ->
  (resolve sc handler request question fr).2 = Panic
  /\ fr_trace (resolve sc handler request question fr).1 = fr_trace fr.
Proof.
  intros Hc Hmiss Hd. unfold resolve.
  rewrite (bind_Next _ _ _ _ _ (cacheGet_miss _ _ _ Hc Hmiss)).
  rewrite bool_decide_eq_false_2 by (intros E; now apply E).
  rewrite (bind_Panic _ _ _ _ (dropRule_without_group _ _ _ Hd)).
  split; reflexivity.
Qed.

End DropRule.

(** C10 at a concrete handler: [Sample.handler2] has clean and dirty
    and no drop group, [IsValid] accepts it, and its dispatch of a
    request that reaches the rule stage panics before any group is
    called. *)
Lemma ServeDNS_sample_without_drop_group :
  @IsValid Sample.env Sample.handler2 = true
  /\ exit (@ServeDNS Sample.env in_order Sample.handler2
             (Sample.query "cn.bing.com." TypeA) emptyStore) = Panicked
  /\ called (fr_trace (final (@ServeDNS Sample.env in_order Sample.handler2
                                (Sample.query "cn.bing.com." TypeA) emptyStore))) = [].
Proof. repeat split. Qed.

(** ** The text of an IPv4 address parses back to the address *)

Section DottedRoundTrip.

Lemma byte_of_to_N (b : byte) : byte_of_N (Byte.to_N b) = b.
Proof. destruct b; reflexivity. Qed.

Lemma substring_all (r : string) : String.substring 0 (String.length r) r = r.
Proof. induction r as [|c r IH]; [reflexivity|]. cbn. now rewrite IH. Qed.

Lemma string_drop_append (s r : string) : string_drop (String.length s) (s +:+ r) = r.
Proof.
  unfold string_drop. induction s as [|c s IH].
  - cbn. rewrite Nat.sub_0_r. apply substring_all.
  - rewrite append_cons. cbn. exact IH.
Qed.

Lemma string_drop_1 (c : ascii) (r : string) : string_drop 1 (String c r) = r.
Proof. apply (string_drop_append (String c "") r). Qed.

Lemma dtoi_octet (b : byte) (r : string) :
  octetEnd r ->
  dtoi (ubtoa b +:+ r) = (Byte.to_N b, String.length (ubtoa b), true)
  /\ starts_with "0"%char (ubtoa b +:+ r) && (1 <? String.length (ubtoa b))%nat = false
  /\ (String.length (ubtoa b +:+ r) =? 0)%nat = false
  /\ (255 <? Byte.to_N b)%N = false.
Proof. intros [-> | [r' ->]]; destruct b; repeat split. Qed.

Lemma parseIPv4_octet (k : nat) (first : bool) (b : byte) (r : string) (acc : list byte) :
  octetEnd r ->
  parseIPv4_from (S k) first ((if first then "" else ".") +:+ ubtoa b +:+ r) acc
  = parseIPv4_from k false r (acc ++ [b]).
Proof.
  intros Hr. destruct (dtoi_octet b r Hr) as (Hd & H0 & Hl & H255).
  cbn [parseIPv4_from].
  assert ((String.length ((if first then "" else ".") +:+ ubtoa b +:+ r) =? 0)%nat = false)
    as -> by (destruct first; [exact Hl | reflexivity]).
  assert ((if first then Some ((if first then "" else ".") +:+ ubtoa b +:+ r)
           else if starts_with "."%char ((if first then "" else ".") +:+ ubtoa b +:+ r)
                then Some (string_drop 1 ((if first then "" else ".") +:+ ubtoa b +:+ r))
                else None) = Some (ubtoa b +:+ r)) as ->.
  { destruct first; [reflexivity|].
    change (starts_with "."%char ("." +:+ ubtoa b +:+ r)) with true. cbv iota.
    f_equal. apply string_drop_1. }
  rewrite Hd, H255, (andb_comm (1 <? _)%nat), H0. cbn [negb orb].
  now rewrite string_drop_append, byte_of_to_N.
Qed.

Lemma ParseIP_scan_octet (whole : string) (b : byte) (r : string) :
  ParseIP_scan whole (ubtoa b +:+ String "."%char r) = parseIPv4 whole.
Proof. destruct b; reflexivity. Qed.

Lemma parseIPv4_first (k : nat) (b : byte) (r : string) (acc : list byte) :
  octetEnd r ->
  parseIPv4_from (S k) true (ubtoa b +:+ r) acc = parseIPv4_from k false r (acc ++ [b]).
Proof. exact (parseIPv4_octet k true b r acc). Qed.

Lemma parseIPv4_next (k : nat) (b : byte) (r : string) (acc : list byte) :
  octetEnd r ->
  parseIPv4_from (S k) false (String "."%char (ubtoa b +:+ r)) acc
  = parseIPv4_from k false r (acc ++ [b]).
Proof. exact (parseIPv4_octet k false b r acc). Qed.

Lemma ParseIP_dotted (a b c d : byte) : ParseIP (dotted [a; b; c; d]) = IPv4 a b c d.
Proof.
  change (dotted [a; b; c; d])
    with (ubtoa a +:+ String "."%char
            (ubtoa b +:+ String "."%char (ubtoa c +:+ String "."%char (ubtoa d)))).
  unfold ParseIP. rewrite ParseIP_scan_octet. unfold parseIPv4.
  rewrite parseIPv4_first by (right; eauto).
  rewrite parseIPv4_next by (right; eauto).
  rewrite parseIPv4_next by (right; eauto).
  rewrite <- (append_nil_r (ubtoa d)).
  rewrite parseIPv4_next by (now left).
  reflexivity.
Qed.

Lemma To4_IPv4 (a b c d : byte) : To4 (IPv4 a b c d) = [a; b; c; d].
Proof. reflexivity. Qed.

(** An A record with a four-byte address is read as that address, and
    so is one that holds the same address in the 16-byte form. *)
Lemma v4_of_IPv4 (hdr : RR_Header) (a b c d : byte) :
  v4_of {| A_Hdr := hdr; A_A := [a; b; c; d] |} = [a; b; c; d]
  /\ v4_of {| A_Hdr := hdr; A_A := IPv4 a b c d |} = [a; b; c; d].
Proof.
  unfold v4_of. cbn [A_A].
  assert (E1 : IP_String [a; b; c; d] = dotted [a; b; c; d]) by reflexivity.
  assert (E2 : IP_String (IPv4 a b c d) = dotted [a; b; c; d]) by reflexivity.
  now rewrite E1, E2, ParseIP_dotted, To4_IPv4.
Qed.

(** An AAAA record that holds an IPv4 address is read in the 16-byte
    form; a record without an address is passed over by both loops. *)
Lemma v6_of_IPv4 (hdr : RR_Header) (a b c d : byte) :
  v6_of {| AAAA_Hdr := hdr; AAAA_AAAA := IPv4 a b c d |} = IPv4 a b c d.
Proof.
  unfold v6_of. cbn [AAAA_AAAA].
  assert (E : IP_String (IPv4 a b c d) = dotted [a; b; c; d]) by reflexivity.
  now rewrite E, ParseIP_dotted.
Qed.

Lemma nil_address_skipped (h4 h6 : RR_Header) :
  v4_of {| A_Hdr := h4; A_A := [] |} = []
  /\ v6_of {| AAAA_Hdr := h6; AAAA_AAAA := [] |} = [].
Proof. split; reflexivity. Qed.

End DottedRoundTrip.

(** ** The range test and the default path *)

Section RangeGate.
Context `{Env}.

Lemma isNil_false (ip : list byte) : isNil ip = false <-> ip <> [].
Proof. destruct ip; simpl; split; intros E; first [discriminate | done]. Qed.

Lemma allInRange_A_spec (l : list A) (s : RamSet) :
  exists b, allInRange_A l (Some s) = Done b
    /\ (b = false <-> exists a, a ∈ l /\ v4_of a <> [] /\ Contain s (v4_of a) = false).
Proof.
  induction l as [|a l (b & Hb & IH)].
  - exists true. split; [reflexivity|]. split; [discriminate|].
    intros (a & Ha & _). inversion Ha.
  - simpl. fold (v4_of a). destruct (isNil (v4_of a)) eqn:En.
    + exists b. split; [exact Hb|]. rewrite IH. split.
      * intros (x & Hx & Hr). exists x. split; [now right | exact Hr].
      * intros (x & Hx & Hn & Hc). apply elem_of_cons in Hx as [->|Hx]; [|eauto].
        apply isNil_false in Hn. congruence.
    + simpl. destruct (Contain s (v4_of a)) eqn:Ec; simpl.
      * exists b. split; [exact Hb|]. rewrite IH. split.
        -- intros (x & Hx & Hr). exists x. split; [now right | exact Hr].
        -- intros (x & Hx & Hn & Hc). apply elem_of_cons in Hx as [->|Hx]; [|eauto].
           congruence.
      * exists false. split; [reflexivity|]. split; [|reflexivity].
        intros _. exists a. split; [now left|]. split; [now apply isNil_false | exact Ec].
Qed.

Lemma allInRange_AAAA_spec (l : list AAAA) (s : RamSet) :
  exists b, allInRange_AAAA l (Some s) = Done b
    /\ (b = false <-> exists a, a ∈ l /\ v6_of a <> [] /\ Contain s (v6_of a) = false).
Proof.
  induction l as [|a l (b & Hb & IH)].
  - exists true. split; [reflexivity|]. split; [discriminate|].
    intros (a & Ha & _). inversion Ha.
  - simpl. fold (v6_of a). destruct (isNil (v6_of a)) eqn:En.
    + exists b. split; [exact Hb|]. rewrite IH. split.
      * intros (x & Hx & Hr). exists x. split; [now right | exact Hr].
      * intros (x & Hx & Hn & Hc). apply elem_of_cons in Hx as [->|Hx]; [|eauto].
        apply isNil_false in Hn. congruence.
    + simpl. destruct (Contain s (v6_of a)) eqn:Ec; simpl.
      * exists b. split; [exact Hb|]. rewrite IH. split.
        -- intros (x & Hx & Hr). exists x. split; [now right | exact Hr].
        -- intros (x & Hx & Hn & Hc). apply elem_of_cons in Hx as [->|Hx]; [|eauto].
           congruence.
      * exists false. split; [reflexivity|]. split; [|reflexivity].
        intros _. exists a. split; [now left|]. split; [now apply isNil_false | exact Ec].
Qed.

(** With both sets in place the range test ends, and it says false
    exactly when some address is out of range. *)
Lemma allInRange2_spec (r : option Msg) (s4 s6 : RamSet) :
  exists b, allInRange2 r (Some s4) (Some s6) = Done b
    /\ (b = false <-> someOutOfRange r s4 s6).
Proof.
  unfold allInRange2, someOutOfRange.
  destruct (allInRange_A_spec (ExtractA r) s4) as (b4 & -> & H4).
  destruct (allInRange_AAAA_spec (ExtractAAAA r) s6) as (b6 & H6e & H6).
  simpl. destruct b4; simpl.
  - exists b6. split; [exact H6e|]. rewrite H6. split; [auto|].
    intros [Hx|Hx]; [|exact Hx]. apply H4 in Hx. discriminate.
  - exists false. split; [reflexivity|]. split; [|reflexivity].
    intros _. left. now apply H4.
Qed.

(** The two-argument form of the sources is the three-argument form
    with one set in both places. *)
Lemma allInRange_one_set (r : option Msg) (s : option RamSet) :
  allInRange r s = allInRange2 r s s.
Proof. reflexivity. Qed.

Lemma called_app (t1 t2 : list Event) : called (t1 ++ t2) = called t1 ++ called t2.
Proof. apply omap_app. Qed.

Lemma cacheWrites_app (t1 t2 : list Event) :
  cacheWrites (t1 ++ t2) = cacheWrites t1 ++ cacheWrites t2.
Proof. apply omap_app. Qed.

(** The default path, from any frame: the range test says false exactly
    when some address of the response of clean is out of range, and
    dirty is called exactly then, after clean and once. *)
Lemma defaultPath_range_gate (sc : Sched) (handler : Handler)
    (request : Msg) (fr : Frame) (clean dirty : Group) (s4 s6 : RamSet)
    (r : option Msg) :
  lookupGroup handler "clean" = Some clean ->
  lookupGroup handler "dirty" = Some dirty ->
  CNIP handler = Some s4 -> CNIPv6 handler = Some s6 ->
  CallDNS sc clean (Some request) = Done r ->
  exists b : bool,
    allInRange2 r (CNIP handler) (CNIPv6 handler) = Done b
    /\ (b = false <-> someOutOfRange r s4 s6)
    /\ called (fr_trace (defaultPath sc handler request fr).1)
       = called (fr_trace fr) ++ "clean" :: (if b then [] else ["dirty"])
    /\ ("dirty" ∈ called (drop (length (fr_trace fr))
                            (fr_trace (defaultPath sc handler request fr).1))
        <-> someOutOfRange r s4 s6)
    /\ (ExtractA r = [] -> ExtractAAAA r = [] -> b = true).
Proof.
  intros Hclean Hdirty H4 H6 Hr.
  destruct (allInRange2_spec r s4 s6) as (b & Hb & Hout).
  exists b. rewrite H4, H6. split; [exact Hb|]. split; [exact Hout|].
  assert (Htr : exists ev, fr_trace (defaultPath sc handler request fr).1 = fr_trace fr ++ ev
                  /\ called ev = "clean" :: (if b then [] else ["dirty"])).
  { unfold defaultPath, callGroup, LogQuery, cacheSet.
    rewrite Hclean, Hdirty, H4, H6.
    unfold mbind, M_bind, mret, M_ret, lift, emit, set_r, set_group, get_frame,
      set_cache, panic_.
    cbn [fst snd fr_trace fr_r fr_cache fr_group fr_store]. rewrite Hr, Hb.
    cbn [fst snd fr_trace fr_r fr_cache fr_group fr_store].
    destruct b.
    - destruct (length (ExtractA r) + length (ExtractAAAA r) =? 0)%nat,
        (QueryLogger handler), (fr_cache fr);
        cbn [fst snd fr_trace fr_r fr_cache fr_group fr_store];
        rewrite <- ?app_assoc; eexists; (split; [reflexivity|]); reflexivity.
    - destruct (CallDNS sc dirty (Some request)) as [[rr|]| |],
        (QueryLogger handler), (fr_cache fr);
        cbn [fst snd fr_trace fr_r fr_cache fr_group fr_store];
        rewrite <- ?app_assoc; eexists; (split; [reflexivity|]); reflexivity. }
  destruct Htr as (ev & Htr & Hev). rewrite Htr. split; [|split].
  - now rewrite called_app, Hev.
  - rewrite drop_app_length, Hev, <- Hout. destruct b; split.
    + intros Hin. apply list_elem_of_singleton in Hin. discriminate.
    + discriminate.
    + reflexivity.
    + intros _. right. now left.
  - intros HA HAAAA. destruct b; [reflexivity|].
    assert (Ho : someOutOfRange r s4 s6) by now apply Hout.
    destruct Ho as [(a & Ha & _)|(a & Ha & _)].
    + rewrite HA in Ha. inversion Ha.
    + rewrite HAAAA in Ha. inversion Ha.
Qed.

End RangeGate.

(** ** Group calls that come back empty *)

Section NilCalls.
Context `{Env}.

Lemma callInTurn_all_nil (callers : list Caller) (request : Msg) :
  Forall (fun caller : Caller => caller request = None) callers ->
  callInTurn callers request = None.
Proof. induction 1 as [|c l Hc _ IH]; simpl; [reflexivity | now rewrite Hc]. Qed.

Lemma recvFirst_all_nil (ch : list (option Msg)) :
  Forall (fun m => m = None) ch -> recvFirst (length ch) ch = Done None.
Proof. induction 1 as [|m l -> _ IH]; simpl; [reflexivity | exact IH]. Qed.

Lemma lastNonNil_from (msgs : list (option Msg)) (res : option Msg) :
  Forall (fun m => m = None) msgs ->
  fold_left (fun res msg => match msg with Some m => Some m | None => res end) msgs res = res.
Proof. intros Hn. revert res. induction Hn as [|m l -> _ IH]; intros res; simpl; auto. Qed.

Lemma fastestA_all_nil (sc : Sched) (ch : list (option Msg)) (tcpPort : Z) :
  Forall (fun m => m = None) ch -> fastestA sc ch (length ch) tcpPort = Done None.
Proof.
  intros Hn. unfold fastestA. rewrite Nat.ltb_irrefl, firstn_all.
  unfold lastNonNil. rewrite (lastNonNil_from _ _ Hn).
  destruct (fold_left (probe tcpPort) _ _) as [aMap rttMap].
  destruct (fold_left pickLowest _ _) as [lowestRtt fastestIP]. reflexivity.
Qed.

(** When every caller of a group returns nil, so does the group. *)
Lemma CallDNS_all_nil (sc : Sched) (g : Group) (request : Msg) :
  fair sc -> allCallersNil g request -> CallDNS sc g (Some request) = Done None.
Proof.
  intros (Harr & _) Hnil. unfold CallDNS, callDNS. fold (forwarded g request).
  destruct (length (Callers g) =? 0)%nat; [reflexivity|].
  set (results := map (fun caller : Caller => caller (forwarded g request)) (Callers g)).
  assert (Hres : Forall (fun m => m = None) (arrive sc results)).
  { rewrite (Harr results). subst results. apply Forall_fmap.
    eapply Forall_impl; [exact Hnil | auto]. }
  assert (Hlen : length (Callers g) = length (arrive sc results)).
  { rewrite (Harr results). subst results. now rewrite length_map. }
  destruct (Concurrent g || FastestV4 g).
  - rewrite Hlen. destruct (Concurrent g && negb (FastestV4 g)).
    + now rewrite recvFirst_all_nil.
    + now rewrite fastestA_all_nil.
  - simpl. unfold allCallersNil in Hnil. now rewrite callInTurn_all_nil.
Qed.

End NilCalls.

(** ** The rule pass *)

Section RulePass.
Context `{Env}.

Lemma sameButGroup_refl (fr : Frame) : sameButGroup fr fr.
Proof. repeat split. Qed.

(** The groups whose rule does not match are passed over; only the
    variable [group] changes. *)
Lemma ruleLoop_skip (sc : Sched) (handler : Handler) (request : Msg)
    (question : Question) (pre rest : list (string * Group)) (fr : Frame) :
  Forall (unmatched question) pre ->
  exists fr0, sameButGroup fr0 fr
    /\ ruleLoop sc handler request question (pre ++ rest) fr
       = ruleLoop sc handler request question rest fr0.
Proof.
  intros Hpre. revert fr. induction Hpre as [|[name g] pre (v & Hv & Hm) _ IH]; intros fr.
  - exists fr. split; [apply sameButGroup_refl | reflexivity].
  - destruct (IH (set_group (Some g) fr).1) as (fr0 & Hsame & Heq).
    exists fr0. split; [exact Hsame|].
    rewrite <- Heq. simpl in Hv. cbn [app ruleLoop].
    unfold mbind at 1, M_bind at 1. cbn [set_group].
    unfold mbind at 1, M_bind at 1. rewrite Hv. cbn [lift]. now rewrite Hm.
Qed.

(** The rule pass at the group it selects, from any frame. With the key
    "dirty" and no answer from its callers the group under "clean" is
    called and nothing is cached; in every other case the result of the
    selected group is cached. *)
Lemma ruleLoop_selected (sc : Sched) (handler : Handler)
    (request : Msg) (question : Question) (groups : list (string * Group))
    (fr : Frame) (name logger : string) (g : Group) :
  fair sc -> QueryLogger handler = Some logger ->
  selects groups question name g ->
  (name = "dirty" -> allCallersNil g request ->
   forall (clean : Group) (r' : option Msg),
     lookupGroup handler "clean" = Some clean ->
     CallDNS sc clean (Some request) = Done r' ->
     (ruleLoop sc handler request question groups fr).2 = Return
     /\ fr_r (ruleLoop sc handler request question groups fr).1 = r'
     /\ fr_cache (ruleLoop sc handler request question groups fr).1 = fr_cache fr
     /\ fr_trace (ruleLoop sc handler request question groups fr).1
        = fr_trace fr ++ [LogQueryEv "match by rules" "dirty"; CallDNSEv "dirty";
                          CallDNSEv "clean"])
  /\ (forall (r : option Msg) (c : DNSCache),
        CallDNS sc g (Some request) = Done r ->
        name <> "dirty" \/ r <> None ->
        fr_cache fr = Some c ->
        (ruleLoop sc handler request question groups fr).2 = Return
        /\ fr_r (ruleLoop sc handler request question groups fr).1 = r
        /\ fr_cache (ruleLoop sc handler request question groups fr).1
           = Some (Cache_Set c request r)
        /\ fr_trace (ruleLoop sc handler request question groups fr).1
           = fr_trace fr ++ [LogQueryEv "match by rules" name; CallDNSEv name;
                             CacheSetEv request r]).
Proof.
  intros Hfair Hlog (pre & post & v & -> & Hpre & Hv & Hm).
  destruct (ruleLoop_skip sc handler request question pre ((name, g) :: post) fr Hpre)
    as (fr0 & (Hr0 & Hc0 & Hs0 & Ht0) & ->).
  rewrite <- Ht0, <- Hc0. clear Hr0 Hs0 Ht0 Hc0 Hpre pre fr.
  split.
  - intros -> Hnil clean r' Hclean Hr'.
    pose proof (CallDNS_all_nil sc g request Hfair Hnil) as Hr.
    cbn [ruleLoop]. unfold callGroup, LogQuery, cacheSet.
    rewrite Hlog, Hclean.
    unfold mbind, M_bind, mret, M_ret, lift, emit, set_r, set_group, return_.
    cbn [fst snd fr_trace fr_r fr_cache fr_group fr_store]. rewrite Hv, Hm.
    cbn [fst snd fr_trace fr_r fr_cache fr_group fr_store]. rewrite Hr.
    cbn [fst snd fr_trace fr_r fr_cache fr_group fr_store String.eqb Ascii.eqb
         Bool.eqb andb].
    rewrite bool_decide_eq_true_2 by reflexivity. rewrite Hr'.
    cbn [fst snd fr_trace fr_r fr_cache fr_group fr_store].
    rewrite <- !app_assoc. repeat split; reflexivity.
  - intros r c Hr Hcase Hc.
    cbn [ruleLoop]. unfold callGroup, LogQuery, cacheSet.
    rewrite Hlog.
    unfold mbind, M_bind, mret, M_ret, lift, emit, set_r, set_group, set_cache, return_.
    cbn [fst snd fr_trace fr_r fr_cache fr_group fr_store]. rewrite Hv, Hm.
    cbn [fst snd fr_trace fr_r fr_cache fr_group fr_store]. rewrite Hr.
    cbn [fst snd fr_trace fr_r fr_cache fr_group fr_store].
    assert (String.eqb name "dirty" && bool_decide (r = None) = false) as ->.
    { destruct Hcase as [Hn|Hn].
      - apply String.eqb_neq in Hn. now rewrite Hn.
      - rewrite (bool_decide_eq_false_2 _ Hn). apply andb_false_r. }
    rewrite Hc. cbn [fst snd fr_trace fr_r fr_cache fr_group fr_store].
    rewrite <- !app_assoc. repeat split; reflexivity.
Qed.

End RulePass.

(** ** The fastest-address selector *)

Section Fastest.
Context `{Env}.

Lemma lastNonNil_app_Some (pre post : list (option Msg)) (m : Msg) :
  Forall (fun x => x = None) post -> lastNonNil (pre ++ Some m :: post) = Some m.
Proof.
  intros Hpost. unfold lastNonNil. rewrite fold_left_app. simpl.
  now apply lastNonNil_from.
Qed.

Lemma lastNonNil_None (msgs : list (option Msg)) :
  lastNonNil msgs = None <-> Forall (fun x => x = None) msgs.
Proof.
  split.
  - induction msgs as [|x l IH] using rev_ind; [constructor|].
    unfold lastNonNil. rewrite fold_left_app. simpl. destruct x as [m|]; [discriminate|].
    intros E. apply Forall_app. split; [now apply IH | now constructor].
  - intros Hn. unfold lastNonNil. now apply lastNonNil_from.
Qed.

(** The probe goroutines, whatever their order: [rttMap] holds the
    round-trip time of every address of [aMap], and [aMap] holds, for
    every address met, one of the A records met with it. *)
Lemma probe_fold (tcpPort : Z) (tasks : list (string * A))
    (st : gmap string A * gmap string Z) :
  (forall k, st.2 !! k = (fun _ => pingRtt k tcpPort) <$> st.1 !! k) ->
  (forall k, (fold_left (probe tcpPort) tasks st).2 !! k
             = (fun _ => pingRtt k tcpPort) <$> (fold_left (probe tcpPort) tasks st).1 !! k)
  /\ (forall k a, (fold_left (probe tcpPort) tasks st).1 !! k = Some a ->
                  st.1 !! k = Some a \/ (k, a) ∈ tasks)
  /\ (forall k, is_Some (st.1 !! k) \/ (exists a, (k, a) ∈ tasks) ->
                is_Some ((fold_left (probe tcpPort) tasks st).1 !! k)).
Proof.
  revert st. induction tasks as [|[k0 a0] tasks IH]; intros st Hst.
  - simpl. split; [exact Hst|]. split; [auto|].
    intros k [Hk|(a & Ha)]; [exact Hk | inversion Ha].
  - simpl fold_left.
    assert (Hst' : forall k, (probe tcpPort st (k0, a0)).2 !! k
                     = (fun _ => pingRtt k tcpPort) <$> (probe tcpPort st (k0, a0)).1 !! k).
    { intros k. unfold probe. simpl. destruct (st.1 !! k0) eqn:E0; [apply Hst|].
      simpl. destruct (decide (k0 = k)) as [->|Hne].
      - now rewrite !lookup_insert_eq.
      - rewrite !lookup_insert_ne by exact Hne. apply Hst. }
    destruct (IH _ Hst') as (I1 & I2 & I3). split; [exact I1|]. split.
    + intros k a Hk. destruct (I2 k a Hk) as [Hp|Hin]; [|right; now right].
      unfold probe in Hp. simpl in Hp. destruct (st.1 !! k0) eqn:E0; [now left|].
      simpl in Hp. destruct (decide (k0 = k)) as [->|Hne].
      * rewrite lookup_insert_eq in Hp. injection Hp as ->. right. now left.
      * rewrite lookup_insert_ne in Hp by exact Hne. now left.
    + intros k Hk. apply I3.
      assert (Hhead : is_Some ((probe tcpPort st (k0, a0)).1 !! k0)).
      { unfold probe. simpl. destruct (st.1 !! k0) eqn:E0; [rewrite E0; eauto|].
        simpl. rewrite lookup_insert_eq. eauto. }
      destruct Hk as [Hk|(a & Ha)].
      * left. unfold probe. simpl. destruct (st.1 !! k0) eqn:E0; [exact Hk|].
        simpl. destruct (decide (k0 = k)) as [->|Hne];
          [rewrite lookup_insert_eq; eauto | now rewrite lookup_insert_ne].
      * apply elem_of_cons in Ha as [ [= -> ->] | Ha]; [now left | right; eauto].
Qed.

(** The loop over [rttMap] when one address is strictly the fastest and
    under the cap. *)
Lemma pickLowest_unique_min (l : list (string * Z)) (ip : string) (r0 : Z)
    (acc : Z * string) :
  (r0 < maxRtt)%Z ->
  (forall k v, (k, v) ∈ l -> k <> ip -> (r0 < v)%Z) ->
  (forall v, (ip, v) ∈ l -> v = r0) ->
  ((ip, r0) ∈ l /\ (r0 < acc.1)%Z) \/ acc = (r0, ip) ->
  fold_left pickLowest l acc = (r0, ip).
Proof.
  intros Hcap. revert acc. induction l as [|[k v] l IH]; intros acc Hoth Hip Hacc.
  - destruct Hacc as [[Hin _] | ->]; [inversion Hin | reflexivity].
  - simpl. apply IH.
    + intros k' v' Hin. apply Hoth. now right.
    + intros v' Hin. apply Hip. now right.
    + unfold pickLowest. simpl.
      destruct (decide (k = ip)) as [->|Hne].
      * assert (v = r0) as -> by (apply Hip; now left).
        rewrite (bool_decide_eq_true_2 _ Hcap). simpl.
        destruct Hacc as [[_ Hlt] | ->].
        -- rewrite (bool_decide_eq_true_2 _ Hlt). now right.
        -- simpl. rewrite bool_decide_eq_false_2 by lia. now right.
      * assert (Hv : (r0 < v)%Z) by (apply (Hoth k v); [now left | exact Hne]).
        destruct Hacc as [[Hin Hlt] | ->].
        -- left. split.
           ++ apply elem_of_cons in Hin as [ [= <- <-] | Hin]; [congruence | exact Hin].
           ++ destruct (bool_decide (v < maxRtt)%Z && bool_decide (v < acc.1)%Z);
                simpl; lia.
        -- right. simpl. rewrite (bool_decide_eq_false_2 (v < r0)%Z) by lia.
           now rewrite andb_false_r.
Qed.

(** The loop over [rttMap] when no address is under the cap. *)
Lemma pickLowest_none (l : list (string * Z)) (acc : Z * string) :
  (forall k v, (k, v) ∈ l -> (maxRtt <= v)%Z) -> fold_left pickLowest l acc = acc.
Proof.
  revert acc. induction l as [|[k v] l IH]; intros acc Hall; [reflexivity|].
  simpl. unfold pickLowest at 2. simpl.
  rewrite (bool_decide_eq_false_2 (v < maxRtt)%Z)
    by (specialize (Hall k v ltac:(now left)); lia).
  simpl. apply IH. intros k' v' Hin. apply (Hall k' v'). now right.
Qed.

Lemma concat_last_nonempty (l : list string) (c : ascii) :
  String.concat "" (l ++ [String c ""]) <> "".
Proof.
  induction l as [|s l IH]; [discriminate|].
  simpl app. destruct (l ++ [String c ""]) as [|s' l'] eqn:E.
  - now destruct l.
  - change (String.concat "" (s :: s' :: l')) with (s +:+ "" +:+ String.concat "" (s' :: l')).
    destruct s; [exact IH | discriminate].
Qed.

Lemma appendHex_nonempty (i : N) : appendHex i <> "".
Proof.
  unfold appendHex. destruct (i =? 0)%N eqn:E; [discriminate|].
  apply N.eqb_neq in E.
  change [7; 6; 5; 4; 3; 2; 1; 0]%N with ([7; 6; 5; 4; 3; 2; 1] ++ [0])%N.
  rewrite map_app. cbn [map]. change (0 * 4)%N with 0%N. rewrite N.shiftr_0_r.
  assert ((0 <? i)%N = true) as -> by (apply N.ltb_lt; lia).
  apply concat_last_nonempty.
Qed.

Lemma append_nonempty_l (a b : string) : a <> "" -> a +:+ b <> "".
Proof. destruct a; [congruence | discriminate]. Qed.

Lemma append_nonempty_r (a b : string) : b <> "" -> a +:+ b <> "".
Proof. destruct a; [auto | discriminate]. Qed.

(** The text of an address is never empty, so an address that was
    chosen is told from the initial [fastestIP]. *)
Lemma IP_String_nonempty (ip : list byte) : IP_String ip <> "".
Proof.
  unfold IP_String.
  destruct (length ip =? 0)%nat; [discriminate|].
  destruct (length (To4 ip) =? IPv4len)%nat eqn:E4.
  - apply Nat.eqb_eq in E4. unfold dotted.
    destruct (To4 ip) as [|a [|b [|c [|d [|? ?]]]]]; try discriminate.
    apply append_nonempty_r. discriminate.
  - destruct (negb _); [discriminate|].
    unfold string6. cbn [printGroups]. cbn [Nat.leb].
    destruct (if (run_len _ <=? 1)%nat then None else _) as [[e0 e1]|].
    + destruct (0 =? e0)%nat; [discriminate|].
      apply append_nonempty_r, append_nonempty_l, appendHex_nonempty.
    + apply append_nonempty_r, append_nonempty_l, appendHex_nonempty.
Qed.

Lemma spawned_key (msgs : list (option Msg)) (k : string) (a : A) :
  (k, a) ∈ spawned msgs -> k = IP_String (A_A a).
Proof.
  unfold spawned. intros Hin. apply list_elem_of_In, in_flat_map in Hin.
  destruct Hin as (msg & _ & Hin). apply in_map_iff in Hin.
  destruct Hin as (a' & [= <- <-] & _). reflexivity.
Qed.

Lemma ExtractA_RemoveA (m : Msg) (a : A) :
  ExtractA (Some (set_Answer (RemoveA m) (Answer (RemoveA m) ++ [RR_A a]))) = [a].
Proof.
  unfold ExtractA, RemoveA. cbn [Answer set_Answer].
  rewrite omap_app. cbn [omap]. 
  induction (Answer m) as [|rr l IH]; [reflexivity|].
  rewrite filter_cons. destruct rr; simpl; auto.
Qed.

Lemma fastestA_shape (sc : Sched) (ch : list (option Msg)) (chLen : nat) (tcpPort : Z) :
  chLen <= length ch ->
  exists res, fastestA sc ch chLen tcpPort = Done res
    /\ (res = None <-> lastNonNil (take chLen ch) = None).
Proof.
  intros Hlen. unfold fastestA.
  rewrite (proj2 (Nat.ltb_ge _ _) Hlen).
  destruct (fold_left (probe tcpPort) _ _) as [aMap rttMap].
  destruct (fold_left pickLowest _ _) as [lowestRtt fastestIP].
  destruct (lastNonNil (take chLen ch)) as [m|]; [|exists None; now split].
  destruct (negb (String.eqb fastestIP "")); eexists; (split; [reflexivity|]);
    split; discriminate.
Qed.

(** The maps the probes leave, for a fair scheduler. *)
Lemma probes_result (sc : Sched) (msgs : list (option Msg)) (tcpPort : Z) :
  fair sc ->
  forall aMap rttMap,
    fold_left (probe tcpPort) (probes sc (spawned msgs)) (∅, ∅) = (aMap, rttMap) ->
    (forall k v, (k, v) ∈ rttOrder sc (map_to_list rttMap)
                 <-> is_Some (aMap !! k) /\ v = pingRtt k tcpPort)
    /\ (forall k a, aMap !! k = Some a -> (k, a) ∈ spawned msgs)
    /\ (forall k a, (k, a) ∈ spawned msgs -> is_Some (aMap !! k)).
Proof.
  intros (_ & Hprobes & Horder & _) aMap rttMap E.
  destruct (probe_fold tcpPort (probes sc (spawned msgs)) (∅, ∅)) as (I1 & I2 & I3).
  { intros k. simpl. now rewrite !lookup_empty. }
  rewrite E in I1, I2, I3. simpl in I1, I2, I3. split; [|split].
  - intros k v. rewrite (Horder (map_to_list rttMap)), elem_of_map_to_list, I1.
    destruct (aMap !! k); simpl; split.
    + intros [= <-]. split; [eauto | reflexivity].
    + intros [_ ->]. reflexivity.
    + discriminate.
    + intros [[? ?] _]. discriminate.
  - intros k a Hk. destruct (I2 k a Hk) as [Hp|Hin].
    + rewrite lookup_empty in Hp. discriminate.
    + now rewrite (Hprobes (spawned msgs)) in Hin.
  - intros k a Hin. apply I3. right. exists a. now rewrite (Hprobes (spawned msgs)).
Qed.


End Fastest.

(** ** From [ServeDNS] to the rules *)

Section ToTheRules.
Context `{Env}.

Lemma Lock_free (cond : nat) (fr : Frame) (rc : reqCond) :
  conds (fr_store fr) !! cond = Some rc -> locked rc = false ->
  Lock cond fr
  = (set_store (update_cond cond (fun rc => {| locked := true; ready := ready rc |})
                  (fr_store fr)) fr).
Proof. unfold Lock. intros -> ->. reflexivity. Qed.

Lemma WaitReady_ready (cond : nat) (fr : Frame) (rc : reqCond) :
  conds (fr_store fr) !! cond = Some rc -> ready rc = true ->
  WaitReady cond fr = (fr, Next tt).
Proof. unfold WaitReady. intros -> ->. reflexivity. Qed.

Lemma conds_update_cond (cond : nat) (f : reqCond -> reqCond) (c : CondStore) :
  conds (update_cond cond f c) !! cond = f <$> conds c !! cond.
Proof. unfold update_cond. cbn [conds]. apply list_lookup_alter_eq. Qed.

(** A request that reaches the rules: the dispatch is the rules run
    from [atRules], then the release of the slot and the reply. *)
Lemma ServeDNS_at_rules (sc : Sched) (handler : Handler) (request : Msg)
    (store : CondStore) (q : Question) (cond : nat) (store1 : CondStore) (c : DNSCache) :
  reachesRules handler request store q cond store1 c ->
  ServeDNS sc handler request store
  = finish request cond (rules sc handler request q (atRules c cond store1)).
Proof.
  intros ((rest & Hq) & H6 & Hd & Hh & Hg & Hfree & Hc & Hmiss).
  unfold ServeDNS, ServeDNS_body.
  rewrite Hq, bind_lift_Done, H6, Hd, Hh, bind_lift_Done.
  rewrite (bind_Next _ _ _ _ _ eq_refl).
  rewrite bool_decide_eq_false_2 by (intros E; now apply E).
  rewrite (bind_Next _ _ _ _ _ eq_refl).
  cbn [fr_store set_r fst]. rewrite Hg, bind_lift_Done.
  rewrite (bind_Next _ _ _ _ _ eq_refl). cbn [snd fst set_store].
  erewrite bind_Next; [|apply (Lock_free cond _ newReqCond); [exact Hfree | reflexivity]].
  erewrite bind_Next;
    [|eapply WaitReady_ready;
      [cbn [set_store fst fr_store]; rewrite conds_update_cond, Hfree; reflexivity
      | reflexivity]].
  rewrite (bind_Next _ _ _ _ _ eq_refl).
  erewrite bind_Next; [|cbn [Unlock set_store fst fr_cache]; unfold cacheGet;
                        cbn [fr_cache]; rewrite Hc, Hmiss; reflexivity].
  rewrite bool_decide_eq_false_2 by (intros E; now apply E).
  erewrite bind_Next;
    [|eapply Lock_free;
      [cbn [set_r mbind M_bind mret M_ret set_store fst fr_store];
       rewrite !conds_update_cond, Hfree; reflexivity
      | reflexivity]].
  erewrite bind_Next;
    [|eapply WaitReady_ready;
      [cbn [set_r mbind M_bind mret M_ret set_store fst fr_store];
       rewrite !conds_update_cond, Hfree; reflexivity
      | reflexivity]].
  rewrite (bind_Next _ _ _ _ _ eq_refl).
  unfold with_defer, resolve.
  erewrite bind_Next; [|unfold cacheGet; cbn [set_ready set_store set_r mbind M_bind mret
                          M_ret fst fr_cache]; rewrite Hmiss; reflexivity].
  rewrite bool_decide_eq_false_2 by (intros E; now apply E).
  unfold finish, rules, atRules, slotTaken.
  cbn [set_ready set_store set_r mbind M_bind mret M_ret fst snd fr_cache fr_store
       fr_r fr_group fr_trace].
  match goal with
  | |- (let (_, _) := let (_, _) := ?x in _ in _) = _ => destruct x as [fr1 [[]| | |]]
  end; reflexivity.
Qed.

Lemma dropRule_pass (handler : Handler) (q : Question) (fr : Frame) :
  notDropped handler q -> dropRule handler q fr = (fr, Next tt).
Proof.
  intros (g & Hg & v & Hv & Hm). unfold dropRule. rewrite Hg. simpl in Hv.
  now rewrite Hv, bind_lift_Done, Hm.
Qed.

Lemma called_writeReply (request : Msg) (fr : Frame) :
  called (fr_trace (writeReply request fr)) = called (fr_trace fr).
Proof.
  unfold writeReply. cbn [fr_trace]. rewrite !called_app. cbn [called omap].
  assert (Hip : called (match fr_group fr with
                        | Some g => AddIPSet g (Some (SetReply (default empty_Msg (fr_r fr))
                                                        request))
                        | None => []
                        end) = []).
  { destruct (fr_group fr) as [g|]; [|reflexivity]. unfold AddIPSet.
    destruct (IPSet g); [|reflexivity].
    induction (ExtractA _) as [|a l IH]; [reflexivity | exact IH]. }
  rewrite Hip. now rewrite !app_nil_r.
Qed.

Lemma cacheWrites_writeReply (request : Msg) (fr : Frame) :
  cacheWrites (fr_trace (writeReply request fr)) = cacheWrites (fr_trace fr).
Proof.
  unfold writeReply. cbn [fr_trace]. rewrite !cacheWrites_app. cbn [cacheWrites omap].
  assert (Hip : cacheWrites (match fr_group fr with
                             | Some g => AddIPSet g (Some (SetReply (default empty_Msg
                                                                        (fr_r fr)) request))
                             | None => []
                             end) = []).
  { destruct (fr_group fr) as [g|]; [|reflexivity]. unfold AddIPSet.
    destruct (IPSet g); [|reflexivity].
    induction (ExtractA _) as [|a l IH]; [reflexivity | exact IH]. }
  rewrite Hip. now rewrite !app_nil_r.
Qed.

Lemma replies_writeReply (request : Msg) (fr : Frame) :
  (forall r, WriteMsgEv r ∉ fr_trace fr) ->
  replies (fr_trace (writeReply request fr))
  = [SetReply (default empty_Msg (fr_r fr)) request].
Proof.
  intros Hno. unfold writeReply, replies. cbn [fr_trace]. rewrite !omap_app.
  assert (Hpre : omap (fun e => match e with WriteMsgEv r => Some r | _ => None end)
                   (fr_trace fr) = []).
  { induction (fr_trace fr) as [|e l IH]; [reflexivity|].
    destruct e as [m g|g|rq rr|w|st ip|]; cbn [omap];
      try (apply IH; intros r Hr; apply (Hno r); now right).
    exfalso. apply (Hno w). now left. }
  rewrite Hpre. cbn [omap app].
  destruct (fr_group fr) as [g|]; [|reflexivity]. unfold AddIPSet.
  destruct (IPSet g); [|reflexivity].
  induction (ExtractA _) as [|a l IH]; [reflexivity | exact IH].
Qed.

End ToTheRules.

(** ** The dispatcher at the rules *)

Section Dispatch.
Context `{Env}.

Lemma exit_finish (request : Msg) (cond : nat) (fr : Frame) (flow : Flow unit) :
  exit (finish request cond (fr, flow))
  = match flow with Panic => Panicked | Block => Blocked | _ => Returned end.
Proof. destruct flow; reflexivity. Qed.

Lemma called_finish (request : Msg) (cond : nat) (res : Frame * Flow unit) :
  called (fr_trace (final (finish request cond res))) = called (fr_trace res.1).
Proof.
  destruct res as [fr [[]| | |]]; cbn [finish final fst];
    try rewrite called_writeReply; reflexivity.
Qed.

(** When the part under the slot did not block, the dispatch releases
    the slot and writes [r], or the empty message for a nil [r], in the
    envelope of the request. *)
Lemma final_finish (request : Msg) (cond : nat) (fr : Frame) (flow : Flow unit) :
  flow <> Block ->
  final (finish request cond (fr, flow)) = writeReply request (release cond fr).
Proof. destruct flow; intros Hb; try reflexivity. now destruct Hb. Qed.


(** C3. Let a request reach the rules and pass the drop rule, and let
    the rule pass select a group, the first in the order of iteration
    whose rule matches the name. If its key is "dirty" and all its
    callers return nil, the dispatcher calls the group under "clean",
    replies with the result of clean and writes nothing to the cache.
    In every other case (another key, or a result that is not nil) it
    writes the result of the selected group to the cache, a nil result
    too, and replies with it. *)
Theorem ServeDNS_dirty_falls_back_else_caches (sc : Sched) (handler : Handler)
    (request : Msg) (store : CondStore) (q : Question) (cond : nat) (store1 : CondStore)
    (c : DNSCache) (name logger : string) (g : Group) :
  reachesRules handler request store q cond store1 c ->
  notDropped handler q ->
  fair sc -> QueryLogger handler = Some logger ->
  selects (groupOrder sc (map_to_list (default ∅ (Groups handler)))) q name g ->
  (name = "dirty" -> allCallersNil g request ->
   forall (clean : Group) (r' : option Msg),
     lookupGroup handler "clean" = Some clean ->
     CallDNS sc clean (Some request) = Done r' ->
     exit (ServeDNS sc handler request store) = Returned
     /\ replies (fr_trace (final (ServeDNS sc handler request store)))
        = [SetReply (default empty_Msg r') request]
     /\ called (fr_trace (final (ServeDNS sc handler request store))) = ["dirty"; "clean"]
     /\ cacheWrites (fr_trace (final (ServeDNS sc handler request store))) = []
     /\ fr_cache (final (ServeDNS sc handler request store)) = Some c)
  /\ (forall r : option Msg,
        CallDNS sc g (Some request) = Done r ->
        name <> "dirty" \/ r <> None ->
        exit (ServeDNS sc handler request store) = Returned
        /\ replies (fr_trace (final (ServeDNS sc handler request store)))
           = [SetReply (default empty_Msg r) request]
        /\ called (fr_trace (final (ServeDNS sc handler request store))) = [name]
        /\ cacheWrites (fr_trace (final (ServeDNS sc handler request store)))
           = [(request, r)]
        /\ fr_cache (final (ServeDNS sc handler request store))
           = Some (Cache_Set c request r)).
Proof.
  intros Hreach Hdrop Hfair Hlog Hsel.
  rewrite (ServeDNS_at_rules _ _ _ _ _ _ _ _ Hreach). unfold rules.
  rewrite (bind_Next _ _ _ _ _ (dropRule_pass _ _ _ Hdrop)).
  destruct (ruleLoop_selected sc handler request q _ (atRules c cond store1)
              name logger g Hfair Hlog Hsel) as [Hfall Hcache].
  destruct (ruleLoop sc handler request q _ (atRules c cond store1)) as [fr2 flow] eqn:Eloop.
  cbn [fst snd] in Hfall, Hcache. split.
  - intros Hname Hnil clean r' Hclean Hr'.
    destruct (Hfall Hname Hnil clean r' Hclean Hr') as (-> & Hres & Hc & Ht).
    rewrite (bind_Return _ _ _ _ Eloop). cbn [finish exit final].
    split; [reflexivity|]. split; [|split; [|split]].
    + rewrite replies_writeReply; [cbn [release fr_r]; now rewrite Hres|].
      cbn [release fr_trace]. rewrite Ht. cbn [atRules fr_trace app].
      intros w Hin. repeat (apply elem_of_cons in Hin as [Hin|Hin]; [discriminate|]).
      inversion Hin.
    + rewrite called_writeReply. cbn [release fr_trace]. now rewrite Ht.
    + rewrite cacheWrites_writeReply. cbn [release fr_trace]. now rewrite Ht.
    + cbn [writeReply release fr_cache]. exact Hc.
  - intros r Hr Hcase.
    destruct (Hcache r c Hr Hcase eq_refl) as (-> & Hres & Hc & Ht).
    rewrite (bind_Return _ _ _ _ Eloop). cbn [finish exit final].
    split; [reflexivity|]. split; [|split; [|split]].
    + rewrite replies_writeReply; [cbn [release fr_r]; now rewrite Hres|].
      cbn [release fr_trace]. rewrite Ht. cbn [atRules fr_trace app].
      intros w Hin. repeat (apply elem_of_cons in Hin as [Hin|Hin]; [discriminate|]).
      inversion Hin.
    + rewrite called_writeReply. cbn [release fr_trace]. now rewrite Ht.
    + rewrite cacheWrites_writeReply. cbn [release fr_trace]. now rewrite Ht.
    + cbn [writeReply release fr_cache]. exact Hc.
Qed.

(** C10. Every request that reaches the rules has the drop rule
    evaluated first, and with no "drop" group in the handler that step
    panics, whatever [Match] does on a nil receiver: no group is called,
    nothing is logged or cached, and the deferred function writes the
    empty reply. The dispatch is free of a panic only when the group
    exists, and [IsValid] accepts handlers that have none. *)
Theorem ServeDNS_panics_without_drop_group (sc : Sched) (handler : Handler)
    (request : Msg) (store : CondStore) (q : Question) (cond : nat) (store1 : CondStore)
    (c : DNSCache) :
  reachesRules handler request store q cond store1 c ->
  (lookupGroup handler "drop" = None ->
     exit (ServeDNS sc handler request store) = Panicked
     /\ fr_trace (final (ServeDNS sc handler request store)) = emptyReplyTrace request)
  /\ (exit (ServeDNS sc handler request store) <> Panicked ->
      is_Some (lookupGroup handler "drop"))
  /\ (exists h : Handler, IsValid h = true /\ lookupGroup h "drop" = None).
Proof.
  intros Hreach.
  assert (Hp : lookupGroup handler "drop" = None ->
               exit (ServeDNS sc handler request store) = Panicked
               /\ fr_trace (final (ServeDNS sc handler request store))
                  = emptyReplyTrace request).
  { intros Hd. rewrite (ServeDNS_at_rules _ _ _ _ _ _ _ _ Hreach). unfold rules.
    rewrite (bind_Panic _ _ _ _ (dropRule_without_group _ _ _ Hd)).
    split; reflexivity. }
  split; [exact Hp|]. split.
  - intros Hne. destruct (lookupGroup handler "drop") eqn:E; [eauto|].
    destruct (Hp eq_refl) as [Hpan _]. contradiction.
  - exists {| Mux := 0; Listen := ""; Network := ""; H_DisableIPv6 := false;
              H_Cache := None; GFWMatcher := None; CNIP := None; CNIPv6 := None;
              HostsReaders := None; Groups := Some Sample.groups2;
              QueryLogger := None; DisableQTypes := None |}.
    split; vm_compute; reflexivity.
Qed.

End Dispatch.

(** ** The theorems at the concrete setting of [Sample] *)

Lemma fair_in_order : fair in_order.
Proof. repeat split; intros l; reflexivity. Qed.


(** The witness of C3: in [Sample.handlerDeaf] the rule of dirty matches
    twimg.com and both callers of dirty fail, so clean is asked, its
    answer is the reply, and nothing is cached. *)
Lemma ServeDNS_dirty_falls_back_else_caches_witness :
  fair in_order
  /\ QueryLogger Sample.handlerDeaf = Some "query"
  /\ exit (@ServeDNS Sample.env in_order Sample.handlerDeaf
             (Sample.query "pbs.twimg.com." TypeA) emptyStore) = Returned
  /\ called (fr_trace (final (@ServeDNS Sample.env in_order Sample.handlerDeaf
                                (Sample.query "pbs.twimg.com." TypeA) emptyStore)))
     = ["dirty"; "clean"]
  /\ cacheWrites (fr_trace (final (@ServeDNS Sample.env in_order Sample.handlerDeaf
                                     (Sample.query "pbs.twimg.com." TypeA) emptyStore)))
     = [].
Proof.
  assert (Hreach : @reachesRules Sample.env Sample.handlerDeaf
            (Sample.query "pbs.twimg.com." TypeA) emptyStore
            {| Q_Name := "pbs.twimg.com."; Q_Qtype := TypeA; Q_Qclass := 1 |}
            0 (Sample.storeOf "pbs.twimg.com.1") []).
  { split; [exists []; reflexivity|]. repeat split. }
  assert (Hdrop : @notDropped Sample.env Sample.handlerDeaf
            {| Q_Name := "pbs.twimg.com."; Q_Qtype := TypeA; Q_Qclass := 1 |}).
  { exists Sample.dropG. split; [reflexivity|]. exists (false, true). split; reflexivity. }
  assert (Hsel : @selects Sample.env
            (groupOrder in_order (map_to_list (default ∅ (Groups Sample.handlerDeaf))))
            {| Q_Name := "pbs.twimg.com."; Q_Qtype := TypeA; Q_Qclass := 1 |}
            "dirty" Sample.deafDirtyG).
  { exists [("clean", Sample.cleanG)], [("drop", Sample.dropG)], (true, true).
    split; [reflexivity|]. split; [|split; reflexivity].
    constructor; [|constructor]. exists (false, true). split; reflexivity. }
  split; [exact fair_in_order|]. split; [reflexivity|].
  destruct (@ServeDNS_dirty_falls_back_else_caches Sample.env in_order Sample.handlerDeaf
              (Sample.query "pbs.twimg.com." TypeA) emptyStore
              {| Q_Name := "pbs.twimg.com."; Q_Qtype := TypeA; Q_Qclass := 1 |}
              0 (Sample.storeOf "pbs.twimg.com.1") [] "dirty" "query"
              Sample.deafDirtyG Hreach Hdrop fair_in_order eq_refl Hsel) as [Hfall _].
  destruct (Hfall eq_refl) with (clean := Sample.cleanG)
      (r' := Some (Sample.answer [Sample.rrA "cn.bing.com." x65 x20 x01 x01]))
    as (Hret & _ & Hcalled & Hw & _).
  - repeat constructor.
  - reflexivity.
  - reflexivity.
  - split; [exact Hret|]. split; [exact Hcalled | exact Hw].
Defined.

(** The witness of C10: [Sample.handler2], valid and without a drop
    group, and a request that reaches the rules. *)
Lemma ServeDNS_panics_without_drop_group_witness :
  @reachesRules Sample.env Sample.handler2 (Sample.query "cn.bing.com." TypeA) emptyStore
    {| Q_Name := "cn.bing.com."; Q_Qtype := TypeA; Q_Qclass := 1 |}
    0 (Sample.storeOf "cn.bing.com.1") []
  /\ @IsValid Sample.env Sample.handler2 = true
  /\ lookupGroup Sample.handler2 "drop" = None
  /\ exit (@ServeDNS Sample.env in_order Sample.handler2
             (Sample.query "cn.bing.com." TypeA) emptyStore) = Panicked.
Proof.
  assert (Hreach : @reachesRules Sample.env Sample.handler2
            (Sample.query "cn.bing.com." TypeA) emptyStore
            {| Q_Name := "cn.bing.com."; Q_Qtype := TypeA; Q_Qclass := 1 |}
            0 (Sample.storeOf "cn.bing.com.1") []).
  { split; [exists []; reflexivity|]. repeat split. }
  split; [exact Hreach|]. split; [reflexivity|]. split; [reflexivity|].
  destruct (@ServeDNS_panics_without_drop_group Sample.env in_order Sample.handler2
              (Sample.query "cn.bing.com." TypeA) emptyStore
              {| Q_Name := "cn.bing.com."; Q_Qtype := TypeA; Q_Qclass := 1 |}
              0 (Sample.storeOf "cn.bing.com.1") [] Hreach) as (Hp & _).
  exact (proj1 (Hp eq_refl)).
Defined.

(** The witness of C4: www.example.com with the client subnet
    1.2.3.0/24, and WWW.Example.COM with the same subnet. *)
Lemma getCacheKey_fingerprint_separation_witness :
  getCacheKey (Sample.withECS (Sample.query "www.example.com." TypeA) [x01; x02; x03; x00] 24)
  = Done "www.example.com.1.1.2.3.0/24"
  /\ getCacheKey (Sample.withECS (Sample.query "www.example.com." TypeA)
                    [x01; x02; x03; x00] 24)
     = getCacheKey (Sample.withECS (Sample.query "WWW.Example.COM." TypeA)
                      [x01; x02; x03; x00] 24).
Proof.
  destruct (getCacheKey_fingerprint_separation
              (Sample.withECS (Sample.query "www.example.com." TypeA) [x01; x02; x03; x00] 24)
              (Sample.withECS (Sample.query "WWW.Example.COM." TypeA) [x01; x02; x03; x00] 24)
              {| Q_Name := "www.example.com."; Q_Qtype := TypeA; Q_Qclass := 1 |}
              {| Q_Name := "WWW.Example.COM."; Q_Qtype := TypeA; Q_Qclass := 1 |}
              [] [] eq_refl eq_refl) as (Hkey & _ & _ & Hcase).
  split; [exact Hkey|]. apply Hcase; reflexivity.
Defined.


(** The witness of C8: a text of an address, an empty line and a
    block; the empty line is no address. *)
Lemma NewRamSetByText_keeps_key_of_bad_line_witness :
  "" ∈ Split (String.concat (String LF "") ["1.2.3.4"; ""; "10.0.0.0/8"]) LF
  /\ ParseIP (Trim "" blanks) = []
  /\ Contain (NewRamSetByText (String.concat (String LF "") ["1.2.3.4"; ""; "10.0.0.0/8"])) []
     = true.
Proof.
  assert (Hin : "" ∈ Split (String.concat (String LF "") ["1.2.3.4"; ""; "10.0.0.0/8"]) LF)
    by (right; left).
  split; [exact Hin|]. split; [reflexivity|].
  exact (proj2 (NewRamSetByText_keeps_key_of_bad_line _ "" Hin eq_refl)).
Defined.


(** ** The literal scenarios of the design notes, run on [ServeDNS] *)

(** [A www.example.com], matched by the rule of work: the reply has the
    answer of work, and the cache is written for that request. *)
Example scenario_rule_work :
  let out := @ServeDNS Sample.env in_order Sample.handler4
               (Sample.query "www.example.com." TypeA) emptyStore in
  exit out = Returned
  /\ map Sample.addresses (replies (fr_trace (final out))) = [["93.184.216.34"]]
  /\ called (fr_trace (final out)) = ["work"]
  /\ fr_cache (final out)
     = Some [("www.example.com.1", Sample.answer [Sample.rrA "w." x5d xb8 xd8 x22])].
Proof. repeat split. Qed.

(** [AAAA foo.google.com], no rule: clean answers outside CNIPv6, dirty
    is asked and its answer is the reply. *)
Example scenario_dirty_after_clean :
  let out := @ServeDNS Sample.env in_order Sample.handler6
               (Sample.query "foo.google.com." TypeAAAA) emptyStore in
  exit out = Returned
  /\ map Sample.addresses (replies (fr_trace (final out))) = [["2606:4700::6810:85e5"]]
  /\ called (fr_trace (final out)) = ["clean"; "dirty"]
  /\ length (cacheWrites (fr_trace (final out))) = 1.
Proof. repeat split. Qed.

(** [A cn.bing.com]: clean answers inside CNIP, dirty is not asked. *)
Example scenario_clean_in_range :
  let out := @ServeDNS Sample.env in_order Sample.handler4
               (Sample.query "cn.bing.com." TypeA) emptyStore in
  exit out = Returned
  /\ map Sample.addresses (replies (fr_trace (final out))) = [["101.32.1.1"]]
  /\ called (fr_trace (final out)) = ["clean"].
Proof. repeat split. Qed.

(** [A drop.me], matched by the drop rule: an empty reply, no group
    asked, nothing cached. *)
Example scenario_drop :
  let out := @ServeDNS Sample.env in_order Sample.handler4
               (Sample.query "drop.me." TypeA) emptyStore in
  exit out = Returned
  /\ map Sample.addresses (replies (fr_trace (final out))) = [[]]
  /\ called (fr_trace (final out)) = []
  /\ cacheWrites (fr_trace (final out)) = [].
Proof. repeat split. Qed.

(** ** Single flight when the record of the fingerprint exists *)

Section OneRecord.
Import SingleFlight.

Lemma count_cons (f : pc -> bool) (p : pc) (ts : list pc) :
  count f (p :: ts) = (if f p then 1 else 0) + count f ts.
Proof.
  unfold count. rewrite filter_cons. destruct (f p) eqn:E.
  - rewrite decide_True by reflexivity. reflexivity.
  - rewrite decide_False by discriminate. reflexivity.
Qed.

(** Moving one dispatch changes a count by what the old and the new
    point contribute. *)
Lemma count_insert (f : pc -> bool) (ts : list pc) (t : nat) (p p' : pc) :
  ts !! t = Some p ->
  count f (<[t := p']> ts) + (if f p then 1 else 0)
  = count f ts + (if f p' then 1 else 0).
Proof.
  revert t. induction ts as [|x ts IH]; intros t Ht; [discriminate|].
  destruct t as [|t].
  - injection Ht as ->. cbn [insert list_insert]. rewrite !count_cons.
    destruct (f p), (f p'); lia.
  - change (<[S t := p']> (x :: ts)) with (x :: <[t := p']> ts). rewrite !count_cons.
    specialize (IH t Ht). destruct (f p), (f p'), (f x); lia.
Qed.

Lemma count_le (f g : pc -> bool) (ts : list pc) :
  (forall p, f p = true -> g p = true) -> count f ts <= count g ts.
Proof.
  intros Hfg. induction ts as [|x ts IH]; [reflexivity|].
  rewrite !count_cons. destruct (f x) eqn:E; [rewrite (Hfg x E); lia|].
  destruct (g x); lia.
Qed.

(** A dispatch that is counted by [g] and not by [f], where [f] implies
    [g]: the others counted by [f] are counted by [g] too. *)
Lemma count_other (f g : pc -> bool) (ts : list pc) (t : nat) (p : pc) :
  (forall q, f q = true -> g q = true) ->
  ts !! t = Some p -> g p = true -> f p = false ->
  count f ts + 1 <= count g ts.
Proof.
  intros Hfg. revert t. induction ts as [|x ts IH]; intros t Ht Hg Hf; [discriminate|].
  rewrite !count_cons. destruct t as [|t].
  - injection Ht as ->. rewrite Hg, Hf. pose proof (count_le f g ts Hfg). simpl. lia.
  - specialize (IH t Ht Hg Hf). destruct (f x) eqn:E; [rewrite (Hfg x E); lia|].
    destruct (g x); lia.
Qed.

Lemma count_pos (f : pc -> bool) (ts : list pc) (t : nat) (p : pc) :
  ts !! t = Some p -> f p = true -> 1 <= count f ts.
Proof.
  revert t. induction ts as [|x ts IH]; intros t Ht Hf; [discriminate|].
  rewrite count_cons. destruct t as [|t].
  - injection Ht as ->. rewrite Hf. simpl. lia.
  - specialize (IH t Ht Hf). destruct (f x); lia.
Qed.

Lemma busy_holds (p : pc) : busy p = true -> holds p = true.
Proof. destruct p; auto. Qed.

Lemma resolving_holds (p : pc) : resolving p = true -> holds p = true.
Proof. destruct p; auto. Qed.

Lemma resolving_busy (p : pc) : resolving p = true -> busy p = true.
Proof. destruct p; auto. Qed.

Lemma signal_nobody (cond : nat) (ts : list pc) :
  Forall (fun p => waiting p = false) ts -> signal cond ts = ts.
Proof.
  induction 1 as [|p ts Hp _ IH]; [reflexivity|].
  destruct p; try discriminate; cbn [signal]; now rewrite IH.
Qed.

Lemma cond_at_update (s : State) (c : nat) (f : reqCond -> reqCond) (c' : CondStore) :
  c < length (conds (store s)) ->
  c' = update_cond c f (store s) ->
  cond_at (with_store c' s) c = f (cond_at s c)
  /\ condMap (store (with_store c' s)) = condMap (store s)
  /\ length (conds (store (with_store c' s))) = length (conds (store s)).
Proof.
  intros Hlt ->. unfold cond_at, with_store, update_cond. cbn [store conds condMap].
  rewrite list_lookup_alter_eq, length_alter.
  destruct (lookup_lt_is_Some_2 _ _ Hlt) as [rc ->]. auto.
Qed.

Lemma cond_at_set_locked (s : State) (c : nat) (b : bool) :
  c < length (conds (store s)) ->
  cond_at (set_locked c b s) c = {| locked := b; ready := ready (cond_at s c) |}
  /\ condMap (store (set_locked c b s)) = condMap (store s)
  /\ length (conds (store (set_locked c b s))) = length (conds (store s)).
Proof.
  intros Hlt. unfold set_locked.
  exact (cond_at_update s c (fun rc => {| locked := b; ready := ready rc |}) _ Hlt eq_refl).
Qed.

Lemma cond_at_set_flag (s : State) (c : nat) (b : bool) :
  c < length (conds (store s)) ->
  cond_at (set_flag c b s) c = {| locked := locked (cond_at s c); ready := b |}
  /\ condMap (store (set_flag c b s)) = condMap (store s)
  /\ length (conds (store (set_flag c b s))) = length (conds (store s)).
Proof.
  intros Hlt. unfold set_flag.
  exact (cond_at_update s c (fun rc => {| locked := locked rc; ready := b |}) _ Hlt eq_refl).
Qed.

(** The state after dispatch [t] moved from [p] to [p'], the record
    [c0] being [rc'] and the cache and the counter [ca] and [up]:
    the invariant holds again when the counts agree. *)
Lemma Inv_after (key : string) (c0 : nat) (s s' : State) (t : nat) (p p' : pc) :
  Inv key c0 s -> threads s !! t = Some p ->
  threads s' = <[t := p']> (threads s) ->
  condMap (store s') = condMap (store s) ->
  length (conds (store s')) = length (conds (store s)) ->
  p' <> GetWrite -> waiting p' = false -> (forall c, cond_of p' = Some c -> c = c0) ->
  (if locked (cond_at s' c0) then 1 else 0) + (if holds p then 1 else 0)
    = (if locked (cond_at s c0) then 1 else 0) + (if holds p' then 1 else 0) ->
  ready (cond_at s' c0)
    = (count busy (threads s) + (if busy p' then 1 else 0) - (if busy p then 1 else 0) =? 0)%nat ->
  upstream s' + (if resolving p then 1 else 0) + (if cached s then 1 else 0)
    = upstream s + (if resolving p' then 1 else 0) + (if cached s' then 1 else 0) ->
  (cached s' = true ->
   count resolving (threads s) + (if resolving p' then 1 else 0)
     = (if resolving p then 1 else 0)) ->
  Inv key c0 s'.
Proof.
  intros (I1 & I2 & I3 & I4 & I5 & I6 & I7) Ht Hts Hcm Hlen Hnw Hw Hc Hlk Hrd Hup Hca.
  pose proof (count_insert holds _ _ _ p' Ht) as Ch.
  pose proof (count_insert busy _ _ _ p' Ht) as Cb.
  pose proof (count_insert resolving _ _ _ p' Ht) as Cr.
  pose proof (count_pos busy _ _ _ Ht) as Pb.
  unfold Inv. rewrite Hts, Hcm, Hlen.
  split; [exact I1|]. split; [exact I2|]. split; [|split; [|split; [|split]]].
  - apply Forall_insert; [exact I3 | auto].
  - destruct (locked (cond_at s' c0)), (locked (cond_at s c0)), (holds p), (holds p'); lia.
  - rewrite Hrd. destruct (busy p) eqn:Ebp; [specialize (Pb eq_refl)|clear Pb];
      destruct (busy p');
      match goal with
      | |- (?a =? 0)%nat = (?b =? 0)%nat =>
          destruct (Nat.eqb_spec a 0), (Nat.eqb_spec b 0); try reflexivity; lia
      end.
  - destruct (resolving p), (resolving p'), (cached s), (cached s'); lia.
  - intros Hc'. specialize (Hca Hc'). destruct (resolving p), (resolving p'); lia.
Qed.

(** What the invariant says of the state around one dispatch, by the
    point it stands at. *)
Lemma Inv_around (key : string) (c0 : nat) (s : State) (t : nat) (p : pc) :
  Inv key c0 s -> threads s !! t = Some p ->
  (holds p = true -> locked (cond_at s c0) = true)
  /\ (holds p = true -> busy p = false ->
      count busy (threads s) = 0 /\ ready (cond_at s c0) = true)
  /\ (busy p = true -> count busy (threads s) = 1 /\ ready (cond_at s c0) = false)
  /\ (resolving p = true -> count resolving (threads s) = 1 /\ cached s = false).
Proof.
  intros (I1 & I2 & I3 & I4 & I5 & I6 & I7) Ht.
  pose proof (count_le busy holds (threads s) busy_holds) as Lbh.
  pose proof (count_le resolving holds (threads s) resolving_holds) as Lrh.
  assert (Hone : count holds (threads s) <= 1)
    by (rewrite I4; destruct (locked (cond_at s c0)); lia).
  split; [|split; [|split]].
  - intros Hh. pose proof (count_pos holds _ _ _ Ht Hh) as P.
    destruct (locked (cond_at s c0)); [reflexivity | lia].
  - intros Hh Hb. pose proof (count_other busy holds _ _ _ busy_holds Ht Hh Hb) as P.
    assert (E : count busy (threads s) = 0) by lia.
    split; [exact E|]. rewrite I5, E. reflexivity.
  - intros Hb. pose proof (count_pos busy _ _ _ Ht Hb) as P.
    assert (E : count busy (threads s) = 1) by lia.
    split; [exact E|]. rewrite I5, E. reflexivity.
  - intros Hr. pose proof (count_pos resolving _ _ _ Ht Hr) as P.
    assert (E : count resolving (threads s) = 1) by lia.
    split; [exact E|]. destruct (cached s); [|reflexivity].
    specialize (I7 eq_refl). lia.
Qed.

Lemma cond_at_goto (t : nat) (p : pc) (s : State) (c : nat) :
  cond_at (goto t p s) c = cond_at s c.
Proof. reflexivity. Qed.

Ltac inv_move HI Ht :=
  injection 1 as <-;
  eapply (Inv_after _ _ _ _ _ _ _ HI Ht);
  [reflexivity | try reflexivity | try reflexivity | discriminate | reflexivity
  | cbn [cond_of]; congruence | | | | ].

(** One step of any dispatch keeps the invariant. *)
Lemma step_Inv (key : string) (c0 : nat) (t : nat) (s s' : State) :
  Inv key c0 s -> step key t s = Some s' -> Inv key c0 s'.
Proof.
  intros HI. pose proof HI as (I1 & I2 & I3 & I4 & I5 & I6 & I7).
  unfold step. destruct (threads s !! t) as [p|] eqn:Ht; [|discriminate].
  cbn [mbind option_bind].
  destruct (proj1 (Forall_lookup _ _) I3 _ _ Ht) as (Hnw & Hw & Hc).
  destruct (Inv_around _ _ _ _ _ HI Ht) as (Hl & Hb0 & Hb1 & Hr1).
  destruct (cond_at_set_locked s c0 true I2) as (L1 & L2 & L3).
  destruct (cond_at_set_locked s c0 false I2) as (U1 & U2 & U3).
  destruct (cond_at_set_flag s c0 false I2) as (F1 & F2 & F3).
  destruct p as [| |c|c|c|c|c|c|c|c|c|c|c|c|c|c|];
    try discriminate; try (exfalso; apply Hnw; reflexivity);
    try (pose proof (Hc c eq_refl) as ->).
  - (* GetRead *)
    rewrite I1. inv_move HI Ht.
    + reflexivity.
    + rewrite Nat.add_0_r, Nat.sub_0_r. exact I5.
    + reflexivity.
    + intros Hca. rewrite Nat.add_0_r. exact (I7 Hca).
  - (* Lock1 *)
    unfold acquire. destruct (locked (cond_at s c0)) eqn:El; [discriminate|].
    inv_move HI Ht; try assumption.
    + change (cond_at (goto t (Wait1 c0) (set_locked c0 true s)) c0)
        with (cond_at (set_locked c0 true s) c0). rewrite L1, El. reflexivity.
    + change (cond_at (goto t (Wait1 c0) (set_locked c0 true s)) c0)
        with (cond_at (set_locked c0 true s) c0). rewrite L1.
      rewrite Nat.add_0_r, Nat.sub_0_r. exact I5.
    + reflexivity.
    + intros Hca. rewrite Nat.add_0_r. exact (I7 Hca).
  - (* Wait1 *)
    destruct (Hb0 eq_refl eq_refl) as (B0 & R1). rewrite R1.
    inv_move HI Ht.
    + reflexivity.
    + rewrite Nat.add_0_r, Nat.sub_0_r. exact I5.
    + reflexivity.
    + intros Hca. rewrite Nat.add_0_r. exact (I7 Hca).
  - (* Unlock1 *)
    inv_move HI Ht; try assumption.
    + rewrite cond_at_goto, U1, (Hl eq_refl). reflexivity.
    + rewrite cond_at_goto, U1. rewrite Nat.add_0_r, Nat.sub_0_r. exact I5.
    + reflexivity.
    + intros Hca. rewrite Nat.add_0_r. exact (I7 Hca).
  - (* Cache1 *)
    destruct (cached s) eqn:Eca; inv_move HI Ht;
      try reflexivity;
      try (rewrite Nat.add_0_r, Nat.sub_0_r; exact I5);
      try (rewrite Eca; reflexivity);
      intros Hca; cbn [cached goto] in Hca; rewrite Nat.add_0_r;
      first [apply I7; reflexivity | rewrite Eca in Hca; discriminate].
  - (* Lock2 *)
    unfold acquire. destruct (locked (cond_at s c0)) eqn:El; [discriminate|].
    inv_move HI Ht; try assumption.
    + rewrite cond_at_goto, L1, El. reflexivity.
    + rewrite cond_at_goto, L1. rewrite Nat.add_0_r, Nat.sub_0_r. exact I5.
    + reflexivity.
    + intros Hca. rewrite Nat.add_0_r. exact (I7 Hca).
  - (* Wait2 *)
    destruct (Hb0 eq_refl eq_refl) as (B0 & R1). rewrite R1.
    inv_move HI Ht.
    + reflexivity.
    + rewrite Nat.add_0_r, Nat.sub_0_r. exact I5.
    + reflexivity.
    + intros Hca. rewrite Nat.add_0_r. exact (I7 Hca).
  - (* Take *)
    destruct (Hb0 eq_refl eq_refl) as (B0 & R1).
    inv_move HI Ht; try assumption.
    + rewrite cond_at_goto, F1. reflexivity.
    + rewrite cond_at_goto, F1, B0. reflexivity.
    + reflexivity.
    + intros Hca. rewrite Nat.add_0_r. exact (I7 Hca).
  - (* Cache2 *)
    destruct (Hb1 eq_refl) as (B1 & R0).
    destruct (cached s) eqn:Eca; inv_move HI Ht.
    + reflexivity.
    + rewrite cond_at_goto, R0, B1. reflexivity.
    + reflexivity.
    + intros _. rewrite Nat.add_0_r. apply I7. reflexivity.
    + reflexivity.
    + rewrite cond_at_goto.
      change (ready (cond_at s c0) = (count busy (threads s) + 1 - 1 =? 0)%nat).
      rewrite R0, B1. reflexivity.
    + cbn [upstream goto cached resolving]. rewrite Eca. lia.
    + cbn [cached goto]. discriminate.
  - (* Resolving *)
    destruct (Hb1 eq_refl) as (B1 & R0). destruct (Hr1 eq_refl) as (R1 & Eca).
    inv_move HI Ht.
    + reflexivity.
    + rewrite cond_at_goto.
      change (ready (cond_at s c0) = (count busy (threads s) + 1 - 1 =? 0)%nat).
      rewrite R0, B1. reflexivity.
    + cbn [upstream goto cached resolving]. rewrite Eca. lia.
    + intros _. rewrite R1. reflexivity.
  - (* Release *)
    destruct (Hb1 eq_refl) as (B1 & R0).
    destruct (cond_at_set_flag s c0 true I2) as (T1 & T2 & T3).
    rewrite (signal_nobody c0 (threads (set_flag c0 true s))).
    2:{ eapply Forall_impl; [exact I3|]. intros q (_ & Hq & _). exact Hq. }
    set (s2 := {| store := store (set_flag c0 true s);
                  cached := cached (set_flag c0 true s);
                  upstream := upstream (set_flag c0 true s);
                  threads := threads (set_flag c0 true s) |}).
    assert (I2' : c0 < length (conds (store s2))) by (cbn [s2 store]; rewrite T3; exact I2).
    destruct (cond_at_set_locked s2 c0 false I2') as (G1 & G2 & G3).
    inv_move HI Ht.
    + etransitivity; [exact G3 | exact T3].
    + rewrite cond_at_goto, G1, (Hl eq_refl). reflexivity.
    + rewrite cond_at_goto, G1.
      change (ready (cond_at (set_flag c0 true s) c0)
              = (count busy (threads s) + 0 - 1 =? 0)%nat).
      rewrite T1, B1. reflexivity.
    + reflexivity.
    + intros Hca. rewrite Nat.add_0_r. exact (I7 Hca).
Qed.

Lemma run_Inv (key : string) (c0 : nat) (schedule : list nat) (s s' : State) :
  Inv key c0 s -> run key schedule s = Some s' -> Inv key c0 s'.
Proof.
  revert s. induction schedule as [|t rest IH]; intros s HI Hrun.
  - injection Hrun as <-. exact HI.
  - cbn [run] in Hrun. destruct (step key t s) as [s1|] eqn:Hstep; [|discriminate].
    cbn [mbind option_bind] in Hrun. exact (IH s1 (step_Inv _ _ _ _ _ HI Hstep) Hrun).
Qed.

Lemma count_replicate_none (f : pc -> bool) (p : pc) (n : nat) :
  f p = false -> count f (replicate n p) = 0.
Proof.
  intros Hf. induction n as [|n IH]; [reflexivity|].
  cbn [replicate]. rewrite count_cons, Hf, IH. reflexivity.
Qed.

Lemma warm_Inv (key : string) (n : nat) : Inv key 0 (warm key n).
Proof.
  unfold Inv, warm. cbn [store condMap conds threads cached upstream].
  rewrite !count_replicate_none by reflexivity.
  repeat split.
  - apply lookup_insert_eq.
  - cbn [length]. lia.
  - apply Forall_replicate. repeat split; discriminate.
Qed.


(** Two dispatches on the warm record, run one after the other to the
    end: one resolution, the second dispatch answers from the cache. *)
Example warm_two_dispatches_one_resolution :
  exists s,
    run "twimg.com.1" [0;0;0;0;0;0;0;0;0;0;0; 1;1;1;1;1] (warm "twimg.com.1" 2) = Some s
    /\ threads s = [Finished; Finished] /\ upstream s = 1.
Proof. eexists. split; [vm_compute; reflexivity|]. split; reflexivity. Qed.

End OneRecord.

(** ** Two dispatches of one fingerprint *)

(** C2, where the code departs from it. Two dispatches of the
    fingerprint twimg.com.1 start with an empty [condMap]. Both run the
    read half of [get] (lines 315-317) before either runs the write half
    (lines 321-324): each finds no record, makes one of its own and
    stores it, the second over the first. Each then takes the mutex of
    its own record, misses the cache twice and starts an upstream
    resolution: two are in flight at once, and two were started with no
    cache entry expired in between. *)
Theorem get_race_two_resolutions_in_flight :
  exists s : SingleFlight.State,
    SingleFlight.run "twimg.com.1"
      [0; 1; 0; 1; 0; 0; 0; 0; 0; 0; 0; 0; 1; 1; 1; 1; 1; 1; 1; 1] (SingleFlight.init 2)
    = Some s
    /\ SingleFlight.threads s = [SingleFlight.Resolving 0; SingleFlight.Resolving 1]
    /\ SingleFlight.inFlight s = 2
    /\ SingleFlight.upstream s = 2
    /\ SingleFlight.cached s = false.
Proof. eexists. repeat split. Qed.

(* ===================================================================== *)
(** * Further properties of the code *)
(* ===================================================================== *)

Import Lines.

(** ** What a RamSet read from text contains *)

Section RamSetText.

Lemma add_line_subnet (s : RamSet) (line : string) :
  subnet (add_line s line)
  = subnet s ++ match ParseCIDR (Trim line blanks) with Some n => [n] | None => [] end.
Proof. unfold add_line. destruct (ParseCIDR _); cbn [subnet]; now rewrite ?app_nil_r. Qed.

Lemma fold_add_line_index (lines : list string) (s : RamSet) (key : string) :
  is_Some (ipMap (fold_left add_line lines s) !! key)
  <-> is_Some (ipMap s !! key)
      \/ exists line, line ∈ lines /\ IP_String (ParseIP (Trim line blanks)) = key.
Proof.
  revert s. induction lines as [|l lines IH]; intros s.
  - simpl. split; [auto | intros [Hs|(line & Hin & _)]; [exact Hs | inversion Hin]].
  - simpl. rewrite IH, add_line_ipMap. split.
    + intros [Hs|(line & Hin & Hk)].
      * destruct (decide (IP_String (ParseIP (Trim l blanks)) = key)) as [E|Hne].
        -- right. exists l. split; [now left | exact E].
        -- rewrite lookup_insert_ne in Hs by exact Hne. now left.
      * right. exists line. split; [now right | exact Hk].
    + intros [Hs|(line & Hin & Hk)].
      * left. destruct (decide (IP_String (ParseIP (Trim l blanks)) = key)) as [<-|Hne].
        -- rewrite lookup_insert_eq. eauto.
        -- now rewrite lookup_insert_ne.
      * apply elem_of_cons in Hin as [->|Hin].
        -- left. rewrite Hk, lookup_insert_eq. eauto.
        -- right. exists line. split; [exact Hin | exact Hk].
Qed.

Lemma fold_add_line_blocks (lines : list string) (s : RamSet) (n : IPNet) :
  n ∈ subnet (fold_left add_line lines s)
  <-> n ∈ subnet s \/ exists line, line ∈ lines /\ ParseCIDR (Trim line blanks) = Some n.
Proof.
  revert s. induction lines as [|l lines IH]; intros s.
  - simpl. split; [auto | intros [Hs|(line & Hin & _)]; [exact Hs | inversion Hin]].
  - simpl. rewrite IH, add_line_subnet, elem_of_app. split.
    + intros [[Hs|Hl]|(line & Hin & Hk)].
      * now left.
      * right. exists l. split; [now left|].
        destruct (ParseCIDR (Trim l blanks)) as [n'|]; [|inversion Hl].
        apply list_elem_of_singleton in Hl. now rewrite Hl.
      * right. exists line. split; [now right | exact Hk].
    + intros [Hs|(line & Hin & Hk)].
      * left. now left.
      * apply elem_of_cons in Hin as [->|Hin].
        -- left. right. rewrite Hk. now left.
        -- right. exists line. split; [exact Hin | exact Hk].
Qed.

(** The index and the blocks of the set read from a text. *)
Lemma NewRamSetByText_index (text key : string) :
  is_Some (ipMap (NewRamSetByText text) !! key)
  <-> exists line, line ∈ Split text LF /\ IP_String (ParseIP (Trim line blanks)) = key.
Proof.
  unfold NewRamSetByText. rewrite fold_add_line_index. cbn [ipMap].
  rewrite lookup_empty. split; [|auto]. intros [Hs|Hl]; [now destruct Hs | exact Hl].
Qed.

Lemma NewRamSetByText_blocks (text : string) (n : IPNet) :
  n ∈ subnet (NewRamSetByText text)
  <-> exists line, line ∈ Split text LF /\ ParseCIDR (Trim line blanks) = Some n.
Proof.
  unfold NewRamSetByText. rewrite fold_add_line_blocks. cbn [subnet].
  split; [|auto]. intros [Hs|Hl]; [inversion Hs | exact Hl].
Qed.

(** The set read from a text contains an address exactly when some line
    of the text, trimmed, parses to an address with the same text form,
    or is a block in CIDR notation that contains the address. *)
Theorem NewRamSetByText_Contain (text : string) (ip : list byte) :
  Contain (NewRamSetByText text) ip = true
  <-> exists line, line ∈ Split text LF
        /\ (IP_String (ParseIP (Trim line blanks)) = IP_String ip
            \/ exists n, ParseCIDR (Trim line blanks) = Some n
                         /\ IPNet_Contains n ip = true).
Proof.
  rewrite Contain_spec, NewRamSetByText_index. split.
  - intros [(line & Hin & Hk)|(n & Hn & Hc)].
    + exists line. split; [exact Hin | now left].
    + apply NewRamSetByText_blocks in Hn as (line & Hin & Hk).
      exists line. split; [exact Hin|]. right. exists n. now split.
  - intros (line & Hin & [Hk|(n & Hn & Hc)]).
    + left. exists line. now split.
    + right. exists n. split; [|exact Hc]. apply NewRamSetByText_blocks.
      exists line. now split.
Qed.

Lemma IP_String_4 (a b c d : byte) : IP_String [a; b; c; d] = dotted [a; b; c; d].
Proof. reflexivity. Qed.

Lemma IP_String_IPv4 (a b c d : byte) : IP_String (IPv4 a b c d) = dotted [a; b; c; d].
Proof. unfold IP_String. rewrite To4_IPv4. reflexivity. Qed.

Lemma IPNet_Contains_IPv4 (n : IPNet) (a b c d : byte) :
  IPNet_Contains n (IPv4 a b c d) = IPNet_Contains n [a; b; c; d].
Proof. unfold IPNet_Contains. rewrite To4_IPv4. reflexivity. Qed.

(** [Contain] gives one answer for the 4-byte and the 16-byte form of an
    IPv4 address, whatever the set holds. *)
Theorem Contain_either_form (s : RamSet) (a b c d : byte) :
  Contain s (IPv4 a b c d) = Contain s [a; b; c; d].
Proof.
  unfold Contain. rewrite IP_String_IPv4, IP_String_4.
  destruct (ipMap s !! dotted [a; b; c; d]); [reflexivity|].
  induction (subnet s) as [|n l IH]; [reflexivity|].
  cbn [existsb]. now rewrite IH, IPNet_Contains_IPv4.
Qed.

(** *** Trimming *)

Lemma TrimLeft_blank (pad s : string) :
  blank pad = true -> TrimLeft (pad +:+ s) blanks = TrimLeft s blanks.
Proof.
  induction pad as [|c pad IH]; [reflexivity|]. cbn [blank].
  intros [Hc Hp]%andb_true_iff. rewrite append_cons. cbn [TrimLeft]. rewrite Hc. auto.
Qed.

Lemma TrimRight_blank (pad : string) : blank pad = true -> TrimRight pad blanks = "".
Proof.
  induction pad as [|c pad IH]; [reflexivity|]. cbn [blank].
  intros [Hc Hp]%andb_true_iff. cbn [TrimRight]. now rewrite (IH Hp), Hc.
Qed.

Lemma TrimRight_app_blank (s pad : string) :
  blank pad = true -> TrimRight (s +:+ pad) blanks = TrimRight s blanks.
Proof.
  intros Hp. induction s as [|c s IH]; [now apply TrimRight_blank|].
  rewrite append_cons. cbn [TrimRight]. now rewrite IH.
Qed.

Lemma TrimRight_kept (s t : string) :
  TrimRight t blanks = t -> t <> "" -> TrimRight (s +:+ t) blanks = s +:+ t.
Proof.
  intros Ht Hne. induction s as [|c s IH]; [exact Ht|].
  rewrite append_cons. cbn [TrimRight]. rewrite IH.
  destruct (s +:+ t) eqn:E; [|reflexivity].
  destruct s; [now destruct Hne | rewrite append_cons in E; discriminate].
Qed.

(** A text that begins and ends with an octet keeps all its bytes, and
    blanks around it are cut. *)
Lemma Trim_octets (pad1 pad2 mid : string) (a d : byte) :
  blank pad1 = true -> blank pad2 = true ->
  Trim (pad1 +:+ (ubtoa a +:+ mid +:+ ubtoa d) +:+ pad2) blanks = ubtoa a +:+ mid +:+ ubtoa d.
Proof.
  intros H1 H2. unfold Trim. rewrite TrimLeft_blank by exact H1.
  assert (HL : forall r, TrimLeft (ubtoa a +:+ r) blanks = ubtoa a +:+ r)
    by (intros r; destruct a; reflexivity).
  rewrite (append_assoc (ubtoa a)), HL, <- (append_assoc (ubtoa a)).
  rewrite TrimRight_app_blank by exact H2.
  rewrite <- (append_assoc (ubtoa a) mid).
  apply TrimRight_kept; destruct d; first [reflexivity | discriminate].
Qed.

Lemma dotted_octets (a b c d : byte) :
  dotted [a; b; c; d]
  = ubtoa a +:+ ("." +:+ ubtoa b +:+ "." +:+ ubtoa c +:+ ".") +:+ ubtoa d.
Proof.
  unfold dotted. now rewrite !append_assoc.
Qed.

Lemma cidr_octets (a b c d p : byte) :
  dotted [a; b; c; d] +:+ "/" +:+ ubtoa p
  = ubtoa a +:+ ("." +:+ ubtoa b +:+ "." +:+ ubtoa c +:+ "." +:+ ubtoa d +:+ "/") +:+ ubtoa p.
Proof.
  unfold dotted. now rewrite !append_assoc.
Qed.

Lemma parseIPv4_dotted (a b c d : byte) : parseIPv4 (dotted [a; b; c; d]) = IPv4 a b c d.
Proof.
  rewrite <- (ParseIP_dotted a b c d). symmetry.
  exact (ParseIP_scan_octet (dotted [a; b; c; d]) a
           (ubtoa b +:+ "." +:+ ubtoa c +:+ "." +:+ ubtoa d)).
Qed.

(** *** Blocks *)

Lemma contains_byte_app (x y : string) (c : ascii) :
  contains_byte (x +:+ y) c = contains_byte x c || contains_byte y c.
Proof.
  induction x as [|e x IH]; [reflexivity|].
  rewrite append_cons. cbn [contains_byte]. now rewrite IH, orb_assoc.
Qed.

Lemma index_byte_first (x r : string) (c : ascii) (i : nat) :
  contains_byte x c = false ->
  index_byte (x +:+ String c r) c i = Some (i + String.length x).
Proof.
  revert i. induction x as [|e x IH]; intros i Hx.
  - change ("" +:+ String c r) with (String c r). cbn [index_byte String.length].
    rewrite Ascii.eqb_refl. f_equal. lia.
  - cbn [contains_byte] in Hx. apply orb_false_iff in Hx as [He Hx].
    rewrite append_cons. cbn [index_byte String.length]. rewrite He, IH by exact Hx.
    f_equal. lia.
Qed.

Lemma dotted_no_slash (a b c d : byte) : contains_byte (dotted [a; b; c; d]) "/" = false.
Proof.
  assert (Hu : forall x : byte, contains_byte (ubtoa x) "/" = false)
    by (intros x; destruct x; reflexivity).
  unfold dotted. rewrite !contains_byte_app, !Hu. reflexivity.
Qed.

Lemma substring_prefix (x y : string) : String.substring 0 (String.length x) (x +:+ y) = x.
Proof.
  induction x as [|c x IH]; [destruct y; reflexivity|].
  rewrite append_cons. cbn. now rewrite IH.
Qed.

Lemma string_drop_past (x r : string) (c : ascii) :
  string_drop (S (String.length x)) (x +:+ String c r) = r.
Proof.
  unfold string_drop. induction x as [|e x IH].
  - apply (string_drop_1 c r).
  - rewrite append_cons. cbn. exact IH.
Qed.

Lemma to_byte_of_N (x : N) : (x <= 255)%N -> Byte.to_N (byte_of_N x) = x.
Proof.
  intros Hx. unfold byte_of_N. rewrite N.mod_small by lia.
  destruct (Byte.of_N x) as [y|] eqn:E; [now apply Byte.to_of_N|].
  apply Byte.of_N_None_iff in E. lia.
Qed.

(** Masking twice is masking once. *)
Lemma and_bytes_idem (p m : list byte) : and_bytes (and_bytes p m) m = and_bytes p m.
Proof.
  unfold and_bytes. revert m. induction p as [|a p IH]; intros [|b m]; try reflexivity.
  cbn [zip_with]. rewrite IH. f_equal.
  rewrite to_byte_of_N.
  - now rewrite <- N.land_assoc, N.land_diag.
  - pose proof (N.land_le_l (Byte.to_N a) (Byte.to_N b)).
    pose proof (Byte.to_N_bounded a). lia.
Qed.

Lemma CIDRMask_from_length (l : nat) (n : N) : length (CIDRMask_from l n) = l.
Proof.
  revert n. induction l as [|l IH]; intros n; [reflexivity|].
  cbn [CIDRMask_from]. destruct (8 <=? n)%N; cbn [length]; now rewrite IH.
Qed.

Lemma CIDRMask_32 (n : N) :
  (n <= 32)%N -> exists m1 m2 m3 m4, CIDRMask n 32 = [m1; m2; m3; m4].
Proof.
  intros Hn. unfold CIDRMask. cbn [negb andb Nat.eqb Nat.mul IPv4len Nat.add].
  assert ((N.of_nat 32 <? n)%N = false) as -> by (apply N.ltb_ge; lia).
  pose proof (CIDRMask_from_length (32 / 8) n) as Hl.
  destruct (CIDRMask_from (32 / 8) n) as [|m1 [|m2 [|m3 [|m4 [|m5 l]]]]]; try discriminate.
  eauto.
Qed.

(** A block written as address/prefix-length: its network is the
    address under the mask of the prefix length. *)
Lemma ParseCIDR_dotted (a b c d p : byte) :
  (Byte.to_N p <= 32)%N ->
  ParseCIDR (dotted [a; b; c; d] +:+ "/" +:+ ubtoa p)
  = Some {| IPNet_IP := and_bytes [a; b; c; d] (CIDRMask (Byte.to_N p) 32);
            IPNet_Mask := CIDRMask (Byte.to_N p) 32 |}.
Proof.
  intros Hp. unfold ParseCIDR.
  change ("/" +:+ ubtoa p) with (String "/"%char (ubtoa p)).
  rewrite index_byte_first by apply dotted_no_slash. cbn [Nat.add].
  rewrite substring_prefix, parseIPv4_dotted.
  rewrite string_drop_past.
  destruct (dtoi_octet p "" (or_introl eq_refl)) as (Hd & _ & _ & _).
  rewrite append_nil_r in Hd. rewrite Hd.
  destruct (CIDRMask_32 _ Hp) as (m1 & m2 & m3 & m4 & Hm).
  cbn [IPv4 v4InV6Prefix app length Nat.eqb orb negb]. rewrite Nat.eqb_refl.
  cbn [negb orb IPv4len Nat.mul Nat.add].
  assert ((N.of_nat 32 <? Byte.to_N p)%N = false) as -> by (apply N.ltb_ge; lia).
  rewrite Hm. reflexivity.
Qed.

Lemma IPNet_Contains_4 (nn m ip : list byte) :
  length nn = 4 -> length m = 4 -> length ip = 4 ->
  IPNet_Contains {| IPNet_IP := nn; IPNet_Mask := m |} ip
  = bytes_eqb (and_bytes nn m) (and_bytes ip m).
Proof.
  intros Hn Hm Hi.
  destruct nn as [|a [|b [|c [|d [|e nn]]]]]; try discriminate.
  destruct ip as [|x [|y [|z [|w [|v ip]]]]]; try discriminate.
  destruct m as [|m1 [|m2 [|m3 [|m4 [|m5 m]]]]]; try discriminate.
  reflexivity.
Qed.

Lemma and_bytes_length_4 (p m : list byte) :
  length p = 4 -> length m = 4 -> length (and_bytes p m) = 4.
Proof.
  intros Hp Hm.
  destruct p as [|a [|b [|c [|d [|e p]]]]]; try discriminate.
  destruct m as [|m1 [|m2 [|m3 [|m4 [|m5 m]]]]]; try discriminate.
  reflexivity.
Qed.

Lemma IPNet_Contains_masked (p4 ip m : list byte) :
  length p4 = 4 -> length ip = 4 -> length m = 4 ->
  and_bytes ip m = and_bytes p4 m ->
  IPNet_Contains {| IPNet_IP := and_bytes p4 m; IPNet_Mask := m |} ip = true.
Proof.
  intros H4 Hi Hm E.
  rewrite IPNet_Contains_4 by auto using and_bytes_length_4.
  rewrite and_bytes_idem, E. unfold bytes_eqb. now apply bool_decide_eq_true_2.
Qed.

End RamSetText.

(** An address written on a line of its own, blanks around it or not,
    is in the set, in the 4-byte and in the 16-byte form. *)
Theorem NewRamSetByText_holds_listed_address (text line pad1 pad2 : string)
    (a b c d : byte) :
  line ∈ Split text LF ->
  line = pad1 +:+ dotted [a; b; c; d] +:+ pad2 -> blank pad1 = true -> blank pad2 = true ->
  Contain (NewRamSetByText text) [a; b; c; d] = true
  /\ Contain (NewRamSetByText text) (IPv4 a b c d) = true.
Proof.
  intros Hin -> H1 H2.
  assert (Hk : is_Some (ipMap (NewRamSetByText text) !! dotted [a; b; c; d])).
  { apply NewRamSetByText_index. eexists. split; [exact Hin|].
    rewrite dotted_octets, Trim_octets, <- dotted_octets by assumption.
    now rewrite ParseIP_dotted, IP_String_IPv4. }
  split; apply Contain_spec; left; [rewrite IP_String_4 | rewrite IP_String_IPv4]; exact Hk.
Qed.

(** A block written on a line as address/prefix-length, blanks around it
    or not: every address that agrees with the address of the line under
    the mask of the prefix length is in the set. *)
Theorem NewRamSetByText_holds_listed_block (text line pad1 pad2 : string)
    (a b c d p x y z w : byte) :
  line ∈ Split text LF ->
  line = pad1 +:+ (dotted [a; b; c; d] +:+ "/" +:+ ubtoa p) +:+ pad2 ->
  blank pad1 = true -> blank pad2 = true ->
  (Byte.to_N p <= 32)%N ->
  and_bytes [x; y; z; w] (CIDRMask (Byte.to_N p) 32)
  = and_bytes [a; b; c; d] (CIDRMask (Byte.to_N p) 32) ->
  Contain (NewRamSetByText text) [x; y; z; w] = true.
Proof.
  intros Hin -> H1 H2 Hp E.
  destruct (CIDRMask_32 _ Hp) as (m1 & m2 & m3 & m4 & Hm).
  apply Contain_spec. right. eexists. split.
  - apply NewRamSetByText_blocks. eexists. split; [exact Hin|].
    rewrite cidr_octets, Trim_octets, <- cidr_octets by assumption.
    now apply ParseCIDR_dotted.
  - apply IPNet_Contains_masked; try reflexivity; [now rewrite Hm | exact E].
Qed.

(** The two theorems at the list [Lines.crlfList]. *)
Lemma NewRamSetByText_holds_listed_address_witness :
  Contain (NewRamSetByText Lines.crlfList) [x01; x02; x03; x04] = true
  /\ Contain (NewRamSetByText Lines.crlfList) (IPv4 x01 x02 x03 x04) = true.
Proof.
  apply (NewRamSetByText_holds_listed_address Lines.crlfList
           ("1.2.3.4" +:+ String CR "") "" (String CR "") x01 x02 x03 x04);
    [vm_compute; now left | reflexivity | reflexivity | reflexivity].
Defined.

Lemma NewRamSetByText_holds_listed_block_witness :
  Contain (NewRamSetByText Lines.crlfList) [x0a; xc8; x07; x01] = true.
Proof.
  apply (NewRamSetByText_holds_listed_block Lines.crlfList " 10.0.0.0/8" " " ""
           x0a x00 x00 x00 x08 x0a xc8 x07 x01);
    [vm_compute; right; now left | reflexivity | reflexivity | reflexivity
    | vm_compute; discriminate | reflexivity].
Defined.

Import Records.

(** ** [CondMap.get], one call after the other *)

Section GetInTurn.

Lemma get_cases (c c' : CondStore) (r : Msg) (i : nat) :
  get c r = Done (i, c') ->
  exists key, getCacheKey r = Done key
    /\ (condMap c !! key = Some i /\ c' = c
        \/ condMap c !! key = None /\ i = length (conds c)
           /\ c' = {| condMap := <[key := i]> (condMap c);
                      conds := conds c ++ [newReqCond] |}).
Proof.
  unfold get. destruct (getCacheKey r) as [key| |]; try discriminate.
  cbn [mbind Result_bind]. intros Hg. exists key. split; [reflexivity|].
  destruct (condMap c !! key) as [j|] eqn:E; injection Hg as <- <-; auto.
Qed.

Lemma get_sound (c c' : CondStore) (r : Msg) (i : nat) :
  sound c -> get c r = Done (i, c') ->
  sound c'
  /\ (exists key, getCacheKey r = Done key /\ condMap c' !! key = Some i)
  /\ (forall j rc, conds c !! j = Some rc -> conds c' !! j = Some rc)
  /\ (forall k j, condMap c !! k = Some j -> condMap c' !! k = Some j)
  /\ (forall k, getCacheKey r <> Done k -> condMap c' !! k = condMap c !! k).
Proof.
  intros [Hb Hi] Hg. destruct (get_cases _ _ _ _ Hg) as (key & Hk & [[Hin ->]|(Hno & -> & ->)]).
  - split; [now split|]. split; [eauto|]. repeat split; auto.
  - unfold sound. cbn [condMap conds]. split; [split|split; [|split; [|split]]].
    + intros k i. rewrite length_app. cbn [length].
      destruct (decide (k = key)) as [->|Hne].
      * rewrite lookup_insert_eq. intros [= <-]. lia.
      * rewrite lookup_insert_ne by congruence. intros Hk'. specialize (Hb _ _ Hk'). lia.
    + intros k1 k2 i.
      destruct (decide (k1 = key)) as [->|H1], (decide (k2 = key)) as [->|H2];
        rewrite ?lookup_insert_eq, ?lookup_insert_ne by congruence; try done.
      * intros [= <-] H2'. specialize (Hb _ _ H2'). lia.
      * intros H1' [= <-]. specialize (Hb _ _ H1'). lia.
      * apply Hi.
    + exists key. split; [exact Hk | apply lookup_insert_eq].
    + intros j rc Hj. now apply lookup_app_l_Some.
    + intros k j Hk'. rewrite lookup_insert_ne; [exact Hk' | congruence].
    + intros k Hne. rewrite lookup_insert_ne; [reflexivity | congruence].
Qed.

Lemma get_again (c : CondStore) (r : Msg) (key : string) (i : nat) :
  getCacheKey r = Done key -> condMap c !! key = Some i -> get c r = Done (i, c).
Proof. unfold get. intros -> Hk. cbn [mbind Result_bind]. now rewrite Hk. Qed.

End GetInTurn.

(** Two calls of [get] that run one after the other, from a map in
    which every fingerprint has a record of its own: the two requests
    get the same record exactly when their fingerprints are the same;
    asking again gives the same records and adds none; the records and
    the keys there were stay as they were. *)
Theorem get_one_record_per_fingerprint (c c1 c2 : CondStore) (r1 r2 : Msg) (i1 i2 : nat) :
  sound c -> get c r1 = Done (i1, c1) -> get c1 r2 = Done (i2, c2) ->
  sound c2
  /\ (i1 = i2 <-> getCacheKey r1 = getCacheKey r2)
  /\ get c2 r1 = Done (i1, c2) /\ get c2 r2 = Done (i2, c2)
  /\ (forall j rc, conds c !! j = Some rc -> conds c2 !! j = Some rc)
  /\ (forall k j, condMap c !! k = Some j -> condMap c2 !! k = Some j)
  /\ length (conds c2) <= length (conds c) + 2.
Proof.
  intros Hs H1 H2.
  destruct (get_sound _ _ _ _ Hs H1) as (Hs1 & (k1 & Hk1 & Hm1) & Hc1 & Hmap1 & _).
  destruct (get_sound _ _ _ _ Hs1 H2) as (Hs2 & (k2 & Hk2 & Hm2) & Hc2 & Hmap2 & _).
  split; [exact Hs2|]. split; [|split; [|split; [|split; [|split]]]].
  - rewrite Hk1, Hk2. split.
    + intros <-. f_equal. exact (proj2 Hs2 k1 k2 i1 (Hmap2 _ _ Hm1) Hm2).
    + intros [= <-]. pose proof (Hmap2 _ _ Hm1). congruence.
  - exact (get_again _ _ _ _ Hk1 (Hmap2 _ _ Hm1)).
  - exact (get_again _ _ _ _ Hk2 Hm2).
  - auto.
  - auto.
  - destruct (get_cases _ _ _ _ H1) as (? & _ & [[_ ->]|(_ & _ & ->)]),
      (get_cases _ _ _ _ H2) as (? & _ & [[_ ->]|(_ & _ & ->)]);
      cbn [conds]; rewrite ?length_app; cbn [length]; lia.
Qed.

(** The theorem at the empty map, for the A and the AAAA query of one
    name: two fingerprints, two records. *)
Lemma get_one_record_per_fingerprint_witness :
  sound twoRecords
  /\ get twoRecords (Sample.query "twimg.com." TypeA) = Done (0, twoRecords)
  /\ get twoRecords (Sample.query "twimg.com." TypeAAAA) = Done (1, twoRecords).
Proof.
  destruct (get_one_record_per_fingerprint emptyStore (Sample.storeOf "twimg.com.1")
              twoRecords
              (Sample.query "twimg.com." TypeA) (Sample.query "twimg.com." TypeAAAA) 0 1)
    as (Hs & _ & H1 & H2 & _).
  - split; intros *; cbn [emptyStore condMap]; rewrite lookup_empty; discriminate.
  - reflexivity.
  - reflexivity.
  - split; [exact Hs | split; [exact H1 | exact H2]].
Defined.

(** ** [Refresh] and [IsValid] together *)

Section RefreshValid.
Context `{Env}.

(** After [Refresh] the handler is valid exactly when the target is, if
    the target brings groups, and exactly when it was before, if the
    target brings none; a second [Refresh] with the same target changes
    nothing. *)
Theorem Refresh_validity (handler target : Handler) :
  IsValid (Refresh handler target)
  = match Groups target with
    | Some _ => IsValid target
    | None => IsValid handler
    end
  /\ Refresh (Refresh handler target) target = Refresh handler target.
Proof.
  split.
  - unfold IsValid, Refresh. cbn [Groups]. now destruct (Groups target).
  - unfold Refresh. cbn.
    destruct (H_Cache target), (GFWMatcher target), (CNIP target), (HostsReaders target),
      (Groups target), (QueryLogger target); reflexivity.
Qed.

End RefreshValid.

(** ** The modes of [callDNS] *)

Section CallModes.
Context `{Env}.

Lemma callInTurn_first (pre post : list Caller) (caller : Caller) (request r : Msg) :
  Forall (fun c : Caller => c request = None) pre -> caller request = Some r ->
  callInTurn (pre ++ caller :: post) request = Some r.
Proof.
  intros Hpre Hc. induction Hpre as [|c l Hn _ IH]; cbn [app callInTurn].
  - now rewrite Hc.
  - now rewrite Hn.
Qed.

Lemma callInTurn_None (callers : list Caller) (request : Msg) :
  callInTurn callers request = None
  <-> Forall (fun c : Caller => c request = None) callers.
Proof.
  induction callers as [|c l IH]; cbn [callInTurn].
  - split; [constructor | reflexivity].
  - destruct (c request) eqn:E; split.
    + discriminate.
    + intros Hf. inversion Hf; congruence.
    + intros Hn. constructor; [exact E | now apply IH].
    + intros Hf. inversion Hf; subst. now apply IH.
Qed.

Lemma recvFirst_spec (n : nat) (ch : list (option Msg)) :
  n <= length ch ->
  exists res, recvFirst n ch = Done res
    /\ (res = None <-> Forall (fun m => m = None) (take n ch))
    /\ (forall r, res = Some r -> Some r ∈ ch).
Proof.
  revert ch. induction n as [|n IH]; intros ch Hlen.
  - exists None. split; [reflexivity|]. split; [split; [constructor | reflexivity]|discriminate].
  - destruct ch as [|[m|] ch]; [cbn in Hlen; lia| |].
    + exists (Some m). split; [reflexivity|]. split.
      * split; [discriminate|]. intros Hf. inversion Hf; discriminate.
      * intros r [= <-]. now left.
    + destruct (IH ch) as (res & Hres & Hnil & Hin); [cbn in Hlen; lia|].
      exists res. split; [exact Hres|]. split.
      * rewrite Hnil. cbn [take]. split.
        -- intros Hf. now constructor.
        -- intros Hf. now inversion Hf.
      * intros r Hr. right. now apply Hin.
Qed.

(** In the sequential mode the callers are asked in their order, and the
    first answer is the result of the group. *)
Theorem callDNS_in_turn_first_answer (sc : Sched) (g : Group) (request r : Msg)
    (pre post : list Caller) (caller : Caller) :
  Concurrent g = false -> FastestV4 g = false ->
  Callers g = pre ++ caller :: post ->
  Forall (fun c : Caller => c (forwarded g request) = None) pre ->
  caller (forwarded g request) = Some r ->
  callDNS sc g (Some request) = Done (Some r).
Proof.
  intros Hc Hf Hcallers Hpre Hr. unfold callDNS. fold (forwarded g request).
  rewrite Hcallers, Hc, Hf, length_app. cbn [length].
  rewrite Nat.add_succ_r. cbn [Nat.eqb orb].
  now rewrite (callInTurn_first pre post caller _ r).
Qed.

(** In every mode, under every scheduler that delivers what the callers
    send, [callDNS] returns; its result is nil exactly when every caller
    returned nil; and outside the fastest-address mode a result that is
    not nil is the answer of one of the callers. A nil request gives nil. *)
Theorem callDNS_nil_iff_all_nil (sc : Sched) (g : Group) (request : Msg) :
  fair sc ->
  (exists res, callDNS sc g (Some request) = Done res
     /\ (res = None <-> allCallersNil g request)
     /\ (FastestV4 g = false ->
         forall r, res = Some r ->
           exists caller : Caller, caller ∈ Callers g /\ caller (forwarded g request) = Some r))
  /\ callDNS sc g None = Done None.
Proof.
  intros (Harr & _). split; [|reflexivity].
  unfold callDNS, allCallersNil. fold (forwarded g request).
  destruct (Callers g) as [|c0 l] eqn:Ecallers.
  { exists None. split; [reflexivity|]. split; [split; [constructor | reflexivity]|discriminate]. }
  rewrite <- Ecallers. assert ((length (Callers g) =? 0)%nat = false) as ->
    by (rewrite Ecallers; reflexivity).
  set (results := map (fun caller : Caller => caller (forwarded g request)) (Callers g)).
  assert (Hlen : length (Callers g) = length (arrive sc results))
    by (rewrite (Harr results); subst results; now rewrite length_map).
  assert (Hnil : Forall (fun m => m = None) (arrive sc results)
                 <-> Forall (fun caller : Caller => caller (forwarded g request) = None)
                       (Callers g)).
  { rewrite (Harr results). subst results. now rewrite Forall_fmap. }
  assert (Hfrom : forall r, Some r ∈ arrive sc results ->
            exists caller : Caller, caller ∈ Callers g /\ caller (forwarded g request) = Some r).
  { intros r. rewrite (Harr results). subst results. rewrite list_elem_of_fmap.
    intros (caller & E & Hin). eauto. }
  destruct (Concurrent g) eqn:Ec, (FastestV4 g) eqn:Ef; cbn [orb andb negb].
  - destruct (fastestA_shape sc (arrive sc results) (length (Callers g)) (TCPPingPort g))
      as (res & Hres & Hn); [lia|].
    exists res. split; [exact Hres|]. split; [|discriminate].
    now rewrite Hn, lastNonNil_None, Hlen, firstn_all.
  - destruct (recvFirst_spec (length (Callers g)) (arrive sc results)) as (res & Hres & Hn & Hin);
      [lia|].
    exists res. split; [exact Hres|]. split; [|intros _ r Hr; apply Hfrom, Hin, Hr].
    now rewrite Hn, Hlen, firstn_all.
  - destruct (fastestA_shape sc (arrive sc results) (length (Callers g)) (TCPPingPort g))
      as (res & Hres & Hn); [lia|].
    exists res. split; [exact Hres|]. split; [|discriminate].
    now rewrite Hn, lastNonNil_None, Hlen, firstn_all.
  - eexists. split; [reflexivity|]. split; [apply callInTurn_None|].
    intros _ r Hr. clear -Hr. induction (Callers g) as [|c l IH]; [discriminate|].
    cbn [callInTurn] in Hr. destruct (c (forwarded g request)) eqn:E.
    + injection Hr as <-. exists c. split; [now left | exact E].
    + destruct (IH Hr) as (caller & Hin & Hc). exists caller. split; [now right | exact Hc].
Qed.

End CallModes.

(** The two theorems at groups of [Sample]: a group whose first caller
    fails and whose second answers, and the group of dirty whose two
    callers fail. *)
Lemma callDNS_in_turn_first_answer_witness :
  @callDNS Sample.env in_order
    (Sample.group "g" [Sample.silent; Sample.answers [Sample.rrA "x." x01 x02 x03 x04];
                       Sample.answers []] None)
    (Some (Sample.query "x." TypeA))
  = Done (Some (Sample.answer [Sample.rrA "x." x01 x02 x03 x04])).
Proof.
  apply (@callDNS_in_turn_first_answer Sample.env in_order _ (Sample.query "x." TypeA)
           (Sample.answer [Sample.rrA "x." x01 x02 x03 x04])
           [Sample.silent] [Sample.answers []]
           (Sample.answers [Sample.rrA "x." x01 x02 x03 x04]));
    [reflexivity | reflexivity | reflexivity | | reflexivity].
  constructor; [reflexivity | constructor].
Defined.

Lemma callDNS_nil_iff_all_nil_witness :
  (exists res, @callDNS Sample.env in_order Sample.deafDirtyG
                 (Some (Sample.query "pbs.twimg.com." TypeA)) = Done res
     /\ (res = None <-> @allCallersNil Sample.env Sample.deafDirtyG
                          (Sample.query "pbs.twimg.com." TypeA))
     /\ (FastestV4 Sample.deafDirtyG = false ->
         forall r, res = Some r ->
           exists caller : Caller,
             caller ∈ Callers Sample.deafDirtyG
             /\ caller (@forwarded Sample.env Sample.deafDirtyG
                          (Sample.query "pbs.twimg.com." TypeA)) = Some r))
  /\ @callDNS Sample.env in_order Sample.deafDirtyG None = Done None.
Proof.
  apply (@callDNS_nil_iff_all_nil Sample.env in_order Sample.deafDirtyG
           (Sample.query "pbs.twimg.com." TypeA)).
  repeat split; intros l; reflexivity.
Defined.

(** ** [HitHosts]: which reader answers *)

Section Hosts.
Context `{Env}.

Lemma HitHosts_loop_step (reader : Reader) (rest : list Reader) (hostname : string)
    (ipv6 : bool) :
  hostname <> "" ->
  HitHosts_loop (reader :: rest) hostname ipv6
  = match (if String.eqb (recordOf reader hostname ipv6) "" then None
           else NewRR (recordOf reader hostname ipv6)) with
    | Some ret => Done (Some (set_Answer empty_Msg [ret]))
    | None => HitHosts_loop rest hostname ipv6
    end.
Proof.
  intros Hne. cbn [HitHosts_loop]. unfold recordOf, dropLast.
  assert ((String.length hostname =? 0)%nat = false) as ->
    by (destruct hostname; [now destruct Hne | reflexivity]).
  destruct (String.eqb (reader hostname ipv6) ""); cbn [mbind Result_bind];
    destruct (String.eqb _ ""); cbn [negb]; try reflexivity;
    destruct (NewRR _); reflexivity.
Qed.

Lemma HitHosts_loop_miss (readers : list Reader) (hostname : string) (ipv6 : bool) :
  hostname <> "" -> Forall (misses hostname ipv6) readers ->
  HitHosts_loop readers hostname ipv6 = Done None.
Proof.
  intros Hne Hm. induction Hm as [|reader l Hr _ IH]; [reflexivity|].
  rewrite HitHosts_loop_step by exact Hne. destruct Hr as [-> | ->]; [exact IH|].
  now destruct (String.eqb _ "").
Qed.

Lemma HitHosts_loop_hit (pre post : list Reader) (reader : Reader) (hostname : string)
    (ipv6 : bool) (rr : RR) :
  hostname <> "" -> Forall (misses hostname ipv6) pre ->
  recordOf reader hostname ipv6 <> "" -> NewRR (recordOf reader hostname ipv6) = Some rr ->
  HitHosts_loop (pre ++ reader :: post) hostname ipv6 = Done (Some (set_Answer empty_Msg [rr])).
Proof.
  intros Hne Hm Hrec Hrr. induction Hm as [|x l Hx _ IH]; cbn [app].
  - rewrite HitHosts_loop_step by exact Hne.
    apply String.eqb_neq in Hrec. now rewrite Hrec, Hrr.
  - rewrite HitHosts_loop_step by exact Hne. destruct Hx as [-> | ->]; [exact IH|].
    now destruct (String.eqb _ "").
Qed.

(** For a question of another type than A and AAAA the hosts are not
    read. For an A or AAAA question with a name, each reader is asked
    for the name and, when it has no record, for the name without its
    last byte; the first reader whose record [dns.NewRR] accepts gives
    the response, which has that one answer; when every reader misses
    the result is nil. *)
Theorem HitHosts_first_reader_that_hits (handler : Handler) (request : Msg) (q : Question)
    (rest : list Question) :
  Questions request = q :: rest ->
  (Q_Qtype q <> TypeA -> Q_Qtype q <> TypeAAAA -> HitHosts handler request = Done None)
  /\ (Q_Qtype q = TypeA \/ Q_Qtype q = TypeAAAA -> Q_Name q <> "" ->
      (Forall (misses (Q_Name q) (Q_Qtype q =? TypeAAAA)%N)
         (default [] (HostsReaders handler)) ->
       HitHosts handler request = Done None)
      /\ (forall pre reader post rr,
            HostsReaders handler = Some (pre ++ reader :: post) ->
            Forall (misses (Q_Name q) (Q_Qtype q =? TypeAAAA)%N) pre ->
            recordOf reader (Q_Name q) (Q_Qtype q =? TypeAAAA)%N <> "" ->
            NewRR (recordOf reader (Q_Name q) (Q_Qtype q =? TypeAAAA)%N) = Some rr ->
            HitHosts handler request = Done (Some (set_Answer empty_Msg [rr])))).
Proof.
  intros Hq. unfold HitHosts. rewrite Hq. split.
  - intros HA HAAAA. apply N.eqb_neq in HA, HAAAA. now rewrite HA, HAAAA.
  - intros Ht Hne.
    assert ((Q_Qtype q =? TypeA)%N || (Q_Qtype q =? TypeAAAA)%N = true) as ->
      by (destruct Ht as [-> | ->]; reflexivity).
    split.
    + now apply HitHosts_loop_miss.
    + intros pre reader post rr -> Hpre Hrec Hrr. cbn [default from_option].
      now apply HitHosts_loop_hit.
Qed.

End Hosts.

(** The theorem at a handler with two readers: the first knows nothing,
    the second knows the name without the root dot. *)
Lemma HitHosts_first_reader_that_hits_witness :
  @HitHosts Sample.env hostsHandler (Sample.query "nas.lan." TypeA)
  = Done (Some (set_Answer empty_Msg [RR_Other zero_Header "nas.lan 60 IN A 10.0.0.2"])).
Proof.
  destruct (@HitHosts_first_reader_that_hits Sample.env hostsHandler
              (Sample.query "nas.lan." TypeA)
              {| Q_Name := "nas.lan."; Q_Qtype := TypeA; Q_Qclass := 1 |} [] eq_refl)
    as (_ & Hhit).
  destruct (Hhit (or_introl eq_refl)) as (_ & Hfirst); [discriminate|].
  apply (Hfirst [Sample.hostsOf "other." "x"] (Sample.hostsOf "nas.lan" "nas.lan 60 IN A 10.0.0.2")
           []).
  - reflexivity.
  - constructor; [now left | constructor].
  - discriminate.
  - reflexivity.
Defined.

(** ** The range test without a set *)

Section RangeWithoutSet.

Lemma allInRange_A_nil_set (l : list A) :
  allInRange_A l None
  = if forallb (fun a => isNil (v4_of a)) l then Done true else Panics.
Proof.
  induction l as [|a l IH]; [reflexivity|].
  cbn [allInRange_A forallb]. fold (v4_of a). destruct (isNil (v4_of a)); [exact IH | reflexivity].
Qed.

Lemma allInRange_AAAA_nil_set (l : list AAAA) :
  allInRange_AAAA l None
  = if forallb (fun a => isNil (v6_of a)) l then Done true else Panics.
Proof.
  induction l as [|a l IH]; [reflexivity|].
  cbn [allInRange_AAAA forallb]. fold (v6_of a).
  destruct (isNil (v6_of a)); [exact IH | reflexivity].
Qed.

Lemma forallb_isNil {T : Type} (f : T -> list byte) (l : list T) :
  forallb (fun a => isNil (f a)) l = true <-> forall a, a ∈ l -> f a = [].
Proof.
  rewrite forallb_forall. split.
  - intros Hf a Ha. apply list_elem_of_In in Ha. specialize (Hf a Ha).
    destruct (f a); [reflexivity | discriminate].
  - intros Hf a Ha. apply list_elem_of_In in Ha. now rewrite (Hf a Ha).
Qed.

(** [allInRange] with a nil set: the call panics as soon as the response
    holds a record with an address to test, and says true when it holds
    none, as for a nil response. *)
Theorem allInRange_nil_set_panics_on_address (r : option Msg) :
  (allInRange r None = Done true
   <-> (forall a, a ∈ ExtractA r -> v4_of a = [])
       /\ (forall a, a ∈ ExtractAAAA r -> v6_of a = []))
  /\ (allInRange r None = Panics
      <-> (exists a, a ∈ ExtractA r /\ v4_of a <> [])
          \/ (exists a, a ∈ ExtractAAAA r /\ v6_of a <> []))
  /\ allInRange None None = Done true.
Proof.
  unfold allInRange. rewrite allInRange_A_nil_set, allInRange_AAAA_nil_set.
  rewrite <- !(forallb_isNil v4_of), <- !(forallb_isNil v6_of).
  assert (H4 : forallb (fun a => isNil (v4_of a)) (ExtractA r) = false
               <-> exists a, a ∈ ExtractA r /\ v4_of a <> []).
  { rewrite <- not_true_iff_false, forallb_isNil. split.
    - intros Hn. induction (ExtractA r) as [|a l IH].
      + destruct Hn. intros a Ha. inversion Ha.
      + destruct (v4_of a) eqn:E.
        * destruct IH as (x & Hx & Hne).
          -- intros Hall. apply Hn. intros y [->|Hy]%elem_of_cons; auto.
          -- exists x. split; [now right | exact Hne].
        * exists a. split; [now left | now rewrite E].
    - intros (a & Ha & Hne) Hall. now apply Hne, Hall. }
  assert (H6 : forallb (fun a => isNil (v6_of a)) (ExtractAAAA r) = false
               <-> exists a, a ∈ ExtractAAAA r /\ v6_of a <> []).
  { rewrite <- not_true_iff_false, forallb_isNil. split.
    - intros Hn. induction (ExtractAAAA r) as [|a l IH].
      + destruct Hn. intros a Ha. inversion Ha.
      + destruct (v6_of a) eqn:E.
        * destruct IH as (x & Hx & Hne).
          -- intros Hall. apply Hn. intros y [->|Hy]%elem_of_cons; auto.
          -- exists x. split; [now right | exact Hne].
        * exists a. split; [now left | now rewrite E].
    - intros (a & Ha & Hne) Hall. now apply Hne, Hall. }
  rewrite <- H4, <- H6.
  destruct (forallb _ (ExtractA r)), (forallb _ (ExtractAAAA r)); cbn [mbind Result_bind negb];
    repeat split; try tauto; try discriminate; intuition discriminate.
Qed.

End RangeWithoutSet.

(** ** Progress of the dispatches on one record *)

Section OneRecordProgress.
Import SingleFlight Progress.

Lemma total_insert (ts : list pc) (t : nat) (p p' : pc) :
  ts !! t = Some p -> total (<[t := p']> ts) + rank p = total ts + rank p'.
Proof.
  revert t. induction ts as [|x ts IH]; intros t Ht; [discriminate|].
  destruct t as [|t].
  - injection Ht as ->. cbn [insert list_insert total foldr]. lia.
  - change (<[S t := p']> (x :: ts)) with (x :: <[t := p']> ts).
    cbn [total foldr]. fold (total (<[t := p']> ts)). fold (total ts).
    specialize (IH t Ht). lia.
Qed.

Lemma total_bound (ts : list pc) : total ts <= 11 * length ts.
Proof.
  induction ts as [|p ts IH]; [reflexivity|].
  cbn [total foldr length]. fold (total ts).
  assert (rank p <= 11) by (destruct p; cbn; lia). lia.
Qed.

Lemma count_witness (f : pc -> bool) (ts : list pc) :
  1 <= count f ts -> exists t p, ts !! t = Some p /\ f p = true.
Proof.
  induction ts as [|x ts IH]; [cbn; lia|].
  rewrite count_cons. destruct (f x) eqn:E.
  - intros _. exists 0, x. now split.
  - intros Hc. destruct IH as (t & p & Ht & Hp); [cbn in Hc; lia|].
    exists (S t), p. now split.
Qed.

(** What a step does to the dispatch that takes it, while the invariant
    holds: it moves forward, to a point it reaches with the answer in
    the cache only if the cache has it; the cache keeps its answer. *)
Lemma step_moves (key : string) (c0 t : nat) (s s' : State) :
  Inv key c0 s -> step key t s = Some s' ->
  exists p p', threads s !! t = Some p
    /\ threads s' = <[t := p']> (threads s)
    /\ rank p < rank p'
    /\ (cached s = true -> cached s' = true)
    /\ (answered p' = true -> cached s' = true \/ answered p = true).
Proof.
  intros HI. pose proof HI as (I1 & I2 & I3 & I4 & I5 & I6 & I7).
  unfold step. destruct (threads s !! t) as [p|] eqn:Ht; [|discriminate].
  cbn [mbind option_bind].
  destruct (proj1 (Forall_lookup _ _) I3 _ _ Ht) as (Hnw & Hw & Hc).
  destruct (Inv_around _ _ _ _ _ HI Ht) as (Hl & Hb0 & Hb1 & Hr1).
  assert (Hsig : signal c0 (threads s) = threads s).
  { apply signal_nobody. eapply Forall_impl; [exact I3|]. intros q (_ & Hq & _). exact Hq. }
  destruct p as [| |c|c|c|c|c|c|c|c|c|c|c|c|c|c|];
    try discriminate; try (exfalso; apply Hnw; reflexivity);
    try (pose proof (Hc c eq_refl) as ->); unfold acquire.
  - rewrite I1. injection 1 as <-. exists GetRead, (Lock1 c0).
    repeat split; cbn; auto; try lia; discriminate.
  - destruct (locked (cond_at s c0)); [discriminate|]. injection 1 as <-.
    exists (Lock1 c0), (Wait1 c0). repeat split; cbn; auto; try lia; discriminate.
  - destruct (Hb0 eq_refl eq_refl) as (_ & ->). injection 1 as <-.
    exists (Wait1 c0), (Unlock1 c0). repeat split; cbn; auto; try lia; discriminate.
  - injection 1 as <-.
    exists (Unlock1 c0), (Cache1 c0). repeat split; cbn; auto; try lia; discriminate.
  - destruct (cached s) eqn:Eca; injection 1 as <-.
    + exists (Cache1 c0), Finished. repeat split; cbn; auto; lia.
    + exists (Cache1 c0), (Lock2 c0). repeat split; cbn; auto; try lia; discriminate.
  - destruct (locked (cond_at s c0)); [discriminate|]. injection 1 as <-.
    exists (Lock2 c0), (Wait2 c0). repeat split; cbn; auto; try lia; discriminate.
  - destruct (Hb0 eq_refl eq_refl) as (_ & ->). injection 1 as <-.
    exists (Wait2 c0), (Take c0). repeat split; cbn; auto; try lia; discriminate.
  - injection 1 as <-.
    exists (Take c0), (Cache2 c0). repeat split; cbn; auto; try lia; discriminate.
  - destruct (cached s) eqn:Eca; injection 1 as <-.
    + exists (Cache2 c0), (Release c0). repeat split; cbn; auto; lia.
    + exists (Cache2 c0), (Resolving c0). repeat split; cbn; auto; try lia; discriminate.
  - injection 1 as <-.
    exists (Resolving c0), (Release c0). repeat split; cbn; auto; lia.
  - injection 1 as <-.
    exists (Release c0), Finished. repeat split; cbn; auto; try lia.
    change (threads (set_flag c0 true s)) with (threads s). now rewrite Hsig.
Qed.

(** Along a run on the record: the invariant, the steps taken so far,
    and the answer in the cache once a dispatch is past its resolution. *)
Lemma run_total (key : string) (c0 : nat) (schedule : list nat) (s s' : State) :
  Inv key c0 s ->
  Forall (fun p => answered p = true -> cached s = true) (threads s) ->
  run key schedule s = Some s' ->
  Inv key c0 s'
  /\ total (threads s) + length schedule <= total (threads s')
  /\ length (threads s') = length (threads s)
  /\ Forall (fun p => answered p = true -> cached s' = true) (threads s').
Proof.
  revert s. induction schedule as [|t rest IH]; intros s HI Ha Hrun.
  - injection Hrun as <-. cbn [length].
    split; [exact HI|]. split; [lia|]. split; [reflexivity | exact Ha].
  - cbn [run] in Hrun. destruct (step key t s) as [s1|] eqn:Hstep; [|discriminate].
    cbn [mbind option_bind] in Hrun.
    destruct (step_moves _ _ _ _ _ HI Hstep) as (p & p' & Ht & Hts & Hlt & Hca & Hans).
    pose proof (total_insert _ _ _ p' Ht) as Htot.
    assert (Ha1 : Forall (fun q => answered q = true -> cached s1 = true) (threads s1)).
    { rewrite Hts. apply Forall_insert.
      - eapply Forall_impl; [exact Ha|]. cbn. auto.
      - intros Hp'. destruct (Hans Hp') as [Hc|Hp]; [exact Hc|].
        apply Hca. exact (proj1 (Forall_lookup _ _) Ha _ _ Ht Hp). }
    destruct (IH s1 (step_Inv _ _ _ _ _ HI Hstep) Ha1 Hrun) as (HI' & Hle & Hlen & Ha').
    rewrite Hts in Hle, Hlen. rewrite length_insert in Hlen. cbn [length].
    split; [exact HI'|]. split; [lia|]. split; [exact Hlen | exact Ha'].
Qed.

Lemma total_warm (n : nat) : total (replicate n GetRead) = 0.
Proof. induction n as [|n IH]; [reflexivity | exact IH]. Qed.

Lemma run_warm (key : string) (n : nat) (schedule : list nat) (s : State) :
  run key schedule (warm key n) = Some s ->
  Inv key 0 s
  /\ length schedule <= total (threads s)
  /\ length (threads s) = n
  /\ Forall (fun p => answered p = true -> cached s = true) (threads s).
Proof.
  intros Hrun.
  destruct (run_total key 0 schedule (warm key n) s (warm_Inv key n)) as (HI & Hle & Hlen & Ha);
    [|exact Hrun|].
  - apply Forall_forall. intros p Hp. apply elem_of_replicate in Hp as [-> _]. discriminate.
  - cbn [warm threads] in Hle, Hlen. rewrite total_warm in Hle.
    rewrite length_replicate in Hlen.
    split; [exact HI|]. split; [lia|]. split; [exact Hlen | exact Ha].
Qed.



End OneRecordProgress.




Import Quiet.

(** ** What the body of [ServeDNS] leaves alone *)

Section StillParts.
Context `{Env}.

Lemma quiet_refl (fr : Frame) : quiet fr fr.
Proof. split; reflexivity. Qed.

Lemma quiet_trans (a b c : Frame) : quiet a b -> quiet b c -> quiet a c.
Proof. intros [H1 H2] [H3 H4]. split; congruence. Qed.

Lemma still_bind {T U : Type} (m : M T) (k : T -> M U) :
  still m -> (forall v, still (k v)) -> still (m ≫= k).
Proof.
  intros Hm Hk fr. unfold mbind, M_bind. specialize (Hm fr).
  destruct (m fr) as [fr' [v| | |]]; cbn [fst] in *; try exact Hm.
  exact (quiet_trans _ _ _ Hm (Hk v fr')).
Qed.

Lemma still_ret {T : Type} (v : T) : still (mret v).
Proof. intros fr. apply quiet_refl. Qed.

Lemma still_lift {T : Type} (m : Result T) : still (lift m).
Proof. intros fr. destruct m; apply quiet_refl. Qed.

Lemma still_return {T : Type} : still (@return_ _ T).
Proof. intros fr. apply quiet_refl. Qed.

Lemma still_panic {T : Type} : still (@panic_ _ T).
Proof. intros fr. apply quiet_refl. Qed.

Lemma still_get_frame : still get_frame.
Proof. intros fr. apply quiet_refl. Qed.

Lemma still_set_r (r : option Msg) : still (set_r r).
Proof. intros fr. split; reflexivity. Qed.

Lemma still_set_group (g : option Group) : still (set_group g).
Proof. intros fr. split; reflexivity. Qed.

Lemma replies_app (t1 t2 : list Event) : replies (t1 ++ t2) = replies t1 ++ replies t2.
Proof. apply omap_app. Qed.

Lemma still_emit (e : Event) : (forall r, e <> WriteMsgEv r) -> still (emit e).
Proof.
  intros He fr. split; [reflexivity|]. cbn [emit fst fr_trace].
  rewrite replies_app. destruct e; cbn; rewrite ?app_nil_r; try reflexivity.
  now destruct (He r).
Qed.

Lemma still_LogQuery (handler : Handler) (msg group : string) :
  still (LogQuery handler msg group).
Proof.
  unfold LogQuery. destruct (QueryLogger handler); [|apply still_panic].
  now apply still_emit.
Qed.

Lemma still_cacheGet (request : Msg) : still (cacheGet request).
Proof.
  intros fr. unfold cacheGet. destruct (fr_cache fr); [|apply quiet_refl].
  split; reflexivity.
Qed.

Lemma still_cacheSet (request : Msg) (r : option Msg) : still (cacheSet request r).
Proof.
  intros fr. unfold cacheSet. destruct (fr_cache fr) as [c|]; [|apply quiet_refl].
  apply (still_bind (set_cache (Some (Cache_Set c request r)))
           (fun _ => emit (CacheSetEv request r))).
  - intros fr'. split; reflexivity.
  - intros _. now apply still_emit.
Qed.

Lemma still_callGroup (sc : Sched) (key : string) (g : option Group) (request : Msg) :
  still (callGroup sc key g request).
Proof.
  unfold callGroup. destruct g; [|apply still_panic].
  apply still_bind; [now apply still_emit | intros _; apply still_lift].
Qed.

Lemma still_dropRule (handler : Handler) (q : Question) : still (dropRule handler q).
Proof.
  unfold dropRule. destruct (lookupGroup handler "drop"); [|apply still_panic].
  apply still_bind; [apply still_lift|]. intros v.
  destruct (matched v); [apply still_return | apply still_ret].
Qed.

Lemma still_ruleLoop (sc : Sched) (handler : Handler) (request : Msg) (q : Question)
    (groups : list (string * Group)) :
  still (ruleLoop sc handler request q groups).
Proof.
  induction groups as [|[name g] rest IH]; [apply still_ret|].
  cbn [ruleLoop]. apply still_bind; [apply still_set_group|]. intros _.
  apply still_bind; [apply still_lift|]. intros v.
  destruct (matched v); [|exact IH].
  apply still_bind; [apply still_LogQuery|]. intros _.
  apply still_bind; [apply still_callGroup|]. intros r.
  apply still_bind; [apply still_set_r|]. intros _.
  apply still_bind; [|intros _; apply still_return].
  destruct (String.eqb name "dirty" && bool_decide (r = None)); [|apply still_cacheSet].
  apply still_bind; [apply still_callGroup | intros r'; apply still_set_r].
Qed.

Lemma still_defaultPath (sc : Sched) (handler : Handler) (request : Msg) :
  still (defaultPath sc handler request).
Proof.
  unfold defaultPath.
  apply still_bind; [apply still_set_group|]. intros _.
  apply still_bind; [apply still_callGroup|]. intros r.
  apply still_bind; [apply still_set_r|]. intros _.
  apply still_bind; [apply still_lift|]. intros inRange.
  apply still_bind.
  - destruct inRange.
    + apply still_bind; [|intros _; apply still_ret].
      destruct (_ =? 0)%nat; apply still_LogQuery.
    + apply still_bind; [apply still_set_group|]. intros _.
      apply still_bind; [apply still_callGroup|]. intros [rr|].
      * apply still_bind; [apply still_LogQuery|]. intros _.
        apply still_bind; [apply still_set_r | intros _; apply still_ret].
      * apply still_bind; [apply still_LogQuery | intros _; apply still_ret].
  - intros [|]; [|apply still_ret].
    apply still_bind; [apply still_get_frame | intros fr; apply still_cacheSet].
Qed.

Lemma still_resolve (sc : Sched) (handler : Handler) (request : Msg) (q : Question) :
  still (resolve sc handler request q).
Proof.
  unfold resolve. apply still_bind; [apply still_cacheGet|]. intros hit.
  destruct (bool_decide (hit ≠ None)).
  - apply still_bind; [apply still_LogQuery | intros _; apply still_return].
  - apply still_bind; [apply still_dropRule|]. intros _.
    apply still_bind; [apply still_ruleLoop | intros _; apply still_defaultPath].
Qed.

End StillParts.

(** ** The record of a dispatch is given back *)

Section GivenBack.
Context `{Env}.

Lemma update_cond_twice (cond : nat) (f g : reqCond -> reqCond) (c : CondStore) :
  update_cond cond f (update_cond cond g c) = update_cond cond (fun rc => f (g rc)) c.
Proof.
  unfold update_cond. cbn [condMap conds]. f_equal.
  apply (list_alter_alter_eq f g).
Qed.

Lemma update_cond_id (cond : nat) (f : reqCond -> reqCond) (c : CondStore) (rc : reqCond) :
  conds c !! cond = Some rc -> f rc = rc -> update_cond cond f c = c.
Proof.
  intros Hc Hf. destruct c as [m l]. unfold update_cond. cbn [condMap conds] in *. f_equal.
  apply list_eq. intros i. destruct (decide (i = cond)) as [->|Hne].
  - rewrite list_lookup_alter_eq, Hc. cbn. now rewrite Hf.
  - now rewrite list_lookup_alter_ne.
Qed.

(** The part from the first lock on, from any frame: no reply is
    written, and unless the dispatch blocks the records are left as
    they were found. *)
Lemma underRecord_gives_back (sc : Sched) (handler : Handler) (request : Msg)
    (q : Question) (cond : nat) (fr : Frame) :
  replies (fr_trace (underRecord sc handler request q cond fr).1) = replies (fr_trace fr)
  /\ ((underRecord sc handler request q cond fr).2 <> Block ->
      fr_store (underRecord sc handler request q cond fr).1 = fr_store fr).
Proof.
  pattern (underRecord sc handler request q cond fr).
  set (P := fun res : Frame * Flow unit => _). unfold underRecord.
  destruct (conds (fr_store fr) !! cond) as [rc|] eqn:Hc.
  2:{ rewrite (bind_Panic _ _ fr fr) by (unfold Lock; now rewrite Hc). now split. }
  destruct (locked rc) eqn:Hl.
  { rewrite (bind_Block _ _ fr fr) by (unfold Lock; now rewrite Hc, Hl). now split. }
  pose (fr1 := (set_store (update_cond cond (fun rc => {| locked := true; ready := ready rc |})
                             (fr_store fr)) fr).1).
  rewrite (bind_Next _ _ fr fr1 tt) by (now rewrite (Lock_free cond fr rc Hc Hl)).
  assert (Hc1 : conds (fr_store fr1) !! cond = Some {| locked := true; ready := ready rc |})
    by (subst fr1; cbn [set_store fst fr_store]; now rewrite conds_update_cond, Hc).
  destruct (ready rc) eqn:Hr.
  2:{ rewrite (bind_Block _ _ fr1 fr1) by (unfold WaitReady; now rewrite Hc1). now split. }
  rewrite (bind_Next _ _ fr1 fr1 tt) by (apply (WaitReady_ready cond _ _ Hc1 eq_refl)).
  pose (fr2 := (Unlock cond fr1).1).
  rewrite (bind_Next _ _ fr1 fr2 tt) by reflexivity.
  assert (Hs2 : fr_store fr2 = fr_store fr).
  { subst fr2 fr1. cbn [Unlock set_store fst fr_store]. rewrite update_cond_twice.
    apply (update_cond_id _ _ _ rc Hc). destruct rc; cbn in *; congruence. }
  assert (Ht2 : fr_trace fr2 = fr_trace fr) by reflexivity.
  clearbody fr2. clear fr1 Hc1.
  destruct (fr_cache fr2) as [c|] eqn:Hcache.
  2:{ rewrite (bind_Panic _ _ fr2 fr2) by (unfold cacheGet; now rewrite Hcache).
      subst P. cbn [fst snd]. rewrite Ht2, Hs2. now split. }
  pose (fr3 := {| fr_r := Cache_Get c request; fr_group := fr_group fr2;
                  fr_cache := fr_cache fr2; fr_store := fr_store fr2;
                  fr_trace := fr_trace fr2 |}).
  rewrite (bind_Next _ _ fr2 fr3 (Cache_Get c request))
    by (unfold cacheGet; now rewrite Hcache).
  assert (Hq3 : forall m : M unit, still m -> P (m fr3)).
  { intros m Hm. destruct (Hm fr3) as [Hst Hrep]. subst P. cbv beta. rewrite Hrep, Hst.
    cbn [fr3 fr_trace fr_store]. rewrite Ht2, Hs2. now split. }
  destruct (bool_decide (Cache_Get c request ≠ None)).
  { apply Hq3. apply still_bind; [apply still_LogQuery | intros _; apply still_return]. }
  assert (Hc3 : conds (fr_store fr3) !! cond = Some rc) by (cbn [fr3 fr_store]; now rewrite Hs2).
  pose (fr4 := (set_store (update_cond cond (fun rc => {| locked := true; ready := ready rc |})
                             (fr_store fr3)) fr3).1).
  rewrite (bind_Next _ _ fr3 fr4 tt) by (now rewrite (Lock_free cond fr3 rc Hc3 Hl)).
  assert (Hc4 : conds (fr_store fr4) !! cond = Some {| locked := true; ready := ready rc |})
    by (subst fr4; cbn [set_store fst fr_store]; now rewrite conds_update_cond, Hc3).
  rewrite (bind_Next _ _ fr4 fr4 tt) by (apply (WaitReady_ready cond _ _ Hc4 Hr)).
  pose (fr5 := (set_ready cond false fr4).1).
  rewrite (bind_Next _ _ fr4 fr5 tt) by reflexivity.
  assert (Hs5 : fr_store fr5
                = update_cond cond (fun rc => {| locked := true; ready := false |})
                    (fr_store fr)).
  { subst fr5 fr4. cbn [set_ready set_store fst fr_store fr3].
    rewrite update_cond_twice, Hs2. reflexivity. }
  assert (Ht5 : fr_trace fr5 = fr_trace fr) by (subst fr5 fr4; cbn; exact Ht2).
  clearbody fr5. unfold with_defer.
  destruct (still_resolve sc handler request q fr5) as [Hst Hrep].
  destruct (resolve sc handler request q fr5) as [fr6 flow]. cbn [fst snd] in *.
  assert (Hback : fr_store (release cond fr6) = fr_store fr).
  { cbn [release fr_store]. rewrite Hst, Hs5, update_cond_twice.
    apply (update_cond_id _ _ _ rc Hc). destruct rc; cbn in *; congruence. }
  subst P. cbv beta.
  destruct flow; cbn [fst snd]; (split; [cbn [release fr_trace]; congruence|]);
    first [intros _; exact Hback | intros Hb; now destruct Hb].
Qed.

End GivenBack.

(** ** One reply for every dispatch that ends *)

Section OneReply.
Context `{Env}.

Lemma replies_AddIPSet (g : Group) (r : option Msg) : replies (AddIPSet g r) = [].
Proof.
  unfold AddIPSet. destruct (IPSet g), r; try reflexivity.
  induction (ExtractA _) as [|a l IH]; [reflexivity | exact IH].
Qed.

Lemma replies_writeReply_app (request : Msg) (fr : Frame) :
  replies (fr_trace (writeReply request fr))
  = replies (fr_trace fr) ++ [SetReply (default empty_Msg (fr_r fr)) request].
Proof.
  unfold writeReply. cbn [fr_trace]. rewrite !replies_app.
  destruct (fr_group fr); [rewrite replies_AddIPSet|]; reflexivity.
Qed.

Lemma last_writeReply (request : Msg) (fr : Frame) :
  last (fr_trace (writeReply request fr)) = Some CloseEv.
Proof. unfold writeReply. cbn [fr_trace]. rewrite !app_assoc. apply last_snoc. Qed.

(** The body of [ServeDNS] from its first frame: it writes no reply
    itself, and unless it blocks it leaves the records as they were or
    as [get] made them for the request. *)
Lemma ServeDNS_body_ends (sc : Sched) (handler : Handler) (request : Msg) (store : CondStore) :
  let fr0 := {| fr_r := None; fr_group := None; fr_cache := H_Cache handler;
                fr_store := store; fr_trace := [] |} in
  replies (fr_trace (ServeDNS_body sc handler request fr0).1) = []
  /\ ((ServeDNS_body sc handler request fr0).2 <> Block ->
      fr_store (ServeDNS_body sc handler request fr0).1 = store
      \/ exists cond, get store request
                      = Done (cond, fr_store (ServeDNS_body sc handler request fr0).1)).
Proof.
  intros fr0. pattern (ServeDNS_body sc handler request fr0).
  set (P := fun res : Frame * Flow unit => _).
  assert (Hstill : forall (m : M unit) (fr : Frame),
            still m -> fr_store fr = store -> fr_trace fr = [] -> P (m fr)).
  { intros m fr Hm Hs Ht. destruct (Hm fr) as [Hst Hrep]. subst P. cbv beta.
    rewrite Hrep, Hst, Hs, Ht. split; [reflexivity | now left]. }
  unfold ServeDNS_body. destruct (Questions request) as [|q rest].
  { now split; [|left]. }
  rewrite bind_lift_Done.
  destruct (H_DisableIPv6 handler && (Q_Qtype q =? TypeAAAA)%N).
  { apply Hstill; try reflexivity.
    apply still_bind; [apply still_set_r | intros _; apply still_return]. }
  destruct (lookupFlag (DisableQTypes handler) (TypeToString (Q_Qtype q))).
  { apply Hstill; try reflexivity.
    apply still_bind; [apply still_set_r | intros _; apply still_return]. }
  destruct (HitHosts handler request) as [hosts| |]; [|now split; [|left]|now split].
  rewrite bind_lift_Done. rewrite (bind_Next _ _ _ _ _ eq_refl).
  destruct (bool_decide (hosts ≠ None)).
  { apply Hstill; try reflexivity.
    apply still_bind; [apply still_LogQuery | intros _; apply still_return]. }
  rewrite (bind_Next _ _ _ _ _ eq_refl). cbn [set_r fst fr_store fr0].
  destruct (get store request) as [[cond st1]| |] eqn:Hget; [|now split; [|left]|now split].
  rewrite bind_lift_Done. rewrite (bind_Next _ _ _ _ _ eq_refl). cbn [fst snd set_store].
  match goal with
  | |- P (?m ?fr) =>
      change (P (underRecord sc handler request q cond fr));
      destruct (underRecord_gives_back sc handler request q cond fr) as [Hrep Hst]
  end.
  subst P. cbv beta. split; [exact Hrep|].
  intros Hb. right. exists cond. now rewrite (Hst Hb).
Qed.


(** A dispatch that does not block gives its record back: when it ends,
    by a return or by a panic, the single-flight records are those it
    found, with the free record that [get] added if the fingerprint had
    none; records that were free are free. *)
Theorem ServeDNS_gives_record_back (sc : Sched) (handler : Handler) (request : Msg)
    (store : CondStore) :
  exit (ServeDNS sc handler request store) <> Blocked ->
  (fr_store (final (ServeDNS sc handler request store)) = store
   \/ exists cond, get store request
                   = Done (cond, fr_store (final (ServeDNS sc handler request store))))
  /\ (Forall (fun rc => rc = newReqCond) (conds store) ->
      Forall (fun rc => rc = newReqCond)
        (conds (fr_store (final (ServeDNS sc handler request store))))).
Proof.
  destruct (ServeDNS_body_ends sc handler request store) as [_ Hst].
  unfold ServeDNS. cbv zeta in Hst.
  destruct (ServeDNS_body sc handler request _) as [fr flow]; cbn [fst snd] in *.
  intros Hexit.
  assert (Hb : flow <> Block) by (intros ->; now apply Hexit).
  assert (Hfinal : fr_store (final (match flow with
                                     | Block => {| exit := Blocked; final := fr |}
                                     | Panic => {| exit := Panicked;
                                                   final := writeReply request fr |}
                                     | _ => {| exit := Returned;
                                               final := writeReply request fr |}
                                     end)) = fr_store fr)
    by (destruct flow; try reflexivity; now destruct Hb).
  rewrite Hfinal. specialize (Hst Hb). split; [exact Hst|].
  intros Hfree. destruct Hst as [-> | (cond & Hget)]; [exact Hfree|].
  destruct (get_cases _ _ _ _ Hget) as (key & _ & [[_ ->]|(_ & _ & ->)]); [exact Hfree|].
  cbn [conds]. apply Forall_app. split; [exact Hfree | now constructor].
Qed.

End OneReply.
(** ** The early ends of [ServeDNS] *)

Section EarlyEnds.
Context `{Env}.

(** A query of a filtered type (AAAA with [DisableIPv6], or a type named
    in [DisableQTypes]) gets the empty reply at once: the hosts, the
    single-flight records, the cache and the upstream groups are not
    touched, and nothing is logged. *)
Theorem ServeDNS_filtered_type (sc : Sched) (handler : Handler) (request : Msg)
    (store : CondStore) (q : Question) (rest : list Question) :
  Questions request = q :: rest ->
  H_DisableIPv6 handler && (Q_Qtype q =? TypeAAAA)%N = true
  \/ lookupFlag (DisableQTypes handler) (TypeToString (Q_Qtype q)) = true ->
  ServeDNS sc handler request store
  = {| exit := Returned;
       final := {| fr_r := Some (SetReply empty_Msg request); fr_group := None;
                   fr_cache := H_Cache handler; fr_store := store;
                   fr_trace := emptyReplyTrace request |} |}.
Proof.
  intros Hq Hf. unfold ServeDNS, ServeDNS_body. rewrite Hq, bind_lift_Done.
  destruct (H_DisableIPv6 handler && (Q_Qtype q =? TypeAAAA)%N); [reflexivity|].
  destruct Hf as [Hf|Hf]; [discriminate|]. rewrite Hf. reflexivity.
Qed.

(** The body up to the record of the request, for a request that the
    type filters let through and the hosts do not answer. *)
Lemma ServeDNS_body_at_record (sc : Sched) (handler : Handler) (request : Msg)
    (store : CondStore) (q : Question) (rest : list Question) (cond : nat)
    (store1 : CondStore) :
  Questions request = q :: rest ->
  H_DisableIPv6 handler && (Q_Qtype q =? TypeAAAA)%N = false ->
  lookupFlag (DisableQTypes handler) (TypeToString (Q_Qtype q)) = false ->
  HitHosts handler request = Done None ->
  get store request = Done (cond, store1) ->
  ServeDNS_body sc handler request
    {| fr_r := None; fr_group := None; fr_cache := H_Cache handler;
       fr_store := store; fr_trace := [] |}
  = underRecord sc handler request q cond
      {| fr_r := None; fr_group := None; fr_cache := H_Cache handler;
         fr_store := store1; fr_trace := [] |}.
Proof.
  intros Hq H6 Hd Hh Hg. unfold ServeDNS_body.
  rewrite Hq, bind_lift_Done, H6, Hd, Hh, bind_lift_Done.
  rewrite (bind_Next _ _ _ _ _ eq_refl).
  rewrite bool_decide_eq_false_2 by (intros E; now apply E).
  rewrite (bind_Next _ _ _ _ _ eq_refl).
  cbn [fr_store set_r fst]. rewrite Hg, bind_lift_Done.
  rewrite (bind_Next _ _ _ _ _ eq_refl). reflexivity.
Qed.

(** A request the hosts answer: the reply is the response of
    [HitHosts], "hit hosts" is logged, and the records, the cache and
    the upstream groups are not touched. With a nil query logger the
    dispatch panics in [LogQuery], and the deferred function sends the
    hosts answer all the same. *)
Theorem ServeDNS_hosts_hit (sc : Sched) (handler : Handler) (request : Msg)
    (store : CondStore) (q : Question) (rest : list Question) (m : Msg) :
  Questions request = q :: rest ->
  H_DisableIPv6 handler && (Q_Qtype q =? TypeAAAA)%N = false ->
  lookupFlag (DisableQTypes handler) (TypeToString (Q_Qtype q)) = false ->
  HitHosts handler request = Done (Some m) ->
  ServeDNS sc handler request store
  = {| exit := match QueryLogger handler with Some _ => Returned | None => Panicked end;
       final := {| fr_r := Some (SetReply m request); fr_group := None;
                   fr_cache := H_Cache handler; fr_store := store;
                   fr_trace := match QueryLogger handler with
                               | Some _ => [LogQueryEv "hit hosts" ""]
                               | None => []
                               end ++ [WriteMsgEv (SetReply m request); CloseEv] |} |}.
Proof.
  intros Hq H6 Hd Hh. unfold ServeDNS, ServeDNS_body, LogQuery.
  rewrite Hq, bind_lift_Done, H6, Hd, Hh, bind_lift_Done.
  rewrite (bind_Next _ _ _ _ _ eq_refl).
  rewrite bool_decide_eq_true_2 by discriminate.
  destruct (QueryLogger handler); reflexivity.
Qed.

Lemma update_cond_newReqCond (cond : nat) (f : reqCond -> reqCond) (c : CondStore) :
  conds c !! cond = Some newReqCond -> f newReqCond = newReqCond -> update_cond cond f c = c.
Proof. apply update_cond_id. Qed.

(** A request whose answer is in the cache when the dispatch looks
    first (line 424): the reply is the cached response, "hit cache" is
    logged, no upstream group is called and nothing is written to the
    cache; the record of the fingerprint is left free. *)
Theorem ServeDNS_cache_hit (sc : Sched) (handler : Handler) (request : Msg)
    (store : CondStore) (q : Question) (rest : list Question) (cond : nat)
    (store1 : CondStore) (c : DNSCache) (m : Msg) (logger : string) :
  Questions request = q :: rest ->
  H_DisableIPv6 handler && (Q_Qtype q =? TypeAAAA)%N = false ->
  lookupFlag (DisableQTypes handler) (TypeToString (Q_Qtype q)) = false ->
  HitHosts handler request = Done None ->
  get store request = Done (cond, store1) ->
  conds store1 !! cond = Some newReqCond ->
  H_Cache handler = Some c -> Cache_Get c request = Some m ->
  QueryLogger handler = Some logger ->
  ServeDNS sc handler request store
  = {| exit := Returned;
       final := {| fr_r := Some (SetReply m request); fr_group := None;
                   fr_cache := Some c; fr_store := store1;
                   fr_trace := [LogQueryEv "hit cache" "";
                                WriteMsgEv (SetReply m request); CloseEv] |} |}.
Proof.
  intros Hq H6 Hd Hh Hg Hfree Hc Hhit Hlog. unfold ServeDNS.
  rewrite (ServeDNS_body_at_record sc handler request store q rest cond store1 Hq H6 Hd Hh Hg).
  unfold underRecord.
  erewrite bind_Next; [|apply (Lock_free cond _ newReqCond); [exact Hfree | reflexivity]].
  erewrite bind_Next;
    [|eapply WaitReady_ready;
      [cbn [set_store fst fr_store]; rewrite conds_update_cond, Hfree; reflexivity
      | reflexivity]].
  rewrite (bind_Next _ _ _ _ _ eq_refl).
  erewrite bind_Next; [|cbn [Unlock set_store fst fr_cache]; unfold cacheGet;
                        cbn [fr_cache]; rewrite Hc, Hhit; reflexivity].
  rewrite bool_decide_eq_true_2 by discriminate.
  unfold LogQuery. rewrite Hlog.
  cbn [mbind M_bind emit return_ set_r set_store mret M_ret fst snd fr_r fr_group fr_cache
       fr_store fr_trace writeReply default from_option app].
  rewrite update_cond_twice, (update_cond_newReqCond cond _ store1 Hfree eq_refl).
  reflexivity.
Qed.

(** A request that reaches the rules and that the rule of the drop
    group matches: the dispatch returns at once with the empty reply;
    no group is called, nothing is logged or cached, and the record of
    the fingerprint is given back free. *)
Theorem ServeDNS_dropped (sc : Sched) (handler : Handler) (request : Msg)
    (store : CondStore) (q : Question) (cond : nat) (store1 : CondStore) (c : DNSCache)
    (g : Group) (v : bool * bool) :
  reachesRules handler request store q cond store1 c ->
  lookupGroup handler "drop" = Some g ->
  Match_ptr (Matcher g) (Q_Name q) = Done v -> matched v = true ->
  ServeDNS sc handler request store
  = {| exit := Returned;
       final := {| fr_r := Some (SetReply empty_Msg request); fr_group := None;
                   fr_cache := Some c; fr_store := store1;
                   fr_trace := emptyReplyTrace request |} |}.
Proof.
  intros Hreach Hg Hv Hm.
  rewrite (ServeDNS_at_rules _ _ _ _ _ _ _ _ Hreach). unfold rules.
  destruct Hreach as (_ & _ & _ & _ & _ & Hfree & _).
  erewrite bind_Return; [|unfold dropRule; rewrite Hg, Hv, bind_lift_Done, Hm; reflexivity].
  unfold finish, atRules, slotTaken, release, writeReply, emptyReplyTrace.
  cbn [fr_r fr_group fr_cache fr_store fr_trace default from_option app].
  rewrite !update_cond_twice, (update_cond_newReqCond cond _ store1 Hfree eq_refl).
  reflexivity.
Qed.

End EarlyEnds.
(** ** The default path and the rule path, event by event *)

Section Paths.
Context `{Env}.

(** What the deferred functions add to the trace of the part under the
    slot. *)
Lemma trace_finish (request : Msg) (cond : nat) (fr : Frame) (flow : Flow unit) :
  flow <> Block ->
  fr_trace (final (finish request cond (fr, flow)))
  = fr_trace fr
      ++ [WriteMsgEv (SetReply (default empty_Msg (fr_r fr)) request)]
      ++ match fr_group fr with
         | Some g => AddIPSet g (Some (SetReply (default empty_Msg (fr_r fr)) request))
         | None => []
         end
      ++ [CloseEv]
  /\ fr_cache (final (finish request cond (fr, flow))) = fr_cache fr
  /\ fr_store (final (finish request cond (fr, flow)))
     = update_cond cond (fun _ => {| locked := false; ready := true |}) (fr_store fr).
Proof. destruct flow; intros Hb; try (now destruct Hb); repeat split. Qed.

Lemma slotTaken_released (cond : nat) (store1 : CondStore) :
  conds store1 !! cond = Some newReqCond ->
  update_cond cond (fun _ => {| locked := false; ready := true |}) (slotTaken cond store1)
  = store1.
Proof.
  intros Hfree. unfold slotTaken. rewrite !update_cond_twice.
  now apply (update_cond_id _ _ _ newReqCond).
Qed.

(** A request that no rule matches comes to the default path with the
    frame of the rules, the variable [group] apart. *)
Lemma ServeDNS_at_default (sc : Sched) (handler : Handler) (request : Msg)
    (store : CondStore) (q : Question) (cond : nat) (store1 : CondStore) (c : DNSCache) :
  reachesRules handler request store q cond store1 c ->
  notDropped handler q ->
  Forall (unmatched q) (groupOrder sc (map_to_list (default ∅ (Groups handler)))) ->
  exists fr0, sameButGroup fr0 (atRules c cond store1)
    /\ ServeDNS sc handler request store
       = finish request cond (defaultPath sc handler request fr0).
Proof.
  intros Hreach Hdrop Hnone.
  rewrite (ServeDNS_at_rules _ _ _ _ _ _ _ _ Hreach). unfold rules.
  rewrite (bind_Next _ _ _ _ _ (dropRule_pass _ _ _ Hdrop)).
  destruct (ruleLoop_skip sc handler request q _ [] (atRules c cond store1) Hnone)
    as (fr0 & Hsame & Hskip).
  rewrite app_nil_r in Hskip. rewrite (bind_Next _ _ _ _ _ Hskip).
  exists fr0. now split.
Qed.

(** The response of clean passes the range test (a nil response and a
    response without addresses do): it is the reply, it is written to
    the cache, nil or not, dirty is not asked, and the A addresses of
    the reply go to the IP set of clean. *)
Theorem ServeDNS_clean_in_range (sc : Sched) (handler : Handler) (request : Msg)
    (store : CondStore) (q : Question) (cond : nat) (store1 : CondStore) (c : DNSCache)
    (clean : Group) (r : option Msg) (logger : string) :
  reachesRules handler request store q cond store1 c ->
  notDropped handler q ->
  Forall (unmatched q) (groupOrder sc (map_to_list (default ∅ (Groups handler)))) ->
  lookupGroup handler "clean" = Some clean ->
  CallDNS sc clean (Some request) = Done r ->
  allInRange2 r (CNIP handler) (CNIPv6 handler) = Done true ->
  QueryLogger handler = Some logger ->
  exit (ServeDNS sc handler request store) = Returned
  /\ fr_trace (final (ServeDNS sc handler request store))
     = [CallDNSEv "clean";
        (if (length (ExtractA r) + length (ExtractAAAA r) =? 0)%nat
         then LogQueryEv "no ip found" "none" else LogQueryEv "match cnip" "clean");
        CacheSetEv request r;
        WriteMsgEv (SetReply (default empty_Msg r) request)]
       ++ AddIPSet clean (Some (SetReply (default empty_Msg r) request))
       ++ [CloseEv]
  /\ fr_cache (final (ServeDNS sc handler request store)) = Some (Cache_Set c request r)
  /\ fr_store (final (ServeDNS sc handler request store)) = store1
  /\ allInRange2 None (CNIP handler) (CNIPv6 handler) = Done true.
Proof.
  intros Hreach Hdrop Hnone Hclean Hr Hin Hlog.
  destruct (ServeDNS_at_default _ _ _ _ _ _ _ _ Hreach Hdrop Hnone)
    as (fr0 & (H0r & H0c & H0s & H0t) & ->).
  destruct Hreach as (_ & _ & _ & _ & _ & Hfree & _).
  assert (Hpath : defaultPath sc handler request fr0
            = ({| fr_r := r; fr_group := Some clean;
                  fr_cache := Some (Cache_Set c request r);
                  fr_store := fr_store fr0;
                  fr_trace := fr_trace fr0
                    ++ [CallDNSEv "clean";
                        (if (length (ExtractA r) + length (ExtractAAAA r) =? 0)%nat
                         then LogQueryEv "no ip found" "none"
                         else LogQueryEv "match cnip" "clean");
                        CacheSetEv request r] |}, Next tt)).
  { unfold defaultPath, callGroup, LogQuery, cacheSet. rewrite Hclean, Hlog.
    unfold mbind, M_bind, mret, M_ret, lift, emit, set_r, set_group, get_frame, set_cache.
    cbn [fst snd fr_trace fr_r fr_cache fr_group fr_store]. rewrite Hr, Hin.
    cbn [fst snd fr_trace fr_r fr_cache fr_group fr_store].
    destruct (length (ExtractA r) + length (ExtractAAAA r) =? 0)%nat;
      cbn [fst snd fr_trace fr_r fr_cache fr_group fr_store]; rewrite H0c;
      cbn [atRules fr_cache fst snd fr_trace fr_r fr_group fr_store];
      rewrite <- !app_assoc; reflexivity. }
  rewrite Hpath.
  destruct (trace_finish request cond
              {| fr_r := r; fr_group := Some clean;
                 fr_cache := Some (Cache_Set c request r); fr_store := fr_store fr0;
                 fr_trace := fr_trace fr0
                   ++ [CallDNSEv "clean";
                       (if (length (ExtractA r) + length (ExtractAAAA r) =? 0)%nat
                        then LogQueryEv "no ip found" "none"
                        else LogQueryEv "match cnip" "clean");
                       CacheSetEv request r] |} (Next tt)) as (Ht & Hc & Hs); [discriminate|].
  rewrite Ht, Hc, Hs. cbn [fr_r fr_group fr_cache fr_store fr_trace exit finish].
  rewrite H0t, H0s. cbn [atRules fr_trace fr_store app].
  rewrite (slotTaken_released _ _ Hfree). repeat split.
Qed.

(** The response of clean fails the range test: dirty is asked. If it
    answers, its response is the reply and is written to the cache; if
    it does not, the response of clean is the reply and nothing is
    written to the cache. In both cases the A addresses of the reply go
    to the IP set of dirty. *)
Theorem ServeDNS_clean_out_of_range (sc : Sched) (handler : Handler) (request : Msg)
    (store : CondStore) (q : Question) (cond : nat) (store1 : CondStore) (c : DNSCache)
    (clean dirty : Group) (r rr : option Msg) (logger : string) :
  reachesRules handler request store q cond store1 c ->
  notDropped handler q ->
  Forall (unmatched q) (groupOrder sc (map_to_list (default ∅ (Groups handler)))) ->
  lookupGroup handler "clean" = Some clean ->
  lookupGroup handler "dirty" = Some dirty ->
  CallDNS sc clean (Some request) = Done r ->
  allInRange2 r (CNIP handler) (CNIPv6 handler) = Done false ->
  CallDNS sc dirty (Some request) = Done rr ->
  QueryLogger handler = Some logger ->
  exit (ServeDNS sc handler request store) = Returned
  /\ fr_trace (final (ServeDNS sc handler request store))
     = [CallDNSEv "clean"; CallDNSEv "dirty"]
       ++ match rr with
          | Some _ => [LogQueryEv "not match cnip" "dirty"; CacheSetEv request rr]
          | None => [LogQueryEv "using clean" "dirty"]
          end
       ++ [WriteMsgEv (SetReply (default empty_Msg (orElse rr r)) request)]
       ++ AddIPSet dirty (Some (SetReply (default empty_Msg (orElse rr r)) request))
       ++ [CloseEv]
  /\ fr_cache (final (ServeDNS sc handler request store))
     = match rr with Some _ => Some (Cache_Set c request rr) | None => Some c end
  /\ fr_store (final (ServeDNS sc handler request store)) = store1.
Proof.
  intros Hreach Hdrop Hnone Hclean Hdirty Hr Hout Hrr Hlog.
  destruct (ServeDNS_at_default _ _ _ _ _ _ _ _ Hreach Hdrop Hnone)
    as (fr0 & (H0r & H0c & H0s & H0t) & ->).
  destruct Hreach as (_ & _ & _ & _ & _ & Hfree & _).
  assert (Hpath : defaultPath sc handler request fr0
            = ({| fr_r := orElse rr r; fr_group := Some dirty;
                  fr_cache := match rr with
                              | Some _ => Some (Cache_Set c request rr)
                              | None => Some c
                              end;
                  fr_store := fr_store fr0;
                  fr_trace := fr_trace fr0
                    ++ [CallDNSEv "clean"; CallDNSEv "dirty"]
                    ++ match rr with
                       | Some _ => [LogQueryEv "not match cnip" "dirty"; CacheSetEv request rr]
                       | None => [LogQueryEv "using clean" "dirty"]
                       end |}, Next tt)).
  { unfold defaultPath, callGroup, LogQuery, cacheSet. rewrite Hclean, Hdirty, Hlog.
    unfold mbind, M_bind, mret, M_ret, lift, emit, set_r, set_group, get_frame, set_cache.
    cbn [fst snd fr_trace fr_r fr_cache fr_group fr_store]. rewrite Hr, Hout.
    cbn [fst snd fr_trace fr_r fr_cache fr_group fr_store]. rewrite Hrr.
    destruct rr as [m|]; cbn [fst snd fr_trace fr_r fr_cache fr_group fr_store orElse];
      rewrite ?H0c; cbn [atRules fr_cache fst snd fr_trace fr_r fr_group fr_store];
      rewrite <- ?app_assoc; reflexivity. }
  rewrite Hpath.
  match goal with
  | |- context [finish request cond (?fr, Next tt)] =>
      destruct (trace_finish request cond fr (Next tt)) as (Ht & Hc & Hs); [discriminate|]
  end.
  rewrite Ht, Hc, Hs. cbn [fr_r fr_group fr_cache fr_store fr_trace exit finish].
  rewrite H0t, H0s. cbn [atRules fr_trace fr_store app].
  rewrite (slotTaken_released _ _ Hfree).
  destruct rr; repeat split.
Qed.

(** At the group the rule pass selects, the variable [group] that the
    deferred reply writer reads is that group, however the pass ends. *)
Lemma ruleLoop_selected_group (sc : Sched) (handler : Handler) (request : Msg)
    (q : Question) (groups : list (string * Group)) (fr : Frame) (name : string) (g : Group) :
  selects groups q name g ->
  fr_group (ruleLoop sc handler request q groups fr).1 = Some g.
Proof.
  intros (pre & post & v & -> & Hpre & Hv & Hm).
  destruct (ruleLoop_skip sc handler request q pre ((name, g) :: post) fr Hpre)
    as (fr0 & _ & ->).
  cbn [ruleLoop]. unfold callGroup, LogQuery, cacheSet.
  unfold mbind, M_bind, mret, M_ret, lift, emit, set_r, set_group, set_cache, return_, panic_.
  cbn [fst snd fr_trace fr_r fr_cache fr_group fr_store]. rewrite Hv, Hm.
  destruct (QueryLogger handler); [|reflexivity].
  cbn [fst snd fr_trace fr_r fr_cache fr_group fr_store].
  destruct (CallDNS sc g (Some request)) as [r| |]; [|reflexivity|reflexivity].
  cbn [fst snd fr_trace fr_r fr_cache fr_group fr_store].
  destruct (String.eqb name "dirty" && bool_decide (r = None)).
  - destruct (lookupGroup handler "clean") as [clean|]; [|reflexivity].
    cbn [fst snd fr_trace fr_r fr_cache fr_group fr_store].
    destruct (CallDNS sc clean (Some request)); reflexivity.
  - destruct (fr_cache fr0); reflexivity.
Qed.

(** On the rule path the A addresses of the reply go to the IP set of
    the group the rule pass selected, also when that group is dirty,
    gave no answer, and the reply is the response of clean. *)
Theorem ServeDNS_rule_path_ipset (sc : Sched) (handler : Handler)
    (request : Msg) (store : CondStore) (q : Question) (cond : nat) (store1 : CondStore)
    (c : DNSCache) (name logger : string) (g : Group) :
  reachesRules handler request store q cond store1 c ->
  notDropped handler q ->
  fair sc -> QueryLogger handler = Some logger ->
  selects (groupOrder sc (map_to_list (default ∅ (Groups handler)))) q name g ->
  (name = "dirty" -> allCallersNil g request ->
   forall (clean : Group) (r' : option Msg),
     lookupGroup handler "clean" = Some clean ->
     CallDNS sc clean (Some request) = Done r' ->
     fr_trace (final (ServeDNS sc handler request store))
     = [LogQueryEv "match by rules" "dirty"; CallDNSEv "dirty"; CallDNSEv "clean";
        WriteMsgEv (SetReply (default empty_Msg r') request)]
       ++ AddIPSet g (Some (SetReply (default empty_Msg r') request))
       ++ [CloseEv])
  /\ (forall r : option Msg,
        CallDNS sc g (Some request) = Done r ->
        name <> "dirty" \/ r <> None ->
        fr_trace (final (ServeDNS sc handler request store))
        = [LogQueryEv "match by rules" name; CallDNSEv name; CacheSetEv request r;
           WriteMsgEv (SetReply (default empty_Msg r) request)]
          ++ AddIPSet g (Some (SetReply (default empty_Msg r) request))
          ++ [CloseEv]).
Proof.
  intros Hreach Hdrop Hfair Hlog Hsel.
  rewrite (ServeDNS_at_rules _ _ _ _ _ _ _ _ Hreach). unfold rules.
  rewrite (bind_Next _ _ _ _ _ (dropRule_pass _ _ _ Hdrop)).
  destruct (ruleLoop_selected sc handler request q _ (atRules c cond store1)
              name logger g Hfair Hlog Hsel) as [Hfall Hcache].
  pose proof (ruleLoop_selected_group sc handler request q _ (atRules c cond store1)
                name g Hsel) as Hgroup.
  destruct (ruleLoop sc handler request q _ (atRules c cond store1)) as [fr2 flow] eqn:Eloop.
  cbn [fst snd] in Hfall, Hcache, Hgroup. split.
  - intros Hname Hnil clean r' Hclean Hr'.
    destruct (Hfall Hname Hnil clean r' Hclean Hr') as (-> & Hres & _ & Ht).
    rewrite (bind_Return _ _ _ _ Eloop).
    destruct (trace_finish request cond fr2 Return) as (Htr & _); [discriminate|].
    rewrite Htr, Hgroup, Hres, Ht. reflexivity.
  - intros r Hr Hcase.
    destruct (Hcache r c Hr Hcase eq_refl) as (-> & Hres & _ & Ht).
    rewrite (bind_Return _ _ _ _ Eloop).
    destruct (trace_finish request cond fr2 Return) as (Htr & _); [discriminate|].
    rewrite Htr, Hgroup, Hres, Ht. reflexivity.
Qed.

End Paths.
(** ** The theorems about the ends and the paths, at handlers of [Sample] *)

(** [Sample.handler2] has no drop group: its dispatch panics at the
    rules, and the records are as [get] made them. *)
Lemma ServeDNS_gives_record_back_witness :
  (fr_store (final (@ServeDNS Sample.env in_order Sample.handler2
                      (Sample.query "cn.bing.com." TypeA) emptyStore)) = emptyStore
   \/ exists cond,
        get emptyStore (Sample.query "cn.bing.com." TypeA)
        = Done (cond, fr_store (final (@ServeDNS Sample.env in_order Sample.handler2
                                         (Sample.query "cn.bing.com." TypeA) emptyStore))))
  /\ (Forall (fun rc => rc = newReqCond) (conds emptyStore) ->
      Forall (fun rc => rc = newReqCond)
        (conds (fr_store (final (@ServeDNS Sample.env in_order Sample.handler2
                                   (Sample.query "cn.bing.com." TypeA) emptyStore))))).
Proof.
  apply (@ServeDNS_gives_record_back Sample.env in_order Sample.handler2
           (Sample.query "cn.bing.com." TypeA) emptyStore).
  vm_compute. discriminate.
Defined.

(** An AAAA query to a handler with [DisableIPv6]. *)
Lemma ServeDNS_filtered_type_witness :
  fr_trace (final (@ServeDNS Sample.env in_order Sample.target4
                     (Sample.query "m." TypeAAAA) emptyStore))
  = emptyReplyTrace (Sample.query "m." TypeAAAA).
Proof.
  rewrite (@ServeDNS_filtered_type Sample.env in_order Sample.target4
             (Sample.query "m." TypeAAAA) emptyStore
             {| Q_Name := "m."; Q_Qtype := TypeAAAA; Q_Qclass := 1 |} [] eq_refl
             (or_introl eq_refl)).
  reflexivity.
Defined.

(** nas.lan. is in the hosts of [Records.hostsHandler]. *)
Lemma ServeDNS_hosts_hit_witness :
  called (fr_trace (final (@ServeDNS Sample.env in_order Records.hostsHandler
                             (Sample.query "nas.lan." TypeA) emptyStore))) = []
  /\ exit (@ServeDNS Sample.env in_order Records.hostsHandler
             (Sample.query "nas.lan." TypeA) emptyStore) = Returned.
Proof.
  rewrite (@ServeDNS_hosts_hit Sample.env in_order Records.hostsHandler
             (Sample.query "nas.lan." TypeA) emptyStore
             {| Q_Name := "nas.lan."; Q_Qtype := TypeA; Q_Qclass := 1 |} []
             (set_Answer empty_Msg [RR_Other zero_Header "nas.lan 60 IN A 10.0.0.2"])
             eq_refl eq_refl eq_refl eq_refl).
  split; reflexivity.
Defined.

(** The answer for cn.bing.com is in the cache of [Quiet.cachedHandler]. *)
Lemma ServeDNS_cache_hit_witness :
  called (fr_trace (final (@ServeDNS Sample.env in_order Quiet.cachedHandler
                             (Sample.query "cn.bing.com." TypeA) emptyStore))) = []
  /\ fr_store (final (@ServeDNS Sample.env in_order Quiet.cachedHandler
                        (Sample.query "cn.bing.com." TypeA) emptyStore))
     = Sample.storeOf "cn.bing.com.1".
Proof.
  rewrite (@ServeDNS_cache_hit Sample.env in_order Quiet.cachedHandler
             (Sample.query "cn.bing.com." TypeA) emptyStore
             {| Q_Name := "cn.bing.com."; Q_Qtype := TypeA; Q_Qclass := 1 |} []
             0 (Sample.storeOf "cn.bing.com.1")
             [("cn.bing.com.1", Sample.answer [Sample.rrA "cn.bing.com." x65 x20 x01 x01])]
             (Sample.answer [Sample.rrA "cn.bing.com." x65 x20 x01 x01]) "query"
             eq_refl eq_refl eq_refl eq_refl eq_refl eq_refl eq_refl eq_refl eq_refl).
  split; reflexivity.
Defined.

(** The rule of the drop group of [Sample.handler4] matches ads.drop.me. *)
Lemma ServeDNS_dropped_witness :
  fr_trace (final (@ServeDNS Sample.env in_order Sample.handler4
                     (Sample.query "ads.drop.me." TypeA) emptyStore))
  = emptyReplyTrace (Sample.query "ads.drop.me." TypeA).
Proof.
  rewrite (@ServeDNS_dropped Sample.env in_order Sample.handler4
             (Sample.query "ads.drop.me." TypeA) emptyStore
             {| Q_Name := "ads.drop.me."; Q_Qtype := TypeA; Q_Qclass := 1 |}
             0 (Sample.storeOf "ads.drop.me.1") [] Sample.dropG (true, true)).
  - reflexivity.
  - split; [exists []; reflexivity|]. repeat split.
  - reflexivity.
  - reflexivity.
  - reflexivity.
Defined.

(** clean of [Sample.handler4] answers cn.bing.com with 101.32.1.1,
    inside 101.0.0.0/8. *)
Lemma ServeDNS_clean_in_range_witness :
  called (fr_trace (final (@ServeDNS Sample.env in_order Sample.handler4
                             (Sample.query "cn.bing.com." TypeA) emptyStore))) = ["clean"]
  /\ cacheWrites (fr_trace (final (@ServeDNS Sample.env in_order Sample.handler4
                                     (Sample.query "cn.bing.com." TypeA) emptyStore)))
     = [(Sample.query "cn.bing.com." TypeA,
         Some (Sample.answer [Sample.rrA "cn.bing.com." x65 x20 x01 x01]))].
Proof.
  destruct (@ServeDNS_clean_in_range Sample.env in_order Sample.handler4
              (Sample.query "cn.bing.com." TypeA) emptyStore
              {| Q_Name := "cn.bing.com."; Q_Qtype := TypeA; Q_Qclass := 1 |}
              0 (Sample.storeOf "cn.bing.com.1") [] Sample.cleanG
              (Some (Sample.answer [Sample.rrA "cn.bing.com." x65 x20 x01 x01])) "query")
    as (_ & Ht & _).
  - split; [exists []; reflexivity|]. repeat split.
  - exists Sample.dropG. split; [reflexivity|]. exists (false, true). split; reflexivity.
  - change (groupOrder in_order (map_to_list (default ∅ (Groups Sample.handler4))))
      with [("work", Sample.workG); ("clean", Sample.cleanG); ("dirty", Sample.dirtyG);
            ("drop", Sample.dropG)].
    repeat (constructor; [exists (false, true); split; reflexivity|]). constructor.
  - reflexivity.
  - reflexivity.
  - reflexivity.
  - reflexivity.
  - rewrite Ht. split; reflexivity.
Defined.

(** clean of [Sample.handler6] answers the AAAA query with 2001:db8::1,
    outside 2400::/12, and dirty answers. *)
Lemma ServeDNS_clean_out_of_range_witness :
  called (fr_trace (final (@ServeDNS Sample.env in_order Sample.handler6
                             (Sample.query "foo.google.com." TypeAAAA) emptyStore)))
  = ["clean"; "dirty"]
  /\ cacheWrites (fr_trace (final (@ServeDNS Sample.env in_order Sample.handler6
                                     (Sample.query "foo.google.com." TypeAAAA) emptyStore)))
     = [(Sample.query "foo.google.com." TypeAAAA,
         Some (Sample.answer [Sample.rrAAAA "foo.google.com." Sample.v6cf]))].
Proof.
  destruct (@ServeDNS_clean_out_of_range Sample.env in_order Sample.handler6
              (Sample.query "foo.google.com." TypeAAAA) emptyStore
              {| Q_Name := "foo.google.com."; Q_Qtype := TypeAAAA; Q_Qclass := 1 |}
              0 (Sample.storeOf "foo.google.com.28") []
              (Sample.group "clean"
                 [Sample.answers [Sample.rrAAAA "foo.google.com." Sample.v6doc]]
                 (Some Sample.never))
              (Sample.group "dirty"
                 [Sample.answers [Sample.rrAAAA "foo.google.com." Sample.v6cf]]
                 (Some Sample.never))
              (Some (Sample.answer [Sample.rrAAAA "foo.google.com." Sample.v6doc]))
              (Some (Sample.answer [Sample.rrAAAA "foo.google.com." Sample.v6cf])) "query")
    as (_ & Ht & _).
  - split; [exists []; reflexivity|]. repeat split.
  - exists Sample.dropG. split; [reflexivity|]. exists (false, true). split; reflexivity.
  - change (groupOrder in_order (map_to_list (default ∅ (Groups Sample.handler6))))
      with [("clean", Sample.group "clean"
                        [Sample.answers [Sample.rrAAAA "foo.google.com." Sample.v6doc]]
                        (Some Sample.never));
            ("dirty", Sample.group "dirty"
                        [Sample.answers [Sample.rrAAAA "foo.google.com." Sample.v6cf]]
                        (Some Sample.never));
            ("drop", Sample.dropG)].
    repeat (constructor; [exists (false, true); split; reflexivity|]). constructor.
  - reflexivity.
  - reflexivity.
  - reflexivity.
  - reflexivity.
  - reflexivity.
  - reflexivity.
  - rewrite Ht. split; reflexivity.
Defined.

(** dirty of [Quiet.handlerSet] has the IP set gfw and gives no answer
    for pbs.twimg.com: the address clean answered with goes to gfw. *)
Lemma ServeDNS_rule_path_ipset_witness :
  omap (fun e => match e with IPSetAddEv set ip => Some (set, ip) | _ => None end)
    (fr_trace (final (@ServeDNS Sample.env in_order Quiet.handlerSet
                        (Sample.query "pbs.twimg.com." TypeA) emptyStore)))
  = [("gfw", "101.32.1.1")].
Proof.
  destruct (@ServeDNS_rule_path_ipset Sample.env in_order Quiet.handlerSet
              (Sample.query "pbs.twimg.com." TypeA) emptyStore
              {| Q_Name := "pbs.twimg.com."; Q_Qtype := TypeA; Q_Qclass := 1 |}
              0 (Sample.storeOf "pbs.twimg.com.1") [] "dirty" "query"
              (Quiet.withSet "gfw" Sample.deafDirtyG)) as [Hfall _].
  - split; [exists []; reflexivity|]. repeat split.
  - exists Sample.dropG. split; [reflexivity|]. exists (false, true). split; reflexivity.
  - exact fair_in_order.
  - reflexivity.
  - exists [("clean", Sample.cleanG)], [("drop", Sample.dropG)], (true, true).
    split; [reflexivity|]. split; [|split; reflexivity].
    constructor; [|constructor]. exists (false, true). split; reflexivity.
  - rewrite (Hfall eq_refl) with (clean := Sample.cleanG)
        (r' := Some (Sample.answer [Sample.rrA "cn.bing.com." x65 x20 x01 x01]));
      [reflexivity | repeat constructor | reflexivity | reflexivity].
Defined.

Import Safety.

(** ** A dispatch free of panics *)

Section NoPanic.
Context `{Env}.

Lemma safe_bind {T U : Type} (m : M T) (k : T -> M U) :
  safe m -> (forall v, safe (k v)) -> safe (m ≫= k).
Proof.
  intros Hm Hk fr Hc. unfold mbind, M_bind. destruct (Hm fr Hc) as [Hf Hc'].
  destruct (m fr) as [fr' [v| | |]]; cbn [fst snd] in *;
    first [exact (Hk v fr' Hc') | now split].
Qed.

Lemma safe_ret {T : Type} (v : T) : safe (mret v).
Proof. intros fr Hc. now split. Qed.

Lemma safe_return {T : Type} : safe (@return_ _ T).
Proof. intros fr Hc. now split. Qed.

Lemma safe_lift {T : Type} (m : Result T) : m <> Panics -> safe (lift m).
Proof. intros Hm fr Hc. destruct m; now split. Qed.

Lemma safe_emit (e : Event) : safe (emit e).
Proof. intros fr Hc. now split. Qed.

Lemma safe_set_r (r : option Msg) : safe (set_r r).
Proof. intros fr Hc. now split. Qed.

Lemma safe_set_group (g : option Group) : safe (set_group g).
Proof. intros fr Hc. now split. Qed.

Lemma safe_get_frame : safe get_frame.
Proof. intros fr Hc. now split. Qed.

Lemma safe_LogQuery (handler : Handler) (msg group : string) :
  QueryLogger handler <> None -> safe (LogQuery handler msg group).
Proof. unfold LogQuery. intros Hl. destruct (QueryLogger handler); [apply safe_emit | done]. Qed.

Lemma safe_cacheGet (request : Msg) : safe (cacheGet request).
Proof.
  intros fr Hc. unfold cacheGet. destruct (fr_cache fr) eqn:E; [|done].
  unfold mbind, M_bind, mret, M_ret, set_r. cbn [fst snd fr_cache]. now rewrite E.
Qed.

Lemma safe_cacheSet (request : Msg) (r : option Msg) : safe (cacheSet request r).
Proof. intros fr Hc. unfold cacheSet. destruct (fr_cache fr); [|done]. now split. Qed.

Lemma recvFirst_no_panic (n : nat) (ch : list (option Msg)) : recvFirst n ch <> Panics.
Proof.
  revert ch. induction n as [|n IH]; intros ch; [discriminate|].
  destruct ch as [|[m|] ch]; cbn [recvFirst]; first [discriminate | apply IH].
Qed.

Lemma fastestA_no_panic (sc : Sched) (ch : list (option Msg)) (chLen : nat) (tcpPort : Z) :
  fastestA sc ch chLen tcpPort <> Panics.
Proof.
  unfold fastestA. destruct (length ch <? chLen)%nat; [discriminate|].
  destruct (fold_left (probe tcpPort) _ _) as [aMap rttMap].
  destruct (fold_left pickLowest _ _) as [lowestRtt fastestIP].
  destruct (lastNonNil _); [destruct (negb _)|]; discriminate.
Qed.

(** A call of a group never panics. *)
Lemma CallDNS_no_panic (sc : Sched) (g : Group) (request : option Msg) :
  CallDNS sc g request <> Panics.
Proof.
  unfold CallDNS.
  assert (Hc : callDNS sc g request <> Panics).
  { unfold callDNS. destruct request as [request|]; [|discriminate].
    destruct (length (Callers g) =? 0)%nat; [discriminate|].
    destruct (Concurrent g || FastestV4 g); [|discriminate].
    destruct (Concurrent g && negb (FastestV4 g));
      [apply recvFirst_no_panic | apply fastestA_no_panic]. }
  destruct (callDNS sc g request) as [[m|]| |]; cbn [mbind Result_bind]; try done.
  destruct (DisableIPv6 g); discriminate.
Qed.

Lemma safe_callGroup (sc : Sched) (key : string) (g : Group) (request : Msg) :
  safe (callGroup sc key (Some g) request).
Proof.
  unfold callGroup. apply safe_bind; [apply safe_emit|]. intros _.
  apply safe_lift, CallDNS_no_panic.
Qed.

Lemma Match_ptr_Some (m : ABPlus) (name : string) : Match_ptr (Some m) name <> Panics.
Proof. discriminate. Qed.

Lemma allInRange2_no_panic (r : option Msg) (s4 s6 : RamSet) :
  allInRange2 r (Some s4) (Some s6) <> Panics.
Proof. destruct (allInRange2_spec r s4 s6) as (b & -> & _). discriminate. Qed.

Lemma HitHosts_loop_no_panic (readers : list Reader) (hostname : string) (ipv6 : bool) :
  hostname <> "" -> HitHosts_loop readers hostname ipv6 <> Panics.
Proof.
  intros Hne. induction readers as [|reader rest IH]; [discriminate|].
  rewrite HitHosts_loop_step by exact Hne.
  destruct (if String.eqb _ "" then None else _); [discriminate | exact IH].
Qed.

Section Handler.
Variables (sc : Sched) (handler : Handler) (request : Msg).
Hypothesis Hfair : fair sc.
Hypothesis Hwell : wellSet handler.

Lemma wellSet_group (name : string) :
  name = "clean" \/ name = "dirty" \/ name = "drop" ->
  exists g, lookupGroup handler name = Some g.
Proof.
  destruct Hwell as (Hv & Hd & _). unfold IsValid, lookupGroup in *.
  destruct (Groups handler) as [groups|]; [|discriminate]. cbn [mbind option_bind] in *.
  intros [-> | [-> | ->]].
  - destruct (groups !! "clean"); [eauto | discriminate].
  - destruct (groups !! "clean"); [|discriminate].
    destruct (groups !! "dirty"); [eauto | discriminate].
  - destruct (groups !! "drop"); [eauto | done].
Qed.

Lemma safe_dropRule (q : Question) : safe (dropRule handler q).
Proof.
  unfold dropRule. destruct (wellSet_group "drop") as (g & Hg); [auto|]. rewrite Hg.
  destruct Hwell as (_ & _ & Hm & _). specialize (Hm _ _ Hg).
  destruct (Matcher g) as [m|]; [|done].
  apply safe_bind; [apply safe_lift, Match_ptr_Some|]. intros v.
  destruct (matched v); [apply safe_return | apply safe_ret].
Qed.

Lemma safe_ruleLoop (q : Question) (groups : list (string * Group)) :
  Forall (fun ng => Matcher ng.2 <> None) groups ->
  safe (ruleLoop sc handler request q groups).
Proof.
  destruct Hwell as (_ & _ & _ & _ & Hl & _).
  induction 1 as [|[name g] rest Hm _ IH]; [apply safe_ret|].
  cbn [ruleLoop]. cbn [snd] in Hm. destruct (Matcher g) as [m|]; [|done].
  apply safe_bind; [apply safe_set_group|]. intros _.
  apply safe_bind; [apply safe_lift, Match_ptr_Some|]. intros v.
  destruct (matched v); [|exact IH].
  apply safe_bind; [now apply safe_LogQuery|]. intros _.
  apply safe_bind; [apply safe_callGroup|]. intros r.
  apply safe_bind; [apply safe_set_r|]. intros _.
  apply safe_bind; [|intros _; apply safe_return].
  destruct (String.eqb name "dirty" && bool_decide (r = None)); [|apply safe_cacheSet].
  destruct (wellSet_group "clean") as (clean & ->); [auto|].
  apply safe_bind; [apply safe_callGroup | intros r'; apply safe_set_r].
Qed.

Lemma safe_defaultPath : safe (defaultPath sc handler request).
Proof.
  destruct Hwell as (_ & _ & _ & _ & Hl & H4 & H6).
  unfold defaultPath.
  destruct (wellSet_group "clean") as (clean & ->); [auto|].
  destruct (wellSet_group "dirty") as (dirty & ->); [auto|].
  destruct (CNIP handler) as [s4|]; [|done]. destruct (CNIPv6 handler) as [s6|]; [|done].
  apply safe_bind; [apply safe_set_group|]. intros _.
  apply safe_bind; [apply safe_callGroup|]. intros r.
  apply safe_bind; [apply safe_set_r|]. intros _.
  apply safe_bind; [apply safe_lift, allInRange2_no_panic|]. intros inRange.
  apply safe_bind.
  - destruct inRange.
    + apply safe_bind; [|intros _; apply safe_ret].
      destruct (_ =? 0)%nat; now apply safe_LogQuery.
    + apply safe_bind; [apply safe_set_group|]. intros _.
      apply safe_bind; [apply safe_callGroup|]. intros [rr|].
      * apply safe_bind; [now apply safe_LogQuery|]. intros _.
        apply safe_bind; [apply safe_set_r | intros _; apply safe_ret].
      * apply safe_bind; [now apply safe_LogQuery | intros _; apply safe_ret].
  - intros [|]; [|apply safe_ret].
    apply safe_bind; [apply safe_get_frame | intros fr; apply safe_cacheSet].
Qed.

Lemma groups_have_matchers :
  Forall (fun ng : string * Group => Matcher ng.2 <> None)
    (groupOrder sc (map_to_list (default ∅ (Groups handler)))).
Proof.
  destruct Hfair as (_ & _ & _ & Hord). destruct Hwell as (_ & _ & Hm & _).
  apply Forall_forall. intros [name g] Hin. rewrite (Hord _) in Hin.
  apply elem_of_map_to_list in Hin. apply (Hm name). unfold lookupGroup.
  destruct (Groups handler) as [groups|]; cbn in *; [exact Hin|].
  rewrite lookup_empty in Hin. discriminate.
Qed.

Lemma safe_resolve (q : Question) : safe (resolve sc handler request q).
Proof.
  destruct Hwell as (_ & _ & _ & _ & Hl & _).
  unfold resolve. apply safe_bind; [apply safe_cacheGet|]. intros hit.
  destruct (bool_decide (hit ≠ None)).
  - apply safe_bind; [now apply safe_LogQuery | intros _; apply safe_return].
  - apply safe_bind; [apply safe_dropRule|]. intros _.
    apply safe_bind; [apply safe_ruleLoop, groups_have_matchers|].
    intros _. apply safe_defaultPath.
Qed.

(** From the first lock on, with the record in the heap. *)
Lemma underRecord_no_panic (q : Question) (cond : nat) (fr : Frame) :
  cond < length (conds (fr_store fr)) -> fr_cache fr <> None ->
  (underRecord sc handler request q cond fr).2 <> Panic.
Proof.
  intros Hlt Hcache. destruct Hwell as (_ & _ & _ & _ & Hlog & _).
  destruct (lookup_lt_is_Some_2 _ _ Hlt) as [rc Hc].
  pattern (underRecord sc handler request q cond fr).
  set (P := fun res : Frame * Flow unit => _). unfold underRecord.
  destruct (locked rc) eqn:Hl.
  { rewrite (bind_Block _ _ fr fr) by (unfold Lock; now rewrite Hc, Hl). discriminate. }
  pose (fr1 := (set_store (update_cond cond (fun rc => {| locked := true; ready := ready rc |})
                             (fr_store fr)) fr).1).
  rewrite (bind_Next _ _ fr fr1 tt) by (now rewrite (Lock_free cond fr rc Hc Hl)).
  assert (Hc1 : conds (fr_store fr1) !! cond = Some {| locked := true; ready := ready rc |})
    by (subst fr1; cbn [set_store fst fr_store]; now rewrite conds_update_cond, Hc).
  destruct (ready rc) eqn:Hr.
  2:{ rewrite (bind_Block _ _ fr1 fr1) by (unfold WaitReady; now rewrite Hc1). discriminate. }
  rewrite (bind_Next _ _ fr1 fr1 tt) by (apply (WaitReady_ready cond _ _ Hc1 eq_refl)).
  pose (fr2 := (Unlock cond fr1).1).
  rewrite (bind_Next _ _ fr1 fr2 tt) by reflexivity.
  assert (Hc2 : conds (fr_store fr2) !! cond = Some {| locked := false; ready := true |})
    by (subst fr2; cbn [Unlock set_store fst fr_store]; now rewrite conds_update_cond, Hc1).
  assert (Hcache2 : fr_cache fr2 <> None) by exact Hcache.
  clearbody fr2. clear fr1 Hc1.
  destruct (fr_cache fr2) as [c|] eqn:Ecache; [|done].
  pose (fr3 := {| fr_r := Cache_Get c request; fr_group := fr_group fr2;
                  fr_cache := fr_cache fr2; fr_store := fr_store fr2;
                  fr_trace := fr_trace fr2 |}).
  rewrite (bind_Next _ _ fr2 fr3 (Cache_Get c request))
    by (unfold cacheGet; now rewrite Ecache).
  assert (Hcache3 : fr_cache fr3 <> None) by (cbn [fr3 fr_cache]; now rewrite Ecache).
  destruct (bool_decide (Cache_Get c request ≠ None)).
  { subst P. cbv beta.
    apply (safe_bind (LogQuery handler "hit cache" "") (fun _ => return_));
      [now apply safe_LogQuery | intros _; apply safe_return | exact Hcache3]. }
  pose (fr4 := (set_store (update_cond cond (fun rc => {| locked := true; ready := ready rc |})
                             (fr_store fr3)) fr3).1).
  rewrite (bind_Next _ _ fr3 fr4 tt)
    by (now rewrite (Lock_free cond fr3 _ Hc2 eq_refl)).
  assert (Hc4 : conds (fr_store fr4) !! cond = Some {| locked := true; ready := true |})
    by (subst fr4; cbn [set_store fst fr_store fr3]; now rewrite conds_update_cond, Hc2).
  rewrite (bind_Next _ _ fr4 fr4 tt) by (apply (WaitReady_ready cond _ _ Hc4 eq_refl)).
  pose (fr5 := (set_ready cond false fr4).1).
  rewrite (bind_Next _ _ fr4 fr5 tt) by reflexivity.
  assert (Hcache5 : fr_cache fr5 <> None) by exact Hcache3.
  clearbody fr5. unfold with_defer.
  destruct (safe_resolve q fr5 Hcache5) as [Hflow _].
  destruct (resolve sc handler request q fr5) as [fr6 flow]. cbn [fst snd] in *.
  subst P. cbv beta. destruct flow; cbn [snd]; first [discriminate | done].
Qed.

End Handler.


End NoPanic.


Import Poll.

(** ** The rounds of [PollIPv6] *)

Section PollRounds.
Context `{Env}.

Lemma sleeps_app (a b : list PollEvent) : sleeps (a ++ b) = sleeps a ++ sleeps b.
Proof. apply omap_app. Qed.

Lemma queries_app (a b : list PollEvent) : queries (a ++ b) = queries a ++ queries b.
Proof. apply omap_app. Qed.

(** The loop over the answers of one response. *)
Lemma probeAnswers_spec (w : World) (domain : string) (records : Msg) (answers : list RR)
    (c : gmap string Msg) :
  ((probeAnswers w domain records answers c).1.2 = false
   <-> exists ans, RR_AAAA ans ∈ answers
                   /\ testHttpConn w (IP_String (AAAA_AAAA ans)) domain = true)
  /\ ((probeAnswers w domain records answers c).1.1 = c
      \/ (exists ans, RR_AAAA ans ∈ answers)
         /\ (probeAnswers w domain records answers c).1.1 = <[domain := records]> c)
  /\ sleeps (probeAnswers w domain records answers c).2 = []
  /\ queries (probeAnswers w domain records answers c).2 = [].
Proof.
  revert c. induction answers as [|rr rest IH]; intros c.
  - cbn. split; [split; [discriminate | intros (ans & Hin & _); inversion Hin]|].
    split; [now left | now split].
  - destruct rr as [a|ans|h o|h s]; cbn [probeAnswers].
    1,3,4: destruct (IH c) as (Hd & Hc & Hs & Hq);
      (split; [|split; [|now split]]);
      [ rewrite Hd; split; intros (x & Hin & Hx); exists x;
        (split; [|exact Hx]); [now right | apply elem_of_cons in Hin as [E|Hin]; [discriminate | exact Hin]]
      | destruct Hc as [Hc|[(x & Hin) Hc]]; [now left | right; split; [exists x; now right | exact Hc]] ].
    destruct (testHttpConn w (IP_String (AAAA_AAAA ans)) domain) eqn:Et.
    + cbn. split; [split; [intros _; exists ans; split; [now left | exact Et] | reflexivity]|].
      split; [right; split; [exists ans; now left | reflexivity] | now split].
    + destruct (IH (<[domain := records]> c)) as (Hd & Hc & Hs & Hq).
      destruct (probeAnswers w domain records rest (<[domain := records]> c))
        as [[c' dis] ev]. cbn [fst snd] in *.
      split; [|split; [|now split]].
      * rewrite Hd. split; intros (x & Hin & Hx); exists x; (split; [|exact Hx]).
        -- now right.
        -- apply elem_of_cons in Hin as [E|Hin]; [|exact Hin].
           injection E as <-. congruence.
      * right. split; [exists ans; now left|].
        destruct Hc as [->|[_ ->]]; [reflexivity | apply insert_insert_eq].
Qed.

Lemma readFor_at_0 (w : World) (group : Group) (c : gmap string Msg) (d : string) :
  readFor w group 0 c d
  = callDNS (sched w) group (Some (SetQuestion (msgId w) (d +:+ ".") TypeAAAA)).
Proof. unfold readFor. now destruct (c !! d). Qed.

Lemma follows_refl (w : World) (group : Group) (cnt : nat) (c : gmap string Msg) :
  follows w group cnt c c.
Proof. repeat split; auto. Qed.

Lemma follows_insert (w : World) (group : Group) (cnt : nat) (c0 c : gmap string Msg)
    (domain : string) (records : Msg) :
  follows w group cnt c0 c ->
  readFor w group cnt c domain = Done (Some records) ->
  (exists ans, RR_AAAA ans ∈ Answer records) ->
  follows w group cnt c0 (<[domain := records]> c).
Proof.
  intros (F1 & F2 & F3 & F4) Hread Haaaa. split; [|split; [|split]].
  - intros d. rewrite <- F1. destruct (decide (d = domain)) as [->|Hne].
    + destruct cnt as [|n]; [now rewrite !readFor_at_0|].
      rewrite Hread. unfold readFor. now rewrite lookup_insert_eq.
    + unfold readFor. now rewrite lookup_insert_ne.
  - intros d r Hd Hcnt. destruct (decide (d = domain)) as [->|Hne].
    + pose proof (F2 _ _ Hd Hcnt) as Hc. unfold readFor in Hread. rewrite Hc in Hread.
      destruct cnt; [done|]. cbn in Hread. injection Hread as <-. apply lookup_insert_eq.
    + rewrite lookup_insert_ne by congruence. auto.
  - intros d Hd. destruct (decide (d = domain)) as [->|Hne].
    + rewrite lookup_insert_eq. eauto.
    + rewrite lookup_insert_ne by congruence. auto.
  - intros d r. destruct (decide (d = domain)) as [->|Hne].
    + rewrite lookup_insert_eq. intros [= <-]. now right.
    + rewrite lookup_insert_ne by congruence. auto.
Qed.

(** The response the loop takes for a domain, with the query it sends
    for it, if it sends one. *)
Lemma pollDomains_step (w : World) (group : Group) (cnt : nat) (domain : string)
    (rest : list string) (c : gmap string Msg) :
  pollDomains w group cnt (domain :: rest) c
  = (records ← readFor w group cnt c domain;
     let asked := if bool_decide (is_Some (c !! domain)) && negb (cnt =? 0)%nat
                  then [] else [QueryEv domain] in
     match records with
     | None =>
         res ← pollDomains w group cnt rest c;
         Done (res.1.1, res.1.2, asked ++ res.2)
     | Some records =>
         let '(cache', disableIPv6, ev) :=
           probeAnswers w domain records (Answer records) c in
         if negb disableIPv6 then Done (cache', false, asked ++ ev)
         else
           res ← pollDomains w group cnt rest cache';
           Done (res.1.1, res.1.2, asked ++ ev ++ res.2)
     end).
Proof.
  cbn [pollDomains]. unfold readFor. destruct (c !! domain) as [r|] eqn:E.
  - rewrite bool_decide_eq_true_2 by eauto. destruct (negb (cnt =? 0)%nat); [reflexivity|].
    cbn [andb]. destruct (callDNS _ _ _) as [[m|]| |]; reflexivity.
  - rewrite bool_decide_eq_false_2 by (intros [? ?]; discriminate).
    destruct (callDNS _ _ _) as [[m|]| |]; reflexivity.
Qed.

Lemma asked_queries (w : World) (group : Group) (cnt : nat) (c0 c : gmap string Msg)
    (domain d : string) :
  follows w group cnt c0 c ->
  d ∈ queries (if bool_decide (is_Some (c !! domain)) && negb (cnt =? 0)%nat
               then [] else [QueryEv domain]) ->
  d = domain /\ (cnt <> 0 -> c0 !! d = None).
Proof.
  intros (_ & _ & F3 & _). destruct (bool_decide (is_Some (c !! domain))) eqn:Eb.
  - destruct cnt as [|n]; cbn; [|intros Hin; inversion Hin].
    intros Hin%list_elem_of_singleton. now split.
  - cbn. intros ->%list_elem_of_singleton. split; [reflexivity|]. intros _.
    apply bool_decide_eq_false in Eb. destruct (c0 !! domain) eqn:E0; [|reflexivity].
    destruct Eb. apply F3. eauto.
Qed.

(** The loop over the test domains, from a cache that follows the
    cache of the start of the round. *)
Lemma pollDomains_spec (w : World) (group : Group) (cnt : nat) (c0 : gmap string Msg)
    (domains : list string) :
  forall c c' dis ev,
    follows w group cnt c0 c ->
    pollDomains w group cnt domains c = Done (c', dis, ev) ->
    follows w group cnt c0 c'
    /\ (dis = false
        <-> exists domain records,
              domain ∈ domains
              /\ readFor w group cnt c0 domain = Done (Some records)
              /\ reachable w domain records)
    /\ sleeps ev = []
    /\ (forall d, d ∈ queries ev -> d ∈ domains /\ (cnt <> 0 -> c0 !! d = None)).
Proof.
  induction domains as [|domain rest IH]; intros c c' dis ev Hf Hrun.
  - injection Hrun as <- <- <-. split; [exact Hf|]. split; [|split; [reflexivity|]].
    + split; [discriminate | intros (d & r & Hin & _); inversion Hin].
    + intros d Hin. inversion Hin.
  - rewrite pollDomains_step in Hrun.
    destruct (readFor w group cnt c domain) as [records| |] eqn:Hread; try discriminate.
    cbn [mbind Result_bind] in Hrun. cbv zeta in Hrun.
    pose proof (asked_queries w group cnt c0 c domain) as Hasked.
    set (asked := if bool_decide (is_Some (c !! domain)) && negb (cnt =? 0)%nat
                  then [] else [QueryEv domain]) in *.
    assert (Hs0 : sleeps asked = []) by (subst asked; now destruct (_ && _)).
    assert (Hread0 : readFor w group cnt c0 domain = Done records)
      by (rewrite <- Hread; symmetry; apply Hf).
    destruct records as [records|].
    + destruct (probeAnswers_spec w domain records (Answer records) c) as (Hd & Hc & Hs & Hq).
      destruct (probeAnswers w domain records (Answer records) c) as [[c1 dis1] ev1].
      cbn [fst snd] in *.
      assert (Hf1 : follows w group cnt c0 c1).
      { destruct Hc as [->|[Ha ->]]; [exact Hf | now apply follows_insert]. }
      destruct dis1; cbn [negb] in Hrun.
      * destruct (pollDomains w group cnt rest c1) as [[[c2 dis2] ev2]| |] eqn:Hrest;
          try discriminate.
        cbn [mbind Result_bind fst snd] in Hrun. injection Hrun as <- <- <-.
        destruct (IH _ _ _ _ Hf1 Hrest) as (Hf2 & Hdis & Hsl & Hqs).
        split; [exact Hf2|]. split; [|split].
        -- rewrite Hdis. split.
           ++ intros (d & r & Hin & Hr & Hreach). exists d, r. split; [now right | now split].
           ++ intros (d & r & Hin & Hr & Hreach).
              apply elem_of_cons in Hin as [->|Hin]; [|eauto].
              rewrite Hread0 in Hr. injection Hr as <-.
              apply Hd in Hreach. discriminate.
        -- now rewrite !sleeps_app, Hs0, Hs, Hsl.
        -- intros d. rewrite !queries_app, Hq, !elem_of_app. intros [Hin|[Hin|Hin]].
           ++ destruct (Hasked d Hf Hin) as [-> Hno]. split; [now left | exact Hno].
           ++ inversion Hin.
           ++ destruct (Hqs d Hin) as [Hin' Hno]. split; [now right | exact Hno].
      * injection Hrun as <- <- <-. split; [exact Hf1|]. split; [|split].
        -- split; [|reflexivity]. intros _. exists domain, records.
           split; [now left|]. split; [exact Hread0 | now apply Hd].
        -- now rewrite sleeps_app, Hs0, Hs.
        -- intros d. rewrite queries_app, Hq, app_nil_r. intros Hin.
           destruct (Hasked d Hf Hin) as [-> Hno]. split; [now left | exact Hno].
    + destruct (pollDomains w group cnt rest c) as [[[c2 dis2] ev2]| |] eqn:Hrest;
        try discriminate.
      cbn [mbind Result_bind fst snd] in Hrun. injection Hrun as <- <- <-.
      destruct (IH _ _ _ _ Hf Hrest) as (Hf2 & Hdis & Hsl & Hqs).
      split; [exact Hf2|]. split; [|split].
      * rewrite Hdis. split.
        -- intros (d & r & Hin & Hr & Hreach). exists d, r. split; [now right | now split].
        -- intros (d & r & Hin & Hr & Hreach).
           apply elem_of_cons in Hin as [->|Hin]; [|eauto].
           rewrite Hread0 in Hr. discriminate.
      * now rewrite sleeps_app, Hs0, Hsl.
      * intros d. rewrite queries_app, elem_of_app. intros [Hin|Hin].
        -- destruct (Hasked d Hf Hin) as [-> Hno]. split; [now left | exact Hno].
        -- destruct (Hqs d Hin) as [Hin' Hno]. split; [now right | exact Hno].
Qed.

Lemma pollRound_cases (w : World) (group : Group) (st : PollState) (g' : Group)
    (st' : PollState) (ev : list PollEvent) :
  pollRound w group st = Done (g', st', ev) ->
  exists c' dis ev0,
    pollDomains w group (count st) (TestIPv6 group) (cache st) = Done (c', dis, ev0)
    /\ g' = (if negb (Bool.eqb dis (DisableIPv6 group)) then setDisableIPv6 group dis
             else group)
    /\ count st' = (count st + 1) mod 10
    /\ cache st' = c'
    /\ sleepTime st' = (if (sleepTime st <=? 30)%Z then (sleepTime st + 5)%Z else sleepTime st)
    /\ sleeps ev = sleeps ev0 ++ [sleepTime st']
    /\ queries ev = queries ev0.
Proof.
  unfold pollRound.
  destruct (pollDomains w group (count st) (TestIPv6 group) (cache st))
    as [[[c' dis] ev0]| |]; try discriminate.
  cbn [mbind Result_bind fst snd]. intros [= <- <- <-]. exists c', dis, ev0.
  cbn [count cache sleepTime]. rewrite !sleeps_app, !queries_app.
  repeat split; destruct (negb _); cbn; now rewrite ?app_nil_r.
Qed.

Lemma pollDomains_setDisableIPv6 (w : World) (group : Group) (b : bool) (cnt : nat)
    (domains : list string) (c : gmap string Msg) :
  pollDomains w (setDisableIPv6 group b) cnt domains c = pollDomains w group cnt domains c.
Proof.
  revert c. induction domains as [|domain rest IH]; intros c; [reflexivity|].
  cbn [pollDomains].
  change (callDNS (sched w) (setDisableIPv6 group b))
    with (callDNS (sched w) group).
  destruct (match c !! domain with
            | Some r => _
            | None => _
            end) as [[[records|] asked]| |]; cbn [mbind Result_bind fst snd];
    try reflexivity.
  - destruct (probeAnswers w domain records (Answer records) c) as [[c1 dis1] ev1].
    destruct (negb dis1); [reflexivity|]. now rewrite IH.
  - now rewrite IH.
Qed.


(** The cache of the round. In a round with [count] not 0 no query goes
    out for a domain the cache has, and what the cache had it keeps
    unchanged; in every round a query goes out for test domains only,
    the cache loses no domain, and a response that is new in the cache
    has an AAAA record. *)
Theorem pollRound_cache (w : World) (group : Group) (st : PollState) (g' : Group)
    (st' : PollState) (ev : list PollEvent) :
  pollRound w group st = Done (g', st', ev) ->
  (forall d, d ∈ queries ev ->
     d ∈ TestIPv6 group /\ (count st <> 0 -> cache st !! d = None))
  /\ (forall d r, cache st !! d = Some r -> count st <> 0 -> cache st' !! d = Some r)
  /\ (forall d, is_Some (cache st !! d) -> is_Some (cache st' !! d))
  /\ (forall d r, cache st' !! d = Some r ->
        cache st !! d = Some r \/ exists ans, RR_AAAA ans ∈ Answer r).
Proof.
  intros Hrun.
  destruct (pollRound_cases _ _ _ _ _ _ Hrun) as (c' & dis & ev0 & Hd & _ & _ & -> & _ & _ & ->).
  destruct (pollDomains_spec w group (count st) (cache st) (TestIPv6 group) _ _ _ _
              (follows_refl _ _ _ _) Hd) as ((_ & F2 & F3 & F4) & _ & _ & Hq).
  auto.
Qed.

Lemma pollRounds_backoff (rounds : nat) (world : nat -> World) :
  forall (k j : nat) (group : Group) (st : PollState) (g' : Group) (st' : PollState)
         (ev : list PollEvent),
    pollRounds rounds world k group st = Done (g', st', ev) ->
    count st = j mod 10 -> sleepTime st = Z.min (5 * Z.of_nat j) 35 ->
    count st' = (j + rounds) mod 10
    /\ sleepTime st' = Z.min (5 * Z.of_nat (j + rounds)) 35
    /\ sleeps ev = map (fun i => Z.min (5 * Z.of_nat (S i)) 35) (seq j rounds).
Proof.
  induction rounds as [|n IH]; intros k j group st g' st' ev Hrun Hc Hs.
  - injection Hrun as <- <- <-. rewrite Nat.add_0_r. now split.
  - cbn [pollRounds] in Hrun.
    destruct (pollRound (world k) group st) as [[[g1 st1] ev1]| |] eqn:Hround; try discriminate.
    cbn [mbind Result_bind fst snd] in Hrun.
    destruct (pollRounds n world (S k) g1 st1) as [[[g2 st2] ev2]| |] eqn:Hrest;
      try discriminate.
    cbn [mbind Result_bind fst snd] in Hrun. injection Hrun as <- <- <-.
    destruct (pollRound_cases _ _ _ _ _ _ Hround)
      as (c' & dis & ev0 & Hd & _ & Hc1 & _ & Hs1 & Hsl & _).
    destruct (pollDomains_spec (world k) group (count st) (cache st) (TestIPv6 group) _ _ _ _
                (follows_refl _ _ _ _) Hd) as (_ & _ & Hsl0 & _).
    assert (Hs1' : sleepTime st1 = Z.min (5 * Z.of_nat (S j)) 35).
    { rewrite Hs1, Hs. destruct (Z.leb_spec (Z.min (5 * Z.of_nat j) 35) 30); lia. }
    assert (Hc1' : count st1 = S j mod 10).
    { rewrite Hc1, Hc, Nat.Div0.add_mod_idemp_l. f_equal. lia. }
    destruct (IH (S k) (S j) g1 st1 g2 st2 ev2 Hrest Hc1' Hs1') as (Hc2 & Hs2 & Hsl2).
    rewrite Hc2, Hs2, sleeps_app, Hsl, Hsl0, Hsl2, Hs1'.
    replace (S j + n) with (j + S n) by lia. repeat split.
Qed.


End PollRounds.


Lemma pollRound_cache_witness :
  exists g' st' ev,
    @pollRound Sample.env Poll.online Poll.pollG Poll.start = Done (g', st', ev)
    /\ forall d, d ∈ queries ev -> d ∈ TestIPv6 Poll.pollG.
Proof.
  assert (Hrun : { x | @pollRound Sample.env Poll.online Poll.pollG Poll.start = Done x }).
  { eexists. vm_compute. reflexivity. }
  destruct Hrun as [[[g' st'] ev] Hrun].
  exists g', st', ev. split; [exact Hrun|]. intros d Hd.
  exact (proj1 (proj1 (@pollRound_cache Sample.env Poll.online Poll.pollG Poll.start
                          g' st' ev Hrun) d Hd)).
Defined.

